(** * Audit ledger and rollback governor of agent-workflow-core

    A shallow embedding of the hash-chained audit log (audit.ts: the class
    [AuditLogService]), of the hashing helpers it uses (crypto.ts) and of the
    rollback service (rollback.ts: the class [RollbackService]), followed by
    the properties of the specification stated and settled over them.  The
    services that write to the same ledger follow: the branch manager
    (branching.ts), and the pull requests and design control gates of the
    compliance service (fda-compliance.ts), with further properties of all
    of them.

    Conventions.
    - A JavaScript [Date] is its time value, an integer number of
      milliseconds ([Z]); the one date the code can make invalid, the cutoff
      of the retention period, is an [option Z].  Other JavaScript numbers
      (thresholds, metrics) are rationals ([Q]); NaN and the infinities are
      outside the model.
    - [undefined] in an optional field is [None].
    - The library calls the code makes (CryptoJS, JSON, zod, Date formatting)
      are the fields of the class [Host]; the system clock and the uuid
      generator are oracles in [World], read in call order.
    - A method that can throw and that mutates its object is a function in the
      monad [Eff]: it returns the error or the value together with the object
      as the call leaves it (a throw keeps the mutations made before it). *)

From Stdlib Require Import ZArith QArith String Ascii List Bool Lia.
From stdpp Require Import gmap strings list pretty sorting.
Import ListNotations.

Local Open Scope string_scope.
Local Open Scope Z_scope.

(* ================================================================== *)
(** ** Values shared by the two services *)
(* ================================================================== *)

(** JSON-like values, as stored in the [details] of an audit entry. *)
#[local] Set Warnings "-register-all".
Inductive JsonValue : Type :=
| JString (s : string)
| JNumber (n : Z)
| JArray (items : list JsonValue)
| JObject (fields : list (string * JsonValue)).

(** [Record<string, any>]: keys in insertion order. *)
Definition Details : Type := list (string * JsonValue).

(** The library functions the code calls. *)
Class Host : Type := {
  (** [CryptoJS.SHA256(s).toString()] *)
  SHA256 : string -> string;
  (** [JSON.stringify(v)] *)
  JSON_stringify : JsonValue -> string;
  (** [JSON.stringify(v, null, 2)] *)
  JSON_stringify_indent : JsonValue -> string;
  (** [Date.prototype.toISOString] on a time value *)
  toISOString : Z -> string;
  (** zod's [z.string().uuid()] check *)
  isUuid : string -> bool;
  (** zod's [error.message] of a failed parse *)
  zodMessage : string;
  (** [d.setFullYear(d.getFullYear() - n)] on the time value of [d]: the
      time value it leaves, [None] when it leaves an Invalid Date (the year
      is out of the range of [Date]) *)
  setFullYearBack : Z -> Z -> option Z
}.

(** The system clock and the uuid generator: the [n]-th reading of each. *)
Record World : Type := {
  clock : nat -> Z;
  uuids : nat -> string;
  clockReads : nat;
  uuidDraws : nat
}.

(** [throw new Error(message)] *)
Inductive Error : Type := mkError (message : string).

(** Methods of an object of state [St]. *)
Definition Eff (St A : Type) : Type := St -> World -> (Error + A) * St * World.

Definition ret {St A} (a : A) : Eff St A := fun s w => (inr a, s, w).

Definition bind {St A B} (m : Eff St A) (k : A -> Eff St B) : Eff St B :=
  fun s w =>
    match m s w with
    | (inr a, s', w') => k a s' w'
    | (inl e, s', w') => (inl e, s', w')
    end.

Definition throw {St A} (msg : string) : Eff St A :=
  fun s w => (inl (mkError msg), s, w).

Definition get {St} : Eff St St := fun s w => (inr s, s, w).

Definition modify {St} (f : St -> St) : Eff St unit := fun s w => (inr tt, f s, w).

(** The world after one more reading of the clock, of the generator. *)
Definition afterClockRead (w : World) : World :=
  {| clock := clock w; uuids := uuids w;
     clockReads := S (clockReads w); uuidDraws := uuidDraws w |}.

Definition afterUuidDraw (w : World) : World :=
  {| clock := clock w; uuids := uuids w;
     clockReads := clockReads w; uuidDraws := S (uuidDraws w) |}.

(** [Date.now()], and the time value of [new Date()]. *)
Definition Date_now {St} : Eff St Z :=
  fun s w => (inr (clock w (clockReads w)), s, afterClockRead w).

(** [uuidv4()] *)
Definition uuidv4 {St} : Eff St string :=
  fun s w => (inr (uuids w (uuidDraws w)), s, afterUuidDraw w).

Declare Scope eff_scope.
Delimit Scope eff_scope with eff.
Notation "x <- m ;; k" := (bind m (fun x => k))
  (at level 100, m at next level, right associativity) : eff_scope.
Notation "m ;;; k" := (bind m (fun _ => k))
  (at level 100, right associativity) : eff_scope.

(* ================================================================== *)
(** ** crypto.ts *)
(* ================================================================== *)

Section Crypto.
Context {host : Host}.

(** [sha256(data)] on a string argument. *)
Definition sha256 (data : string) : string := SHA256 data.

(** [createInitialHash()] *)
Definition createInitialHash {St} : Eff St string :=
  (now <- Date_now ;;
   ret (sha256 ("AGENT_PIPELINE_VERSIONING_INITIAL_HASH_" ++ pretty now)))%eff.

Record AuditLogData : Type := {
  data_id : string;
  data_action : string;
  data_actor : string;
  data_target : string;
  data_timestamp : string;
  data_details : Details
}.

(** [previousHash || ''] *)
Definition orEmpty (previousHash : option string) : string :=
  match previousHash with
  | Some h => if bool_decide (h = "") then "" else h
  | None => ""
  end.

(** [createAuditHash(logData, previousHash)] *)
Definition createAuditHash (logData : AuditLogData)
    (previousHash : option string) : string :=
  let payload :=
    String.concat "|"
      [ data_id logData;
        data_action logData;
        data_actor logData;
        data_target logData;
        data_timestamp logData;
        JSON_stringify (JObject (data_details logData));
        orEmpty previousHash ] in
  sha256 payload.

End Crypto.

(* ================================================================== *)
(** ** audit.ts: the ledger *)
(* ================================================================== *)

Inductive TargetType : Type :=
| T_artifact | T_commit | T_branch | T_rollback | T_environment.

(** The string a [targetType] is at run time. *)
Definition targetTypeString (t : TargetType) : string :=
  match t with
  | T_artifact => "artifact"
  | T_commit => "commit"
  | T_branch => "branch"
  | T_rollback => "rollback"
  | T_environment => "environment"
  end.

(** The argument of [log]. *)
Record AuditLogEntry : Type := {
  entry_action : string;
  entry_actor : string;
  entry_target : string;
  entry_targetType : TargetType;
  entry_details : option Details;
  entry_ipAddress : option string;
  entry_userAgent : option string
}.

(** A stored entry ([AuditLog] of types.ts). *)
Record AuditLog : Type := {
  log_id : string;
  log_action : string;
  log_actor : string;
  log_target : string;
  log_targetType : TargetType;
  log_timestamp : Z;
  log_details : Details;
  log_hash : string;
  log_previousHash : option string;
  log_ipAddress : option string;
  log_userAgent : option string
}.

(** The field of [RepositoryConfig] the ledger reads. *)
Record RepositoryConfig : Type := {
  retentionYears : Z
}.

Record AuditLogService : Type := {
  logs : list AuditLog;
  config : RepositoryConfig;
  lastHash : string
}.

(** The result of [verifyIntegrity]. *)
Record IntegrityResult : Type := {
  valid : bool;
  brokenAt : option nat
}.

Inductive ExportFormat : Type := json | csv.

(** The options of [getLogs]. *)
Record LogQuery : Type := {
  q_actor : option string;
  q_action : option string;
  q_target : option string;
  q_targetType : option string;
  q_startDate : option Z;
  q_endDate : option Z;
  q_limit : option Z;
  q_offset : option Z
}.

Section Audit.
Context {host : Host}.

(** [AuditLogSchema.safeParse(auditLog).success]: the record type carries
    every check of the schema but the uuid format of [id]. *)
Definition AuditLogSchema_safeParse (a : AuditLog) : bool := isUuid (log_id a).

(** [new AuditLogService(config)] *)
Definition newAuditLogService (cfg : RepositoryConfig) (w : World)
    : AuditLogService * World :=
  match createInitialHash tt w with
  | (inr h, _, w') => ({| logs := []; config := cfg; lastHash := h |}, w')
  | (inl _, _, w') => ({| logs := []; config := cfg; lastHash := "" |}, w')
  end.

(** [entry.details || {}] *)
Definition detailsOrEmpty (d : option Details) : Details :=
  match d with Some x => x | None => [] end.

(** [log(entry)] *)
Definition log (entry : AuditLogEntry) : Eff AuditLogService AuditLog :=
  (id <- uuidv4 ;;
   timestamp <- Date_now ;;
   this <- get ;;
   let logData :=
     {| data_id := id;
        data_action := entry_action entry;
        data_actor := entry_actor entry;
        data_target := entry_target entry;
        data_timestamp := toISOString timestamp;
        data_details := detailsOrEmpty (entry_details entry) |} in
   let hash := createAuditHash logData (Some (lastHash this)) in
   let auditLog :=
     {| log_id := id;
        log_action := entry_action entry;
        log_actor := entry_actor entry;
        log_target := entry_target entry;
        log_targetType := entry_targetType entry;
        log_timestamp := timestamp;
        log_details := detailsOrEmpty (entry_details entry);
        log_hash := hash;
        log_previousHash := Some (lastHash this);
        log_ipAddress := entry_ipAddress entry;
        log_userAgent := entry_userAgent entry |} in
   if negb (AuditLogSchema_safeParse auditLog)
   then throw ("Invalid audit log: " ++ zodMessage)
   else
     modify (fun this =>
       {| logs := (logs this ++ [auditLog])%list;
          config := config this;
          lastHash := hash |}) ;;;
     ret auditLog)%eff.

(** The [logData] object [verifyIntegrity] rebuilds from a stored entry. *)
Definition logDataOf (l : AuditLog) : AuditLogData :=
  {| data_id := log_id l;
     data_action := log_action l;
     data_actor := log_actor l;
     data_target := log_target l;
     data_timestamp := toISOString (log_timestamp l);
     data_details := log_details l |}.

(** The loop of [verifyIntegrity] from index [i] on;
    [expectedPreviousHash] is [i > 0 ? this.logs[i - 1].hash : undefined]. *)
Fixpoint verifyFrom (i : nat) (expectedPreviousHash : option string)
    (rest : list AuditLog) : IntegrityResult :=
  match rest with
  | [] => {| valid := true; brokenAt := None |}
  | l :: rest' =>
      if negb (bool_decide (log_previousHash l = expectedPreviousHash))
      then {| valid := false; brokenAt := Some i |}
      else
        let computedHash := createAuditHash (logDataOf l) (log_previousHash l) in
        if negb (bool_decide (log_hash l = computedHash))
        then {| valid := false; brokenAt := Some i |}
        else verifyFrom (S i) (Some (log_hash l)) rest'
  end.

(** [verifyIntegrity()] *)
Definition verifyIntegrity (this : AuditLogService) : IntegrityResult :=
  verifyFrom 0 None (logs this).

(** A truthy optional string: present and not empty. *)
Definition truthyString (o : option string) : option string :=
  match o with
  | Some s => if bool_decide (s = "") then None else Some s
  | None => None
  end.

(** A truthy optional number: present and not zero. *)
Definition truthyNumber (o : option Z) : option Z :=
  match o with
  | Some n => if n =? 0 then None else Some n
  | None => None
  end.

(** [if (cond) { filtered = filtered.filter(p) }] *)
Definition filterWhen {A B} (cond : option B) (p : B -> A -> bool)
    (filtered : list A) : list A :=
  match cond with
  | Some b => List.filter (p b) filtered
  | None => filtered
  end.

(** [Array.prototype.sort(compare)]: a stable sort; [x] goes before the
    first element it does not compare greater than. *)
Fixpoint insertSorted {A} (compare : A -> A -> Z) (x : A) (l : list A)
    : list A :=
  match l with
  | [] => [x]
  | y :: l' =>
      if compare x y <=? 0 then x :: y :: l'
      else y :: insertSorted compare x l'
  end.

Definition sortBy {A} (compare : A -> A -> Z) (l : list A) : list A :=
  fold_right (insertSorted compare) [] l.

(** [Array.prototype.slice(start, end)] on integer arguments. *)
Definition slice {A} (start stop : Z) (l : list A) : list A :=
  let len := Z.of_nat (length l) in
  let k := if start <? 0 then Z.max (len + start) 0 else Z.min start len in
  let final := if stop <? 0 then Z.max (len + stop) 0 else Z.min stop len in
  take (Z.to_nat (final - k)) (drop (Z.to_nat k) l).

(** The filtering and sorting of [getLogs], before the slice. *)
Definition matchingLogs (options : option LogQuery) (this : AuditLogService)
    : list AuditLog :=
  let opt {B} (f : LogQuery -> option B) : option B :=
    match options with Some o => f o | None => None end in
  let filtered := logs this in
  let filtered :=
    filterWhen (truthyString (opt q_actor))
      (fun a l => bool_decide (log_actor l = a)) filtered in
  let filtered :=
    filterWhen (truthyString (opt q_action))
      (fun a l => bool_decide (log_action l = a)) filtered in
  let filtered :=
    filterWhen (truthyString (opt q_target))
      (fun t l => bool_decide (log_target l = t)) filtered in
  let filtered :=
    filterWhen (truthyString (opt q_targetType))
      (fun t l => bool_decide (targetTypeString (log_targetType l) = t))
      filtered in
  let filtered :=
    filterWhen (opt q_startDate) (fun d l => d <=? log_timestamp l) filtered in
  let filtered :=
    filterWhen (opt q_endDate) (fun d l => log_timestamp l <=? d) filtered in
  sortBy (fun a b => log_timestamp b - log_timestamp a) filtered.

(** [getLogs(options)] *)
Definition getLogs (options : option LogQuery) (this : AuditLogService)
    : list AuditLog :=
  let filtered := matchingLogs options this in
  let opt {B} (f : LogQuery -> option B) : option B :=
    match options with Some o => f o | None => None end in
  let offset :=
    match truthyNumber (opt q_offset) with Some n => n | None => 0 end in
  let limit :=
    match truthyNumber (opt q_limit) with
    | Some n => n
    | None => Z.of_nat (length filtered)
    end in
  slice offset (offset + limit) filtered.

(** What [JSON.stringify] sees of a stored entry: the keys in the order
    [log] writes them, keys holding [undefined] left out, the [Date]
    through its [toJSON]. *)
Definition auditLogJson (l : AuditLog) : JsonValue :=
  let optional (key : string) (v : option string) :=
    match v with Some s => [(key, JString s)] | None => [] end in
  JObject
    ([ ("id", JString (log_id l));
       ("action", JString (log_action l));
       ("actor", JString (log_actor l));
       ("target", JString (log_target l));
       ("targetType", JString (targetTypeString (log_targetType l)));
       ("timestamp", JString (toISOString (log_timestamp l)));
       ("details", JObject (log_details l));
       ("hash", JString (log_hash l)) ]
     ++ optional "previousHash" (log_previousHash l)
     ++ optional "ipAddress" (log_ipAddress l)
     ++ optional "userAgent" (log_userAgent l))%list.

(** ['\n'] *)
Definition newline : string := String "010"%char "".

Definition headers : list string :=
  [ "id"; "action"; "actor"; "target"; "targetType";
    "timestamp"; "hash"; "previousHash" ].

(** One element of [rows] in [exportForCompliance]. *)
Definition csvRow (l : AuditLog) : list string :=
  [ log_id l;
    log_action l;
    log_actor l;
    log_target l;
    targetTypeString (log_targetType l);
    toISOString (log_timestamp l);
    log_hash l;
    orEmpty (log_previousHash l) ].

(** [exportForCompliance(format)] *)
Definition exportForCompliance (format : ExportFormat)
    (this : AuditLogService) : string :=
  match format with
  | json => JSON_stringify_indent (JArray (map auditLogJson (logs this)))
  | csv =>
      let rows := map csvRow (logs this) in
      String.concat newline
        (String.concat "," headers :: map (String.concat ",") rows)
  end.

Record ArchiveResult : Type := {
  archived : nat;
  retained : nat
}.

(** [timestamp < cutoffDate] and [timestamp >= cutoffDate], where
    [timestamp] is a valid date: a comparison with an Invalid Date compares
    with NaN and is false. *)
Definition isBefore (timestamp : Z) (cutoffDate : option Z) : bool :=
  match cutoffDate with
  | Some cutoff => timestamp <? cutoff
  | None => false
  end.

Definition isNotBefore (timestamp : Z) (cutoffDate : option Z) : bool :=
  match cutoffDate with
  | Some cutoff => cutoff <=? timestamp
  | None => false
  end.

(** [archiveOldLogs()] *)
Definition archiveOldLogs : Eff AuditLogService ArchiveResult :=
  (now <- Date_now ;;
   this <- get ;;
   let cutoffDate := setFullYearBack now (retentionYears (config this)) in
   let toArchive :=
     List.filter (fun l => isBefore (log_timestamp l) cutoffDate) (logs this) in
   let toRetain :=
     List.filter (fun l => isNotBefore (log_timestamp l) cutoffDate)
       (logs this) in
   modify (fun this =>
     {| logs := toRetain; config := config this; lastHash := lastHash this |}) ;;;
   ret {| archived := length toArchive; retained := length toRetain |})%eff.

End Audit.

(* ================================================================== *)
(** ** rollback.ts: the rollback service *)
(* ================================================================== *)

Inductive RollbackTrigger : Type := manual | automated.

Inductive RollbackStatus : Type := pending | in_progress | completed | failed.

Inductive TriggerReason : Type :=
| error_rate_spike
| safety_violation
| performance_degradation
| manual_request
| scheduled_rollback.

#[global] Instance RollbackStatus_eq_dec : EqDecision RollbackStatus.
Proof. solve_decision. Defined.

#[global] Instance TriggerReason_eq_dec : EqDecision TriggerReason.
Proof. solve_decision. Defined.

Definition triggerString (t : RollbackTrigger) : string :=
  match t with manual => "manual" | automated => "automated" end.

Definition reasonString (r : TriggerReason) : string :=
  match r with
  | error_rate_spike => "error_rate_spike"
  | safety_violation => "safety_violation"
  | performance_degradation => "performance_degradation"
  | manual_request => "manual_request"
  | scheduled_rollback => "scheduled_rollback"
  end.

Record RollbackMetrics : Type := {
  errorRate : Q;
  safetyViolations : Q;
  averageResponseTimeMs : Q;
  totalRequests : Q;
  failedRequests : Q
}.

Record RollbackConfig : Type := {
  errorRateThreshold : Q;
  safetyViolationThreshold : Q;
  performanceThresholdMs : Q;
  detectionWindowSeconds : Q;
  cooldownSeconds : Q;
  maxRollbacksPerHour : Q
}.

(** The [autoRollbackConfig] snapshot inside a record. *)
Record AutoRollbackConfig : Type := {
  auto_errorRateThreshold : Q;
  auto_safetyViolationThreshold : Q;
  auto_performanceThresholdMs : Q;
  auto_detectionWindowSeconds : Q;
  auto_cooldownSeconds : Q
}.

(** [Rollback] of types.ts. *)
Record Rollback : Type := {
  rb_id : string;
  rb_targetVersion : string;
  rb_targetCommitId : option string;
  rb_trigger : RollbackTrigger;
  rb_reason : TriggerReason;
  rb_initiatedBy : string;
  rb_timestamp : Z;
  rb_status : RollbackStatus;
  rb_completedAt : option Z;
  rb_error : option string;
  rb_affectedArtifacts : list string;
  rb_autoRollbackConfig : option AutoRollbackConfig
}.

(** The fields of [RollbackService].  [onRollbackTriggered] tells whether
    a callback is registered; [hookCalls] lists the records it was called
    with.  The callback is code of the caller, which may throw or call the
    service again: the model records the call and goes on, as the code does
    when the callback returns without touching the service.  What a call of
    [initiateRollback] returns and leaves behind is therefore stated for
    services without a callback.  The monitoring timer is not part of the
    model. *)
Record RollbackService : Type := {
  rollbacks : gmap string Rollback;
  rollbackConfig : RollbackConfig;
  auditLog : AuditLogService;
  lastRollbackTime : Z;
  rollbackCountLastHour : Z;
  onRollbackTriggered : bool;
  hookCalls : list Rollback
}.

(** The argument of [initiateRollback]. *)
Record InitiateParams : Type := {
  p_targetVersion : string;
  p_trigger : RollbackTrigger;
  p_triggerReason : TriggerReason;
  p_initiatedBy : string;
  p_description : option string;
  p_targetCommitId : option string
}.

(** [a < b] on numbers. *)
Definition Qlt_bool (a b : Q) : bool := negb (Qle_bool b a).

(** The double-quote character, as a string. *)
Definition dquote : string := String (ascii_of_nat 34) "".

Definition notFoundMessage (rollbackId : string) : string :=
  "Rollback " ++ dquote ++ rollbackId ++ dquote ++ " not found".

(** Assignments to the fields of [this]. *)
Definition setRollbacks (m : gmap string Rollback) (this : RollbackService)
    : RollbackService :=
  {| rollbacks := m;
     rollbackConfig := rollbackConfig this;
     auditLog := auditLog this;
     lastRollbackTime := lastRollbackTime this;
     rollbackCountLastHour := rollbackCountLastHour this;
     onRollbackTriggered := onRollbackTriggered this;
     hookCalls := hookCalls this |}.

Definition setAuditLog (a : AuditLogService) (this : RollbackService)
    : RollbackService :=
  {| rollbacks := rollbacks this;
     rollbackConfig := rollbackConfig this;
     auditLog := a;
     lastRollbackTime := lastRollbackTime this;
     rollbackCountLastHour := rollbackCountLastHour this;
     onRollbackTriggered := onRollbackTriggered this;
     hookCalls := hookCalls this |}.

Definition setLastRollbackTime (t : Z) (this : RollbackService)
    : RollbackService :=
  {| rollbacks := rollbacks this;
     rollbackConfig := rollbackConfig this;
     auditLog := auditLog this;
     lastRollbackTime := t;
     rollbackCountLastHour := rollbackCountLastHour this;
     onRollbackTriggered := onRollbackTriggered this;
     hookCalls := hookCalls this |}.

Definition setRollbackCountLastHour (n : Z) (this : RollbackService)
    : RollbackService :=
  {| rollbacks := rollbacks this;
     rollbackConfig := rollbackConfig this;
     auditLog := auditLog this;
     lastRollbackTime := lastRollbackTime this;
     rollbackCountLastHour := n;
     onRollbackTriggered := onRollbackTriggered this;
     hookCalls := hookCalls this |}.

Definition addHookCall (r : Rollback) (this : RollbackService)
    : RollbackService :=
  {| rollbacks := rollbacks this;
     rollbackConfig := rollbackConfig this;
     auditLog := auditLog this;
     lastRollbackTime := lastRollbackTime this;
     rollbackCountLastHour := rollbackCountLastHour this;
     onRollbackTriggered := onRollbackTriggered this;
     hookCalls := (hookCalls this ++ [r])%list |}.

(** Assignments to the fields of a stored record. *)
Definition setStatus (s : RollbackStatus) (r : Rollback) : Rollback :=
  {| rb_id := rb_id r;
     rb_targetVersion := rb_targetVersion r;
     rb_targetCommitId := rb_targetCommitId r;
     rb_trigger := rb_trigger r;
     rb_reason := rb_reason r;
     rb_initiatedBy := rb_initiatedBy r;
     rb_timestamp := rb_timestamp r;
     rb_status := s;
     rb_completedAt := rb_completedAt r;
     rb_error := rb_error r;
     rb_affectedArtifacts := rb_affectedArtifacts r;
     rb_autoRollbackConfig := rb_autoRollbackConfig r |}.

Definition setCompletedAt (t : Z) (r : Rollback) : Rollback :=
  {| rb_id := rb_id r;
     rb_targetVersion := rb_targetVersion r;
     rb_targetCommitId := rb_targetCommitId r;
     rb_trigger := rb_trigger r;
     rb_reason := rb_reason r;
     rb_initiatedBy := rb_initiatedBy r;
     rb_timestamp := rb_timestamp r;
     rb_status := rb_status r;
     rb_completedAt := Some t;
     rb_error := rb_error r;
     rb_affectedArtifacts := rb_affectedArtifacts r;
     rb_autoRollbackConfig := rb_autoRollbackConfig r |}.

Definition setError (e : string) (r : Rollback) : Rollback :=
  {| rb_id := rb_id r;
     rb_targetVersion := rb_targetVersion r;
     rb_targetCommitId := rb_targetCommitId r;
     rb_trigger := rb_trigger r;
     rb_reason := rb_reason r;
     rb_initiatedBy := rb_initiatedBy r;
     rb_timestamp := rb_timestamp r;
     rb_status := rb_status r;
     rb_completedAt := rb_completedAt r;
     rb_error := Some e;
     rb_affectedArtifacts := rb_affectedArtifacts r;
     rb_autoRollbackConfig := rb_autoRollbackConfig r |}.

Definition setAffectedArtifacts (a : list string) (r : Rollback) : Rollback :=
  {| rb_id := rb_id r;
     rb_targetVersion := rb_targetVersion r;
     rb_targetCommitId := rb_targetCommitId r;
     rb_trigger := rb_trigger r;
     rb_reason := rb_reason r;
     rb_initiatedBy := rb_initiatedBy r;
     rb_timestamp := rb_timestamp r;
     rb_status := rb_status r;
     rb_completedAt := rb_completedAt r;
     rb_error := rb_error r;
     rb_affectedArtifacts := a;
     rb_autoRollbackConfig := rb_autoRollbackConfig r |}.

Section RollbackOps.
Context {host : Host}.

(** A call of a method of [this.auditLog]. *)
Definition onAuditLog {A} (m : Eff AuditLogService A) : Eff RollbackService A :=
  fun this w =>
    match m (auditLog this) w with
    | (r, a', w') => (r, setAuditLog a' this, w')
    end.

(** [RollbackSchema.safeParse(rollback).success]: the record type carries
    every check of the schema but the uuid formats. *)
Definition RollbackSchema_safeParse (r : Rollback) : bool :=
  isUuid (rb_id r)
  && match rb_targetCommitId r with Some c => isUuid c | None => true end
  && forallb isUuid (rb_affectedArtifacts r).

(** [new RollbackService(config, auditLog, onRollbackTriggered)] *)
Definition newRollbackService (cfg : RollbackConfig) (a : AuditLogService)
    (hook : bool) : RollbackService :=
  {| rollbacks := ∅;
     rollbackConfig := cfg;
     auditLog := a;
     lastRollbackTime := 0;
     rollbackCountLastHour := 0;
     onRollbackTriggered := hook;
     hookCalls := [] |}.

(** [initiateRollback(params)] *)
Definition initiateRollback (params : InitiateParams)
    : Eff RollbackService Rollback :=
  (id <- uuidv4 ;;
   timestamp <- Date_now ;;
   this <- get ;;
   let rollback :=
     {| rb_id := id;
        rb_targetVersion := p_targetVersion params;
        rb_targetCommitId := p_targetCommitId params;
        rb_trigger := p_trigger params;
        rb_reason := p_triggerReason params;
        rb_initiatedBy := p_initiatedBy params;
        rb_timestamp := timestamp;
        rb_status := pending;
        rb_completedAt := None;
        rb_error := None;
        rb_affectedArtifacts := [];
        rb_autoRollbackConfig := Some
          {| auto_errorRateThreshold :=
               errorRateThreshold (rollbackConfig this);
             auto_safetyViolationThreshold :=
               safetyViolationThreshold (rollbackConfig this);
             auto_performanceThresholdMs :=
               performanceThresholdMs (rollbackConfig this);
             auto_detectionWindowSeconds :=
               detectionWindowSeconds (rollbackConfig this);
             auto_cooldownSeconds :=
               cooldownSeconds (rollbackConfig this) |} |} in
   if negb (RollbackSchema_safeParse rollback)
   then throw ("Invalid rollback: " ++ zodMessage)
   else
     modify (fun this => setRollbacks (<[rb_id rollback := rollback]> (rollbacks this)) this) ;;;
     now <- Date_now ;;
     modify (setLastRollbackTime now) ;;;
     modify (fun this =>
       setRollbackCountLastHour (rollbackCountLastHour this + 1) this) ;;;
     _ <- onAuditLog (log
       {| entry_action := "ROLLBACK_INITIATED";
          entry_actor := p_initiatedBy params;
          entry_target := rb_id rollback;
          entry_targetType := T_rollback;
          entry_details := Some
            [ ("targetVersion", JString (p_targetVersion params));
              ("trigger", JString (triggerString (p_trigger params)));
              ("reason", JString (reasonString (p_triggerReason params))) ];
          entry_ipAddress := None;
          entry_userAgent := None |}) ;;
     this <- get ;;
     (if onRollbackTriggered this
      then modify (addHookCall rollback)
      else ret tt) ;;;
     ret rollback)%eff.

(** [checkAndTriggerRollback(metrics)] *)
Definition checkAndTriggerRollback (metrics : RollbackMetrics)
    : Eff RollbackService (option Rollback) :=
  (now <- Date_now ;;
   this <- get ;;
   let timeSinceLastRollback :=
     (inject_Z (now - lastRollbackTime this) / 1000)%Q in
   if Qlt_bool timeSinceLastRollback (cooldownSeconds (rollbackConfig this))
   then ret None
   else if Qle_bool (maxRollbacksPerHour (rollbackConfig this))
             (inject_Z (rollbackCountLastHour this))
   then ret None
   else
     let targetVersion := "" in
     let triggerReason :=
       if Qlt_bool (safetyViolationThreshold (rollbackConfig this))
            (safetyViolations metrics)
       then Some safety_violation
       else if Qlt_bool (errorRateThreshold (rollbackConfig this))
                 (errorRate metrics)
       then Some error_rate_spike
       else if Qlt_bool (performanceThresholdMs (rollbackConfig this))
                 (averageResponseTimeMs metrics)
       then Some performance_degradation
       else None in
     match triggerReason with
     | Some reason =>
         rollback <- initiateRollback
           {| p_targetVersion := targetVersion;
              p_trigger := automated;
              p_triggerReason := reason;
              p_initiatedBy := "system";
              p_description :=
                Some ("Automated trigger: " ++ reasonString reason);
              p_targetCommitId := None |} ;;
         ret (Some rollback)
     | None => ret None
     end)%eff.

(** [rollback.field = value] on the record stored under [rollbackId]. *)
Definition updateRollback (rollbackId : string) (f : Rollback -> Rollback)
    : Eff RollbackService unit :=
  modify (fun this => setRollbacks (alter f rollbackId (rollbacks this)) this).

(** [executeRollback(rollbackId)] *)
Definition executeRollback (rollbackId : string)
    : Eff RollbackService Rollback :=
  (this <- get ;;
   match rollbacks this !! rollbackId with
   | None => throw (notFoundMessage rollbackId)
   | Some rollback =>
       if negb (bool_decide (rb_status rollback = pending))
       then throw "Rollback is not in pending status"
       else
         updateRollback rollbackId (setStatus in_progress) ;;;
         _ <- onAuditLog (log
           {| entry_action := "ROLLBACK_IN_PROGRESS";
              entry_actor := "system";
              entry_target := rollbackId;
              entry_targetType := T_rollback;
              entry_details := Some [ ("status", JString "in_progress") ];
              entry_ipAddress := None;
              entry_userAgent := None |}) ;;
         ret (setStatus in_progress rollback)
   end)%eff.

(** [completeRollback(rollbackId, affectedArtifacts)] *)
Definition completeRollback (rollbackId : string)
    (affectedArtifacts : list string) : Eff RollbackService Rollback :=
  (this <- get ;;
   match rollbacks this !! rollbackId with
   | None => throw (notFoundMessage rollbackId)
   | Some rollback =>
       updateRollback rollbackId (setStatus completed) ;;;
       now <- Date_now ;;
       updateRollback rollbackId (setCompletedAt now) ;;;
       updateRollback rollbackId (setAffectedArtifacts affectedArtifacts) ;;;
       _ <- onAuditLog (log
         {| entry_action := "ROLLBACK_COMPLETED";
            entry_actor := rb_initiatedBy rollback;
            entry_target := rollbackId;
            entry_targetType := T_rollback;
            entry_details := Some
              [ ("targetVersion", JString (rb_targetVersion rollback));
                ("affectedArtifacts",
                 JArray (map JString affectedArtifacts)) ];
            entry_ipAddress := None;
            entry_userAgent := None |}) ;;
       ret (setAffectedArtifacts affectedArtifacts
              (setCompletedAt now (setStatus completed rollback)))
   end)%eff.

(** [failRollback(rollbackId, error)] *)
Definition failRollback (rollbackId : string) (error : string)
    : Eff RollbackService Rollback :=
  (this <- get ;;
   match rollbacks this !! rollbackId with
   | None => throw (notFoundMessage rollbackId)
   | Some rollback =>
       updateRollback rollbackId (setStatus failed) ;;;
       now <- Date_now ;;
       updateRollback rollbackId (setCompletedAt now) ;;;
       updateRollback rollbackId (setError error) ;;;
       _ <- onAuditLog (log
         {| entry_action := "ROLLBACK_FAILED";
            entry_actor := rb_initiatedBy rollback;
            entry_target := rollbackId;
            entry_targetType := T_rollback;
            entry_details := Some [ ("error", JString error) ];
            entry_ipAddress := None;
            entry_userAgent := None |}) ;;
       ret (setError error (setCompletedAt now (setStatus failed rollback)))
   end)%eff.

(** [getRollback(id)] *)
Definition getRollback (id : string) (this : RollbackService)
    : option Rollback :=
  rollbacks this !! id.

(** [emergencyRollback(initiatedBy, targetVersion, description)]: the
    record returned is the object [executeRollback] has just updated. *)
Definition emergencyRollback (initiatedBy targetVersion description : string)
    : Eff RollbackService Rollback :=
  (rollback <- initiateRollback
     {| p_targetVersion := targetVersion;
        p_trigger := manual;
        p_triggerReason := manual_request;
        p_initiatedBy := initiatedBy;
        p_description := Some description;
        p_targetCommitId := None |} ;;
   executed <- executeRollback (rb_id rollback) ;;
   ret executed)%eff.

(** [cancelRollback(rollbackId, cancelledBy)] *)
Definition cancelRollback (rollbackId : string) (cancelledBy : string)
    : Eff RollbackService unit :=
  (this <- get ;;
   match rollbacks this !! rollbackId with
   | None => throw (notFoundMessage rollbackId)
   | Some rollback =>
       if negb (bool_decide (rb_status rollback = pending))
       then throw "Only pending rollbacks can be cancelled"
       else
         updateRollback rollbackId (setStatus failed) ;;;
         updateRollback rollbackId (setError ("Cancelled by " ++ cancelledBy)) ;;;
         now <- Date_now ;;
         updateRollback rollbackId (setCompletedAt now) ;;;
         _ <- onAuditLog (log
           {| entry_action := "ROLLBACK_CANCELLED";
              entry_actor := cancelledBy;
              entry_target := rollbackId;
              entry_targetType := T_rollback;
              entry_details := Some [];
              entry_ipAddress := None;
              entry_userAgent := None |}) ;;
         ret tt
   end)%eff.

End RollbackOps.

(* ================================================================== *)
(** ** Ledgers and runs the properties speak about *)
(* ================================================================== *)

(** [{valid: true}] and [{valid: false, brokenAt: i}] *)
Definition intact : IntegrityResult := {| valid := true; brokenAt := None |}.

Definition broken (i : nat) : IntegrityResult :=
  {| valid := false; brokenAt := Some i |}.

(** [Appended this n]: [this] is a ledger made by the constructor and then
    [n] calls of [log] that returned, whatever else read the clock and the
    uuid generator in between. *)
Inductive Appended {host : Host} : AuditLogService -> nat -> Prop :=
| Appended_fresh (cfg : RepositoryConfig) (w : World) :
    Appended (fst (newAuditLogService cfg w)) 0
| Appended_log (this : AuditLogService) (n : nat) (entry : AuditLogEntry)
    (w : World) (a : AuditLog) (this' : AuditLogService) (w' : World) :
    Appended this n ->
    log entry this w = (inr a, this', w') ->
    Appended this' (S n).

(** The hash the verification walk expects after the entries [l], when it
    expected [expected] before them. *)
Definition expectedAfter (expected : option string) (l : list AuditLog)
    : option string :=
  match last l with
  | Some e => Some (log_hash e)
  | None => expected
  end.

(** The two checks the verification walk makes on one entry. *)
Definition entryPasses {host : Host} (expected : option string) (e : AuditLog)
    : bool :=
  bool_decide (log_previousHash e = expected)
  && bool_decide
       (log_hash e = createAuditHash (logDataOf e) (log_previousHash e)).

(** A stored ledger with the entries [l]. *)
Definition stored (cfg : RepositoryConfig) (tail : string) (l : list AuditLog)
    : AuditLogService :=
  {| logs := l; config := cfg; lastHash := tail |}.

(** Storage corruption: one field of a stored entry overwritten. *)
Definition withPreviousHash (p : option string) (e : AuditLog) : AuditLog :=
  {| log_id := log_id e; log_action := log_action e;
     log_actor := log_actor e; log_target := log_target e;
     log_targetType := log_targetType e; log_timestamp := log_timestamp e;
     log_details := log_details e; log_hash := log_hash e;
     log_previousHash := p;
     log_ipAddress := log_ipAddress e; log_userAgent := log_userAgent e |}.

Definition withHash (h : string) (e : AuditLog) : AuditLog :=
  {| log_id := log_id e; log_action := log_action e;
     log_actor := log_actor e; log_target := log_target e;
     log_targetType := log_targetType e; log_timestamp := log_timestamp e;
     log_details := log_details e; log_hash := h;
     log_previousHash := log_previousHash e;
     log_ipAddress := log_ipAddress e; log_userAgent := log_userAgent e |}.

Definition withAction (a : string) (e : AuditLog) : AuditLog :=
  {| log_id := log_id e; log_action := a;
     log_actor := log_actor e; log_target := log_target e;
     log_targetType := log_targetType e; log_timestamp := log_timestamp e;
     log_details := log_details e; log_hash := log_hash e;
     log_previousHash := log_previousHash e;
     log_ipAddress := log_ipAddress e; log_userAgent := log_userAgent e |}.

Definition withTargetType (t : TargetType) (e : AuditLog) : AuditLog :=
  {| log_id := log_id e; log_action := log_action e;
     log_actor := log_actor e; log_target := log_target e;
     log_targetType := t; log_timestamp := log_timestamp e;
     log_details := log_details e; log_hash := log_hash e;
     log_previousHash := log_previousHash e;
     log_ipAddress := log_ipAddress e; log_userAgent := log_userAgent e |}.

(** Two entries that agree on everything the verification walk reads: the
    hashed content, [hash] and [previousHash].  They may differ in
    [targetType], [ipAddress] and [userAgent]. *)
Definition sameChainView (e e' : AuditLog) : Prop :=
  log_id e' = log_id e /\
  log_action e' = log_action e /\
  log_actor e' = log_actor e /\
  log_target e' = log_target e /\
  log_timestamp e' = log_timestamp e /\
  log_details e' = log_details e /\
  log_hash e' = log_hash e /\
  log_previousHash e' = log_previousHash e.

(** [s.split(sep)] for a one-character separator; [current] is the piece
    being read. *)
Fixpoint splitFrom (sep : ascii) (current : string) (s : string)
    : list string :=
  match s with
  | EmptyString => [current]
  | String c s' =>
      if bool_decide (c = sep)
      then current :: splitFrom sep "" s'
      else splitFrom sep (current ++ String c "") s'
  end.

(** The lines of a text: the pieces between line feeds. *)
Definition lines (s : string) : list string := splitFrom "010"%char "" s.

Fixpoint hasChar (c : ascii) (s : string) : bool :=
  match s with
  | EmptyString => false
  | String d s' => bool_decide (d = c) || hasChar c s'
  end.

(** RFC 4180, as the specification asks of the CSV export: a field holding
    a comma, a double quote or a line break is enclosed in double quotes,
    with every double quote inside it doubled. *)
Fixpoint doubleQuotes (s : string) : string :=
  match s with
  | EmptyString => ""
  | String c s' =>
      if bool_decide (c = ascii_of_nat 34)
      then String c (String c (doubleQuotes s'))
      else String c (doubleQuotes s')
  end.

Definition rfc4180Field (s : string) : string :=
  if hasChar ","%char s || hasChar (ascii_of_nat 34) s
     || hasChar "010"%char s || hasChar "013"%char s
  then dquote ++ doubleQuotes s ++ dquote
  else s.

(** The CSV export with every field escaped as RFC 4180 says. *)
Definition exportCsvEscaped {host : Host} (this : AuditLogService) : string :=
  String.concat newline
    (String.concat "," headers
     :: map (fun l => String.concat "," (map rfc4180Field (csvRow l)))
          (logs this)).

(** Queries that differ in one option. *)
Definition withLimit (limit : option Z) (o : LogQuery) : LogQuery :=
  {| q_actor := q_actor o; q_action := q_action o; q_target := q_target o;
     q_targetType := q_targetType o; q_startDate := q_startDate o;
     q_endDate := q_endDate o; q_limit := limit; q_offset := q_offset o |}.

Definition withOffset (offset : option Z) (o : LogQuery) : LogQuery :=
  {| q_actor := q_actor o; q_action := q_action o; q_target := q_target o;
     q_targetType := q_targetType o; q_startDate := q_startDate o;
     q_endDate := q_endDate o; q_limit := q_limit o; q_offset := offset |}.

(** A filter that is absent lets every entry through. *)
Definition passes {B} (cond : option B) (p : B -> AuditLog -> bool)
    (l : AuditLog) : bool :=
  match cond with Some b => p b l | None => true end.

(** An entry that meets every filter a query gives. *)
Definition matchesQuery (o : LogQuery) (l : AuditLog) : bool :=
  passes (truthyString (q_actor o)) (fun a l => bool_decide (log_actor l = a)) l
  && passes (truthyString (q_action o))
       (fun a l => bool_decide (log_action l = a)) l
  && passes (truthyString (q_target o))
       (fun t l => bool_decide (log_target l = t)) l
  && passes (truthyString (q_targetType o))
       (fun t l => bool_decide (targetTypeString (log_targetType l) = t)) l
  && passes (q_startDate o) (fun d l => d <=? log_timestamp l) l
  && passes (q_endDate o) (fun d l => log_timestamp l <=? d) l.

(** The object as a call leaves it. *)
Definition stateAfter {St A} (outcome : (Error + A) * St * World) : St :=
  snd (fst outcome).

(** The world after [n] more readings of the clock. *)
Fixpoint afterClockReads (n : nat) (w : World) : World :=
  match n with
  | O => w
  | S n' => afterClockReads n' (afterClockRead w)
  end.

(** The record [initiateRollback] builds from its argument. *)
Definition newRollback (params : InitiateParams) (this : RollbackService)
    (w : World) : Rollback :=
  {| rb_id := uuids w (uuidDraws w);
     rb_targetVersion := p_targetVersion params;
     rb_targetCommitId := p_targetCommitId params;
     rb_trigger := p_trigger params;
     rb_reason := p_triggerReason params;
     rb_initiatedBy := p_initiatedBy params;
     rb_timestamp := clock w (clockReads w);
     rb_status := pending;
     rb_completedAt := None;
     rb_error := None;
     rb_affectedArtifacts := [];
     rb_autoRollbackConfig := Some
       {| auto_errorRateThreshold := errorRateThreshold (rollbackConfig this);
          auto_safetyViolationThreshold :=
            safetyViolationThreshold (rollbackConfig this);
          auto_performanceThresholdMs :=
            performanceThresholdMs (rollbackConfig this);
          auto_detectionWindowSeconds :=
            detectionWindowSeconds (rollbackConfig this);
          auto_cooldownSeconds := cooldownSeconds (rollbackConfig this) |} |}.

(** The reason [checkAndTriggerRollback] picks for a sample. *)
Definition triggerReasonFor (cfg : RollbackConfig) (metrics : RollbackMetrics)
    : option TriggerReason :=
  if Qlt_bool (safetyViolationThreshold cfg) (safetyViolations metrics)
  then Some safety_violation
  else if Qlt_bool (errorRateThreshold cfg) (errorRate metrics)
  then Some error_rate_spike
  else if Qlt_bool (performanceThresholdMs cfg) (averageResponseTimeMs metrics)
  then Some performance_degradation
  else None.

(** The argument [checkAndTriggerRollback] passes to [initiateRollback]. *)
Definition automatedParams (reason : TriggerReason) : InitiateParams :=
  {| p_targetVersion := "";
     p_trigger := automated;
     p_triggerReason := reason;
     p_initiatedBy := "system";
     p_description := Some ("Automated trigger: " ++ reasonString reason);
     p_targetCommitId := None |}.


(** No record that has left [pending] in [m] is [pending] in [m']. *)
Definition pendingNotRestored (m m' : gmap string Rollback) : Prop :=
  forall (id : string) (r : Rollback),
    m !! id = Some r -> rb_status r <> pending ->
    exists r' : Rollback, m' !! id = Some r' /\ rb_status r' <> pending.

(** The samples a monitor feeds to the rollback service, one call of
    [checkAndTriggerRollback] each; the result lists what each call
    returned ([None] also for a call that threw). *)
Fixpoint evaluateAll {host : Host} (samples : list RollbackMetrics)
    (this : RollbackService) (w : World)
    : list (option Rollback) * RollbackService * World :=
  match samples with
  | [] => ([], this, w)
  | m :: rest =>
      match checkAndTriggerRollback m this w with
      | (r, this', w') =>
          let created := match r with inr (Some x) => Some x | _ => None end in
          match evaluateAll rest this' w' with
          | (rs, this'', w'') => (created :: rs, this'', w'')
          end
      end
  end.

(* ================================================================== *)
(** ** A host to run the model on *)
(* ================================================================== *)

(** Small executable stand-ins for the library functions, used to evaluate
    the model on concrete ledgers and runs.  Every general statement below
    is proved for all hosts. *)
Module Demo.

(** A 32-bit polynomial checksum, printed in decimal, in place of SHA-256. *)
Definition checksum (s : string) : string :=
  pretty (fold_left
            (fun acc c => (acc * 31 + Z.of_nat (nat_of_ascii c)) mod 2 ^ 32)
            (list_ascii_of_string s) 7).

(** A printer without string escapes in place of [JSON.stringify]. *)
Fixpoint stringify (v : JsonValue) : string :=
  match v with
  | JString s => dquote ++ s ++ dquote
  | JNumber n => pretty n
  | JArray items => "[" ++ String.concat "," (map stringify items) ++ "]"
  | JObject fields =>
      "{" ++ String.concat ","
               (map (fun kv => dquote ++ fst kv ++ dquote ++ ":"
                               ++ stringify (snd kv)) fields) ++ "}"
  end.

(** The uuid generator writes the draw number into a fixed pattern. *)
Definition uuidOf (n : nat) : string :=
  "00000000-0000-4000-8000-0000000000" ++ (if (n <? 10)%nat then "0" else "")
  ++ pretty n.

#[export] Instance host : Host := {
  SHA256 := checksum;
  JSON_stringify := stringify;
  JSON_stringify_indent := stringify;
  toISOString := fun t => "T" ++ pretty t;
  isUuid := fun s => bool_decide (String.length s = 36%nat);
  zodMessage := "Invalid uuid";
  setFullYearBack := fun t n =>
    let back := t - n * 31536000000 in
    if Z.abs back <=? 8640000000000000 then Some back else None
}.

(** A world whose clock shows the given readings, then 0. *)
Definition world (readings : list Z) : World :=
  {| clock := fun n => nth n readings 0;
     uuids := uuidOf;
     clockReads := 0;
     uuidDraws := 0 |}.

Definition entry (action actor : string) (t : TargetType) : AuditLogEntry :=
  {| entry_action := action;
     entry_actor := actor;
     entry_target := "doc-1";
     entry_targetType := t;
     entry_details := None;
     entry_ipAddress := None;
     entry_userAgent := None |}.

(** The objects left by a sequence of calls of [log]. *)
Fixpoint logAll (entries : list AuditLogEntry) (this : AuditLogService)
    (w : World) : AuditLogService * World :=
  match entries with
  | [] => (this, w)
  | e :: rest =>
      match log e this w with
      | (_, this', w') => logAll rest this' w'
      end
  end.

Definition retention : RepositoryConfig := {| retentionYears := 1 |}.

(** A fresh ledger (clock reading 1000) and the appends CREATE and UPDATE
    by alice at 2000 and 3000. *)
Definition ledger0 : AuditLogService * World :=
  newAuditLogService retention (world [1000; 2000; 3000]).

Definition ledger1 : AuditLogService * World :=
  logAll [entry "CREATE" "alice" T_artifact] (fst ledger0) (snd ledger0).

Definition ledger2 : AuditLogService * World :=
  logAll [entry "CREATE" "alice" T_artifact; entry "UPDATE" "alice" T_artifact]
    (fst ledger0) (snd ledger0).

(** Storage corruption: the entry at [k] overwritten by [f] of it. *)
Definition tamper (k : nat) (f : AuditLog -> AuditLog) (this : AuditLogService)
    : AuditLogService :=
  stored (config this) (lastHash this) (alter f k (logs this)).

(** A stored ledger the walk accepts: the first entry without
    [previousHash], the second linked to the first, both hashes computed
    from the entry. *)
Definition draft (id action : string) (timestamp : Z) : AuditLog :=
  {| log_id := id;
     log_action := action;
     log_actor := "alice";
     log_target := "doc-1";
     log_targetType := T_artifact;
     log_timestamp := timestamp;
     log_details := [];
     log_hash := "";
     log_previousHash := None;
     log_ipAddress := None;
     log_userAgent := None |}.

Definition seal (expected : option string) (e : AuditLog) : AuditLog :=
  let linked := withPreviousHash expected e in
  withHash (createAuditHash (logDataOf linked) expected) linked.

Definition first : AuditLog := seal None (draft (uuidOf 0) "CREATE" 2000).

Definition second : AuditLog :=
  seal (Some (log_hash first)) (draft (uuidOf 1) "UPDATE" 3000).

Definition accepted : list AuditLog := [first; second].

(** A ledger with one entry older than the retention period of one year:
    appends at 2000 and 40000000000, pruning at 40000000001. *)
Definition agedLedger : AuditLogService * World :=
  let fresh :=
    newAuditLogService retention
      (world [1000; 2000; 40000000000; 40000000001]) in
  logAll [entry "CREATE" "alice" T_artifact; entry "UPDATE" "alice" T_artifact]
    (fst fresh) (snd fresh).

Definition prunedLedger : (Error + ArchiveResult) * AuditLogService * World :=
  archiveOldLogs (fst agedLedger) (snd agedLedger).

(** A ledger with a comma in a field. *)
Definition commaLedger : AuditLogService * World :=
  logAll [entry "CREATE" "Doe, Jane" T_artifact] (fst ledger0) (snd ledger0).

(** The default thresholds, with at most two rollbacks per hour. *)
Definition limits : RollbackConfig :=
  {| errorRateThreshold := 0.05;
     safetyViolationThreshold := 0;
     performanceThresholdMs := 5000;
     detectionWindowSeconds := 60;
     cooldownSeconds := 300;
     maxRollbacksPerHour := 2 |}.

(** A sample that breaches the safety and the error-rate thresholds. *)
Definition breach : RollbackMetrics :=
  {| errorRate := 0.9;
     safetyViolations := 1;
     averageResponseTimeMs := 100;
     totalRequests := 1000;
     failedRequests := 900 |}.

Definition t0 : Z := 1700000000000.

(** The clock of four samples: at [t0], ten minutes later, twenty minutes
    later and three hours later.  A call that creates a record reads the
    clock four times, a suppressed call once. *)
Definition governorWorld : World :=
  world [ 1000;
          t0; t0; t0; t0;
          t0 + 600000; t0 + 600000; t0 + 600000; t0 + 600000;
          t0 + 1200000;
          t0 + 10800000 ].

Definition governor0 : RollbackService * World :=
  let fresh := newAuditLogService retention governorWorld in
  (newRollbackService limits (fst fresh) false, snd fresh).

(** The service after the first two samples. *)
Definition afterTwo : list (option Rollback) * RollbackService * World :=
  evaluateAll [breach; breach] (fst governor0) (snd governor0).

(** A manual rollback, left in progress, then completed. *)
Definition emergency : (Error + Rollback) * RollbackService * World :=
  emergencyRollback "oncall" "1.2.3" "bad deploy" (fst governor0) (snd governor0).

Definition completion : (Error + Rollback) * RollbackService * World :=
  completeRollback (uuidOf 0) [] (stateAfter emergency) (snd emergency).

End Demo.

(* ================================================================== *)
(** ** crypto.ts: hashing and signing helpers *)
(* ================================================================== *)

(** [CryptoJS.HmacSHA256(message, key).toString()] *)
Class HmacHost : Type := {
  HmacSHA256 : string -> string -> string
}.

(** [CommitSignatureData] *)
Record CommitSignatureData : Type := {
  sig_artifactId : string;
  sig_version : string;
  sig_message : string;
  sig_author : string;
  sig_parentCommits : list string;
  sig_timestamp : string;
  sig_content : JsonValue
}.

Section CryptoHelpers.
Context {host : Host} {hmac : HmacHost}.

(** [typeof data === 'string' ? data : JSON.stringify(data)] *)
Definition serialized (data : JsonValue) : string :=
  match data with
  | JString s => s
  | _ => JSON_stringify data
  end.

(** [sha256(data)] on any argument. *)
Definition sha256Of (data : JsonValue) : string := SHA256 (serialized data).

(** [hashWithPrevious(data, previousHash)] *)
Definition hashWithPrevious (data : JsonValue) (previousHash : string)
    : string :=
  let combined := sha256Of data ++ previousHash in
  SHA256 combined.

(** [verifyHash(data, expectedHash)] *)
Definition verifyHash (data : JsonValue) (expectedHash : string) : bool :=
  bool_decide (sha256Of data = expectedHash).

(** [generateSignature(data, secretKey)] *)
Definition generateSignature (data : JsonValue) (secretKey : string) : string :=
  HmacSHA256 (serialized data) secretKey.

(** [verifySignature(data, signature, secretKey)] *)
Definition verifySignature (data : JsonValue) (signature secretKey : string)
    : bool :=
  let expectedSignature := generateSignature data secretKey in
  bool_decide (expectedSignature = signature).

(** [signCommit(data, secretKey)] *)
Definition signCommit (data : CommitSignatureData) (secretKey : string)
    : string :=
  let payload :=
    String.concat "|"
      [ sig_artifactId data;
        sig_version data;
        sig_message data;
        sig_author data;
        String.concat "," (sig_parentCommits data);
        sig_timestamp data;
        serialized (sig_content data) ] in
  generateSignature (JString payload) secretKey.

(** [verifyCommitSignature(data, signature, secretKey)] *)
Definition verifyCommitSignature (data : CommitSignatureData)
    (signature secretKey : string) : bool :=
  verifySignature
    (JString
       (String.concat "|"
          [ sig_artifactId data;
            sig_version data;
            sig_message data;
            sig_author data;
            String.concat "," (sig_parentCommits data);
            sig_timestamp data;
            serialized (sig_content data) ]))
    signature secretKey.

(** The loop of [verifyAuditChain] from index [i] on. *)
Fixpoint verifyAuditChainFrom (expectedPreviousHash : option string)
    (rest : list AuditLog) : bool :=
  match rest with
  | [] => true
  | l :: rest' =>
      if negb (bool_decide (log_previousHash l = expectedPreviousHash))
      then false
      else verifyAuditChainFrom (Some (log_hash l)) rest'
  end.

(** [verifyAuditChain(logs)] *)
Definition verifyAuditChain (logs : list AuditLog) : bool :=
  verifyAuditChainFrom None logs.

(** [contentHash(content)] *)
Definition contentHash (content : JsonValue) : string :=
  let contentStr := serialized content in
  sha256 contentStr.

End CryptoHelpers.

(* ================================================================== *)
(** ** audit.ts: the other queries of the ledger *)
(* ================================================================== *)

Section AuditQueries.
Context {host : Host}.

(** [getLogsForArtifact(artifactId)] *)
Definition getLogsForArtifact (artifactId : string) (this : AuditLogService)
    : list AuditLog :=
  List.filter
    (fun l => bool_decide (log_target l = artifactId)
              && bool_decide (targetTypeString (log_targetType l) = "artifact"))
    (logs this).

(** [getLogsForCommit(commitId)] *)
Definition getLogsForCommit (commitId : string) (this : AuditLogService)
    : list AuditLog :=
  List.filter
    (fun l => bool_decide (log_target l = commitId)
              && bool_decide (targetTypeString (log_targetType l) = "commit"))
    (logs this).

(** [getLogsWithinRetention()] *)
Definition getLogsWithinRetention : Eff AuditLogService (list AuditLog) :=
  (now <- Date_now ;;
   this <- get ;;
   let cutoffDate := setFullYearBack now (retentionYears (config this)) in
   ret (List.filter (fun l => isNotBefore (log_timestamp l) cutoffDate)
          (logs this)))%eff.

(** [getLastHash()] *)
Definition getLastHash (this : AuditLogService) : string := lastHash this.

(** [getLogCount()] *)
Definition getLogCount (this : AuditLogService) : nat := length (logs this).

End AuditQueries.

(* ================================================================== *)
(** ** rollback.ts: statistics *)
(* ================================================================== *)

Record RollbackStatistics : Type := {
  stat_total : nat;
  stat_pending : nat;
  stat_inProgress : nat;
  stat_completed : nat;
  stat_failed : nat;
  stat_automatedCount : nat;
  stat_manualCount : nat;
  stat_averageCompletionTimeMs : Q
}.

#[global] Instance RollbackTrigger_eq_dec : EqDecision RollbackTrigger.
Proof. solve_decision. Defined.

(** [Array.from(this.rollbacks.values())]: the stored records.  The order
    is that of the map, not the insertion order of the code; the functions
    below that use it count and add, and do not depend on the order. *)
Definition rollbackValues (this : RollbackService) : list Rollback :=
  (map_to_list (rollbacks this)).*2.

(** [getStatistics()] *)
Definition getStatistics (this : RollbackService) : RollbackStatistics :=
  let all := rollbackValues this in
  let count (p : Rollback -> bool) := length (List.filter p all) in
  let completed :=
    List.filter
      (fun r => bool_decide (rb_status r = completed)
                && bool_decide (is_Some (rb_completedAt r))) all in
  let completionTimes :=
    map (fun r => match rb_completedAt r with
                  | Some t => t - rb_timestamp r
                  | None => 0
                  end) completed in
  {| stat_total := length all;
     stat_pending := count (fun r => bool_decide (rb_status r = pending));
     stat_inProgress := count (fun r => bool_decide (rb_status r = in_progress));
     stat_completed := length completed;
     stat_failed := count (fun r => bool_decide (rb_status r = failed));
     stat_automatedCount :=
       count (fun r => bool_decide (rb_trigger r = automated));
     stat_manualCount := count (fun r => bool_decide (rb_trigger r = manual));
     stat_averageCompletionTimeMs :=
       if (0 <? length completionTimes)%nat
       then (inject_Z (fold_left Z.add completionTimes 0%Z)
             / inject_Z (Z.of_nat (length completionTimes)))%Q
       else 0%Q |}.

(** The calls a user of the rollback service can make. *)
Inductive Call : Type :=
| CallCheck (metrics : RollbackMetrics)
| CallInitiate (params : InitiateParams)
| CallExecute (rollbackId : string)
| CallComplete (rollbackId : string) (affectedArtifacts : list string)
| CallFail (rollbackId error : string)
| CallCancel (rollbackId cancelledBy : string)
| CallEmergency (initiatedBy targetVersion description : string).

(** The service as a call leaves it, whether the call returns or throws. *)
Definition afterCall {host : Host} (c : Call) (this : RollbackService)
    (w : World) : RollbackService :=
  match c with
  | CallCheck metrics => stateAfter (checkAndTriggerRollback metrics this w)
  | CallInitiate params => stateAfter (initiateRollback params this w)
  | CallExecute id => stateAfter (executeRollback id this w)
  | CallComplete id arts => stateAfter (completeRollback id arts this w)
  | CallFail id error => stateAfter (failRollback id error this w)
  | CallCancel id who => stateAfter (cancelRollback id who this w)
  | CallEmergency who version description =>
      stateAfter (emergencyRollback who version description this w)
  end.

(** [Served this]: [this] is a service made by the constructor and then any
    calls, with any appends to the shared ledger by its other users in
    between. *)
Inductive Served {host : Host} : RollbackService -> Prop :=
| Served_new (cfg : RollbackConfig) (a : AuditLogService) (hook : bool) :
    Served (newRollbackService cfg a hook)
| Served_call (c : Call) (this : RollbackService) (w : World) :
    Served this -> Served (afterCall c this w)
| Served_ledger (a : AuditLogService) (this : RollbackService) :
    Served this -> Served (setAuditLog a this).

(** A record in a terminal state. *)
Definition terminal (r : Rollback) : Prop :=
  rb_status r = completed \/ rb_status r = failed.

(** What the service keeps true of each stored record and of its counter. *)
Definition recordKept (id : string) (r : Rollback) : Prop :=
  rb_id r = id /\ (is_Some (rb_completedAt r) <-> terminal r).

Definition wellKept (this : RollbackService) : Prop :=
  (forall (id : string) (r : Rollback),
     rollbacks this !! id = Some r -> recordKept id r) /\
  Z.of_nat (size (rollbacks this)) <= rollbackCountLastHour this.

(* ================================================================== *)
(** ** branching.ts: branch names and the branch manager *)
(* ================================================================== *)

(** A string stands for its UTF-8 bytes.  The checks below that look at
    characters outside ASCII (white space, line terminators) read their
    UTF-8 encodings. *)

Inductive BranchType : Type :=
| B_main | B_develop | B_feature | B_hotfix | B_release.

#[global] Instance BranchType_eq_dec : EqDecision BranchType.
Proof. solve_decision. Defined.

Definition branchTypeString (t : BranchType) : string :=
  match t with
  | B_main => "main"
  | B_develop => "develop"
  | B_feature => "feature"
  | B_hotfix => "hotfix"
  | B_release => "release"
  end.

(** [s.includes(sub)] *)
Fixpoint includes (sub s : string) : bool :=
  String.prefix sub s
  || match s with
     | EmptyString => false
     | String _ s' => includes sub s'
     end.

(** [s.endsWith(c)] for a one-character [c]. *)
Fixpoint endsWithChar (c : ascii) (s : string) : bool :=
  match s with
  | EmptyString => false
  | String d EmptyString => bool_decide (d = c)
  | String _ s' => endsWithChar c s'
  end.

(** The bytes [a], [a b] and [a b c] as strings. *)
Definition bytes1 (a : nat) : string := String (ascii_of_nat a) "".
Definition bytes2 (a b : nat) : string :=
  String (ascii_of_nat a) (String (ascii_of_nat b) "").
Definition bytes3 (a b c : nat) : string :=
  String (ascii_of_nat a) (String (ascii_of_nat b) (String (ascii_of_nat c) "")).

(** The line terminators of ECMAScript: LF, CR, U+2028, U+2029. *)
Definition lineTerminators : list string :=
  [ bytes1 10; bytes1 13; bytes3 226 128 168; bytes3 226 128 169 ].

(** The white space of ECMAScript that is not a line terminator: TAB, VT,
    FF, SP, U+00A0, U+1680, U+2000 to U+200A, U+202F, U+205F, U+3000,
    U+FEFF. *)
Definition whiteSpace : list string :=
  [ bytes1 9; bytes1 11; bytes1 12; bytes1 32; bytes2 194 160;
    bytes3 225 154 128;
    bytes3 226 128 128; bytes3 226 128 129; bytes3 226 128 130;
    bytes3 226 128 131; bytes3 226 128 132; bytes3 226 128 133;
    bytes3 226 128 134; bytes3 226 128 135; bytes3 226 128 136;
    bytes3 226 128 137; bytes3 226 128 138;
    bytes3 226 128 175; bytes3 226 129 159; bytes3 227 128 128;
    bytes3 239 187 191 ].

Definition isTrimmed (token : string) : bool :=
  existsb (fun t => bool_decide (t = token)) (whiteSpace ++ lineTerminators).

(** [s.trim() === '']: [s] is made of white space and line terminators
    only. *)
Fixpoint isBlank (s : string) : bool :=
  match s with
  | EmptyString => true
  | String a r1 =>
      if isTrimmed (String a "") then isBlank r1
      else
        match r1 with
        | EmptyString => false
        | String b r2 =>
            if isTrimmed (String a (String b "")) then isBlank r2
            else
              match r2 with
              | EmptyString => false
              | String c r3 =>
                  if isTrimmed (String a (String b (String c "")))
                  then isBlank r3
                  else false
              end
        end
  end.

(** [/^prefix.+$/.test(name)]: [name] is [prefix] followed by at least one
    character, none of them a line terminator. *)
Definition testPrefixPattern (prefix name : string) : bool :=
  String.prefix prefix name
  && let rest := String.substring (String.length prefix)
                   (String.length name - String.length prefix) name in
     negb (bool_decide (rest = ""))
     && negb (existsb (fun t => includes t rest) lineTerminators).

(** [getBranchType(branchName)] *)
Definition getBranchType (branchName : string) : BranchType :=
  if bool_decide (branchName = "main") then B_main
  else if bool_decide (branchName = "develop") then B_develop
  else if testPrefixPattern "feature/" branchName then B_feature
  else if testPrefixPattern "hotfix/" branchName then B_hotfix
  else if testPrefixPattern "release/" branchName then B_release
  else B_feature.

Record NameValidation : Type := {
  name_valid : bool;
  name_error : option string
}.

Definition nameInvalid (error : string) : NameValidation :=
  {| name_valid := false; name_error := Some error |}.

Definition invalidChars : list string :=
  [ " "; "~"; "^"; ":"; "?"; "*"; "["; "\" ].

(** The loop over [invalidChars] in [validateBranchName]: the error for the
    first one that [name] contains. *)
Fixpoint firstInvalidChar (name : string) (chars : list string)
    : option string :=
  match chars with
  | [] => None
  | char :: rest =>
      if includes char name then Some char else firstInvalidChar name rest
  end.

(** [validateBranchName(name)] *)
Definition validateBranchName (name : string) : NameValidation :=
  if isBlank name then nameInvalid "Branch name cannot be empty"
  else if includes ".." name
  then nameInvalid "Branch name cannot contain consecutive dots"
  else if String.prefix "/" name || endsWithChar "/"%char name
  then nameInvalid "Branch name cannot start or end with /"
  else if includes "//" name
  then nameInvalid "Branch name cannot contain consecutive slashes"
  else
    match firstInvalidChar name invalidChars with
    | Some char =>
        nameInvalid ("Branch name cannot contain " ++ dquote ++ char ++ dquote)
    | None =>
        let type := getBranchType name in
        if bool_decide (type = B_main) && negb (bool_decide (name = "main"))
        then nameInvalid
               ("Main branch must be named " ++ dquote ++ "main" ++ dquote)
        else if bool_decide (type = B_develop)
                && negb (bool_decide (name = "develop"))
        then nameInvalid
               ("Develop branch must be named " ++ dquote ++ "develop" ++ dquote)
        else {| name_valid := true; name_error := None |}
    end.

Record Branch : Type := {
  br_name : string;
  br_type : BranchType;
  br_headCommit : option string;      (* [null] is [None] *)
  br_baseBranch : option string;
  br_createdAt : Z;
  br_createdBy : string;
  br_protected : bool;
  br_description : option string
}.

(** A [BranchManager].  Of [this.config] the manager reads only
    [branchProtection], a record from branch names to booleans. *)
Record BranchManager : Type := {
  branches : gmap string Branch;
  branchProtection : list (string * bool);
  branchAuditLog : AuditLogService;
  currentBranch : string
}.

Record BranchDifference : Type := {
  ahead : Z;
  behind : Z
}.

Definition setBranches (m : gmap string Branch) (this : BranchManager)
    : BranchManager :=
  {| branches := m;
     branchProtection := branchProtection this;
     branchAuditLog := branchAuditLog this;
     currentBranch := currentBranch this |}.

Definition setBranchAuditLog (a : AuditLogService) (this : BranchManager)
    : BranchManager :=
  {| branches := branches this;
     branchProtection := branchProtection this;
     branchAuditLog := a;
     currentBranch := currentBranch this |}.

Definition setCurrent (name : string) (this : BranchManager) : BranchManager :=
  {| branches := branches this;
     branchProtection := branchProtection this;
     branchAuditLog := branchAuditLog this;
     currentBranch := name |}.

Definition setHeadCommit (commitId : string) (b : Branch) : Branch :=
  {| br_name := br_name b;
     br_type := br_type b;
     br_headCommit := Some commitId;
     br_baseBranch := br_baseBranch b;
     br_createdAt := br_createdAt b;
     br_createdBy := br_createdBy b;
     br_protected := br_protected b;
     br_description := br_description b |}.

(** A key of an object literal whose value may be [undefined]:
    [JSON.stringify], the only reader of the details of an entry, leaves
    such a key out. *)
Definition optionalKey (key : string) (value : option string) : Details :=
  match value with
  | Some s => [ (key, JString s) ]
  | None => []
  end.

Section Branching.
Context {host : Host}.

(** A call of a method of [this.auditLog]. *)
Definition onBranchAuditLog {A} (m : Eff AuditLogService A)
    : Eff BranchManager A :=
  fun this w =>
    match m (branchAuditLog this) w with
    | (r, a', w') => (r, setBranchAuditLog a' this, w')
    end.

(** [BranchSchema.safeParse(branch).success]: the record type carries every
    check of the schema but the uuid format of a head commit that is not
    [null]. *)
Definition BranchSchema_safeParse (b : Branch) : bool :=
  match br_headCommit b with
  | Some c => isUuid c
  | None => true
  end.

(** [new BranchManager(config, auditLog)], with
    [initializeDefaultBranches()]. *)
Definition newBranchManager (protection : list (string * bool))
    (a : AuditLogService) (w : World) : BranchManager * World :=
  let mainBranch :=
    {| br_name := "main";
       br_type := B_main;
       br_headCommit := None;
       br_baseBranch := None;
       br_createdAt := clock w (clockReads w);
       br_createdBy := "system";
       br_protected := true;
       br_description := Some "Production-stable branch" |} in
  let developBranch :=
    {| br_name := "develop";
       br_type := B_develop;
       br_headCommit := None;
       br_baseBranch := None;
       br_createdAt := clock w (S (clockReads w));
       br_createdBy := "system";
       br_protected := false;
       br_description := Some "Integration branch for development" |} in
  ({| branches := <["develop" := developBranch]> (<["main" := mainBranch]> ∅);
      branchProtection := protection;
      branchAuditLog := a;
      currentBranch := "main" |},
   afterClockRead (afterClockRead w)).

(** [getDefaultBaseBranch(type)] *)
Definition getDefaultBaseBranch (type : BranchType) : string :=
  match type with
  | B_feature => "develop"
  | B_hotfix => "main"
  | B_main => "main"
  | B_develop => "main"
  | _ => "develop"
  end.

(** [canPushToProtected(branchName, user)] *)
Definition canPushToProtected (branchName user : string) : bool := true.

Definition alreadyExistsMessage (name : string) : string :=
  "Branch " ++ dquote ++ name ++ dquote ++ " already exists".

Definition doesNotExistMessage (name : string) : string :=
  "Branch " ++ dquote ++ name ++ dquote ++ " does not exist".

(** [createBranch(name, createdBy, baseBranch, description)] *)
Definition createBranch (name createdBy : string)
    (baseBranch description : option string) : Eff BranchManager Branch :=
  (let validation := validateBranchName name in
   if negb (name_valid validation)
   then throw ("Invalid branch name: "
               ++ match name_error validation with
                  | Some e => e
                  | None => "undefined"
                  end)
   else
     this <- get ;;
     if bool_decide (is_Some (branches this !! name))
     then throw (alreadyExistsMessage name)
     else
       let type := getBranchType name in
       let base :=
         match truthyString baseBranch with
         | Some b => b
         | None => getDefaultBaseBranch type
         end in
       let headCommit :=
         match branches this !! base with
         | Some baseBranchObj => truthyString (br_headCommit baseBranchObj)
         | None => None
         end in
       let protectedBranches :=
         "main" :: "develop" :: map fst (branchProtection this) in
       let isProtected :=
         existsb (fun p => bool_decide (p = name)) protectedBranches in
       createdAt <- Date_now ;;
       let branch :=
         {| br_name := name;
            br_type := type;
            br_headCommit := headCommit;
            br_baseBranch := Some base;
            br_createdAt := createdAt;
            br_createdBy := createdBy;
            br_protected := isProtected;
            br_description := description |} in
       if negb (BranchSchema_safeParse branch)
       then throw ("Invalid branch data: " ++ zodMessage)
       else
         modify (fun this => setBranches (<[name := branch]> (branches this)) this) ;;;
         onBranchAuditLog (log
           {| entry_action := "BRANCH_CREATED";
              entry_actor := createdBy;
              entry_target := name;
              entry_targetType := T_branch;
              entry_details := Some
                ([ ("baseBranch", JString base);
                   ("type", JString (branchTypeString type)) ]
                 ++ optionalKey "description" description)%list;
              entry_ipAddress := None;
              entry_userAgent := None |}) ;;;
         ret branch)%eff.

(** [deleteBranch(name, deletedBy)] *)
Definition deleteBranch (name deletedBy : string) : Eff BranchManager unit :=
  (this <- get ;;
   match branches this !! name with
   | None => throw (doesNotExistMessage name)
   | Some branch =>
       if br_protected branch
       then throw ("Cannot delete protected branch "
                   ++ dquote ++ name ++ dquote)
       else
         modify (fun this => setBranches (delete name (branches this)) this) ;;;
         onBranchAuditLog (log
           {| entry_action := "BRANCH_DELETED";
              entry_actor := deletedBy;
              entry_target := name;
              entry_targetType := T_branch;
              entry_details := Some [];
              entry_ipAddress := None;
              entry_userAgent := None |}) ;;;
         ret tt
   end)%eff.

(** [getBranch(name)] *)
Definition getBranch (name : string) (this : BranchManager) : option Branch :=
  branches this !! name.

(** [updateHeadCommit(branchName, commitId, updatedBy)] *)
Definition updateHeadCommit (branchName commitId updatedBy : string)
    : Eff BranchManager unit :=
  (this <- get ;;
   match branches this !! branchName with
   | None => throw (doesNotExistMessage branchName)
   | Some branch =>
       if br_protected branch && negb (canPushToProtected branchName updatedBy)
       then throw ("Cannot push to protected branch "
                   ++ dquote ++ branchName ++ dquote ++ " without approval")
       else
         modify (fun this =>
           setBranches (alter (setHeadCommit commitId) branchName
                          (branches this)) this) ;;;
         onBranchAuditLog (log
           {| entry_action := "BRANCH_UPDATED";
              entry_actor := updatedBy;
              entry_target := branchName;
              entry_targetType := T_branch;
              entry_details := Some [ ("newHeadCommit", JString commitId) ];
              entry_ipAddress := None;
              entry_userAgent := None |}) ;;;
         ret tt
   end)%eff.

(** [getCurrentBranch()] *)
Definition getCurrentBranch (this : BranchManager) : string :=
  currentBranch this.

(** [setCurrentBranch(name)] *)
Definition setCurrentBranch (name : string) : Eff BranchManager unit :=
  (this <- get ;;
   if negb (bool_decide (is_Some (branches this !! name)))
   then throw (doesNotExistMessage name)
   else modify (setCurrent name))%eff.

(** [branch.headCommit ? 1 : 0] *)
Definition headCount (b : Branch) : Z :=
  match truthyString (br_headCommit b) with
  | Some _ => 1
  | None => 0
  end.

(** [getBranchDifference(sourceBranch, targetBranch)] *)
Definition getBranchDifference (sourceBranch targetBranch : string)
    : Eff BranchManager BranchDifference :=
  (this <- get ;;
   match branches this !! sourceBranch, branches this !! targetBranch with
   | Some source, Some target =>
       let sourceHead := headCount source in
       let targetHead := headCount target in
       ret {| ahead := Z.max 0 (sourceHead - targetHead);
              behind := Z.max 0 (targetHead - sourceHead) |}
   | _, _ => throw "One or both branches not found"
   end)%eff.

End Branching.

(** The calls that change a branch manager. *)
Inductive BranchCall : Type :=
| CallCreateBranch (name createdBy : string)
    (baseBranch description : option string)
| CallDeleteBranch (name deletedBy : string)
| CallUpdateHeadCommit (branchName commitId updatedBy : string)
| CallSetCurrentBranch (name : string).

(** The manager after a call, whether it returned or threw. *)
Definition afterBranchCall {host : Host} (c : BranchCall)
    (this : BranchManager) (w : World) : BranchManager :=
  match c with
  | CallCreateBranch name createdBy baseBranch description =>
      stateAfter (createBranch name createdBy baseBranch description this w)
  | CallDeleteBranch name deletedBy =>
      stateAfter (deleteBranch name deletedBy this w)
  | CallUpdateHeadCommit branchName commitId updatedBy =>
      stateAfter (updateHeadCommit branchName commitId updatedBy this w)
  | CallSetCurrentBranch name =>
      stateAfter (setCurrentBranch name this w)
  end.

(** The managers a program can hold: a new one, then any calls, at any
    readings of the clock and of the generator, while the other services
    write to the shared ledger. *)
Inductive Managed {host : Host} : BranchManager -> Prop :=
| Managed_new (protection : list (string * bool)) (a : AuditLogService)
    (w : World) :
    Managed (fst (newBranchManager protection a w))
| Managed_call (c : BranchCall) (this : BranchManager) (w : World) :
    Managed this -> Managed (afterBranchCall c this w)
| Managed_ledger (a : AuditLogService) (this : BranchManager) :
    Managed this -> Managed (setBranchAuditLog a this).

(** The base branch [createBranch] records for [name]. *)
Definition baseOf (name : string) (baseBranch : option string) : string :=
  match truthyString baseBranch with
  | Some b => b
  | None => getDefaultBaseBranch (getBranchType name)
  end.

(** The head commit [createBranch] copies from the base branch. *)
Definition headOf (base : string) (this : BranchManager) : option string :=
  match branches this !! base with
  | Some baseBranchObj => truthyString (br_headCommit baseBranchObj)
  | None => None
  end.

(* ================================================================== *)
(** ** fda-compliance: pull requests and design control gates *)
(* ================================================================== *)

Inductive PullRequestStatus : Type :=
| pr_open | pr_merged | pr_closed | pr_draft.

#[global] Instance PullRequestStatus_eq_dec : EqDecision PullRequestStatus.
Proof. solve_decision. Defined.

Record Approval : Type := {
  ap_reviewer : string;
  ap_approvedAt : Z;
  ap_signature : string
}.

Record PullRequest : Type := {
  pr_id : string;
  pr_title : string;
  pr_description : string;
  pr_sourceBranch : string;
  pr_targetBranch : string;
  pr_status : PullRequestStatus;
  pr_author : string;
  pr_reviewers : list string;
  pr_approvals : list Approval;
  pr_createdAt : Z;
  pr_updatedAt : Z;
  pr_mergedAt : option Z;
  pr_linkedIssues : list string;
  pr_linkedRiskAssessments : list string
}.

Record PullRequestParams : Type := {
  prp_title : string;
  prp_description : string;
  prp_sourceBranch : string;
  prp_targetBranch : string;
  prp_author : string;
  prp_reviewers : option (list string);
  prp_linkedIssues : option (list string);
  prp_linkedRiskAssessments : option (list string)
}.

Inductive GateStatus : Type :=
| gate_pending | gate_approved | gate_rejected.

#[global] Instance GateStatus_eq_dec : EqDecision GateStatus.
Proof. solve_decision. Defined.

Record DesignControlGate : Type := {
  gate_id : string;
  gate_name : string;
  gate_description : string;
  gate_required : bool;
  gate_approvals : list string;
  gate_status : GateStatus;
  gate_approvedBy : option string;
  gate_approvedAt : option Z;
  gate_notes : option string
}.

(** The pull requests, the gates and the ledger of an
    [FDAComplianceService]; the methods below read and write no other field
    of it. *)
Record FDAComplianceService : Type := {
  pullRequests : gmap string PullRequest;
  designControlGates : gmap string DesignControlGate;
  fdaAuditLog : AuditLogService
}.

Definition setPullRequests (m : gmap string PullRequest)
    (this : FDAComplianceService) : FDAComplianceService :=
  {| pullRequests := m;
     designControlGates := designControlGates this;
     fdaAuditLog := fdaAuditLog this |}.

Definition setDesignControlGates (m : gmap string DesignControlGate)
    (this : FDAComplianceService) : FDAComplianceService :=
  {| pullRequests := pullRequests this;
     designControlGates := m;
     fdaAuditLog := fdaAuditLog this |}.

Definition setFdaAuditLog (a : AuditLogService)
    (this : FDAComplianceService) : FDAComplianceService :=
  {| pullRequests := pullRequests this;
     designControlGates := designControlGates this;
     fdaAuditLog := a |}.

(** [pr.approvals.push(approval); pr.updatedAt = updatedAt] *)
Definition pushApproval (approval : Approval) (updatedAt : Z)
    (pr : PullRequest) : PullRequest :=
  {| pr_id := pr_id pr;
     pr_title := pr_title pr;
     pr_description := pr_description pr;
     pr_sourceBranch := pr_sourceBranch pr;
     pr_targetBranch := pr_targetBranch pr;
     pr_status := pr_status pr;
     pr_author := pr_author pr;
     pr_reviewers := pr_reviewers pr;
     pr_approvals := (pr_approvals pr ++ [approval])%list;
     pr_createdAt := pr_createdAt pr;
     pr_updatedAt := updatedAt;
     pr_mergedAt := pr_mergedAt pr;
     pr_linkedIssues := pr_linkedIssues pr;
     pr_linkedRiskAssessments := pr_linkedRiskAssessments pr |}.

(** [pr.status = 'merged'; pr.mergedAt = mergedAt; pr.updatedAt = updatedAt] *)
Definition markMerged (mergedAt updatedAt : Z) (pr : PullRequest)
    : PullRequest :=
  {| pr_id := pr_id pr;
     pr_title := pr_title pr;
     pr_description := pr_description pr;
     pr_sourceBranch := pr_sourceBranch pr;
     pr_targetBranch := pr_targetBranch pr;
     pr_status := pr_merged;
     pr_author := pr_author pr;
     pr_reviewers := pr_reviewers pr;
     pr_approvals := pr_approvals pr;
     pr_createdAt := pr_createdAt pr;
     pr_updatedAt := updatedAt;
     pr_mergedAt := Some mergedAt;
     pr_linkedIssues := pr_linkedIssues pr;
     pr_linkedRiskAssessments := pr_linkedRiskAssessments pr |}.

(** The four assignments of [approveGate]. *)
Definition markApproved (approvedBy : string) (approvedAt : Z)
    (notes : option string) (gate : DesignControlGate) : DesignControlGate :=
  {| gate_id := gate_id gate;
     gate_name := gate_name gate;
     gate_description := gate_description gate;
     gate_required := gate_required gate;
     gate_approvals := gate_approvals gate;
     gate_status := gate_approved;
     gate_approvedBy := Some approvedBy;
     gate_approvedAt := Some approvedAt;
     gate_notes := notes |}.

Definition defaultGate (id name description : string) : DesignControlGate :=
  {| gate_id := id;
     gate_name := name;
     gate_description := description;
     gate_required := true;
     gate_approvals := [];
     gate_status := gate_pending;
     gate_approvedBy := None;
     gate_approvedAt := None;
     gate_notes := None |}.

Definition defaultGates : list DesignControlGate :=
  [ defaultGate "gate-1" "Concept Approval"
      "Initial concept and requirement definition approved";
    defaultGate "gate-2" "Design Review"
      "System design and architecture reviewed";
    defaultGate "gate-3" "Implementation Review"
      "Implementation completed and reviewed";
    defaultGate "gate-4" "Validation Approval"
      "Validation testing completed and approved";
    defaultGate "gate-5" "Release Approval"
      "Release to production approved" ].

Definition prNotFoundMessage (prId : string) : string :=
  "Pull request " ++ dquote ++ prId ++ dquote ++ " not found".

Section Compliance.
Context {host : Host}.

(** A call of a method of [this.auditLog]. *)
Definition onFdaAuditLog {A} (m : Eff AuditLogService A)
    : Eff FDAComplianceService A :=
  fun this w =>
    match m (fdaAuditLog this) w with
    | (r, a', w') => (r, setFdaAuditLog a' this, w')
    end.

(** [new FDAComplianceService(auditLog)], with [initializeDefaultGates()]. *)
Definition newFDAComplianceService (a : AuditLogService)
    : FDAComplianceService :=
  {| pullRequests := ∅;
     designControlGates :=
       fold_left (fun m gate => <[gate_id gate := gate]> m) defaultGates ∅;
     fdaAuditLog := a |}.

(** [PullRequestSchema.safeParse(pr).success]: the record type carries every
    check of the schema but the uuid formats. *)
Definition PullRequestSchema_safeParse (pr : PullRequest) : bool :=
  isUuid (pr_id pr) && forallb isUuid (pr_linkedRiskAssessments pr).

(** [array || []] *)
Definition orEmptyArray (array : option (list string)) : list string :=
  match array with
  | Some l => l
  | None => []
  end.

(** [createPullRequest(params)] *)
Definition createPullRequest (params : PullRequestParams)
    : Eff FDAComplianceService PullRequest :=
  (id <- uuidv4 ;;
   createdAt <- Date_now ;;
   updatedAt <- Date_now ;;
   let pr :=
     {| pr_id := id;
        pr_title := prp_title params;
        pr_description := prp_description params;
        pr_sourceBranch := prp_sourceBranch params;
        pr_targetBranch := prp_targetBranch params;
        pr_status := pr_open;
        pr_author := prp_author params;
        pr_reviewers := orEmptyArray (prp_reviewers params);
        pr_approvals := [];
        pr_createdAt := createdAt;
        pr_updatedAt := updatedAt;
        pr_mergedAt := None;
        pr_linkedIssues := orEmptyArray (prp_linkedIssues params);
        pr_linkedRiskAssessments :=
          orEmptyArray (prp_linkedRiskAssessments params) |} in
   if negb (PullRequestSchema_safeParse pr)
   then throw ("Invalid pull request: " ++ zodMessage)
   else
     modify (fun this =>
       setPullRequests (<[pr_id pr := pr]> (pullRequests this)) this) ;;;
     onFdaAuditLog (log
       {| entry_action := "PR_CREATED";
          entry_actor := prp_author params;
          entry_target := pr_id pr;
          entry_targetType := T_branch;
          entry_details := Some
            [ ("sourceBranch", JString (prp_sourceBranch params));
              ("targetBranch", JString (prp_targetBranch params)) ];
          entry_ipAddress := None;
          entry_userAgent := None |}) ;;;
     ret pr)%eff.

(** [approvePullRequest(prId, reviewer, signature)] *)
Definition approvePullRequest (prId reviewer signature : string)
    : Eff FDAComplianceService PullRequest :=
  (this <- get ;;
   match pullRequests this !! prId with
   | None => throw (prNotFoundMessage prId)
   | Some pr =>
       if negb (bool_decide (pr_status pr = pr_open))
       then throw "Pull request is not open"
       else
         approvedAt <- Date_now ;;
         updatedAt <- Date_now ;;
         let approval :=
           {| ap_reviewer := reviewer;
              ap_approvedAt := approvedAt;
              ap_signature := signature |} in
         modify (fun this =>
           setPullRequests
             (alter (pushApproval approval updatedAt) prId (pullRequests this))
             this) ;;;
         onFdaAuditLog (log
           {| entry_action := "PR_APPROVED";
              entry_actor := reviewer;
              entry_target := prId;
              entry_targetType := T_branch;
              entry_details := Some [ ("reviewer", JString reviewer) ];
              entry_ipAddress := None;
              entry_userAgent := None |}) ;;;
         ret (pushApproval approval updatedAt pr)
   end)%eff.

(** [mergePullRequest(prId, mergedBy)] *)
Definition mergePullRequest (prId mergedBy : string)
    : Eff FDAComplianceService PullRequest :=
  (this <- get ;;
   match pullRequests this !! prId with
   | None => throw (prNotFoundMessage prId)
   | Some pr =>
       if negb (bool_decide (pr_status pr = pr_open))
       then throw "Pull request is not open"
       else
         mergedAt <- Date_now ;;
         updatedAt <- Date_now ;;
         modify (fun this =>
           setPullRequests
             (alter (markMerged mergedAt updatedAt) prId (pullRequests this))
             this) ;;;
         onFdaAuditLog (log
           {| entry_action := "PR_MERGED";
              entry_actor := mergedBy;
              entry_target := prId;
              entry_targetType := T_branch;
              entry_details := Some
                [ ("sourceBranch", JString (pr_sourceBranch pr));
                  ("targetBranch", JString (pr_targetBranch pr)) ];
              entry_ipAddress := None;
              entry_userAgent := None |}) ;;;
         ret (markMerged mergedAt updatedAt pr)
   end)%eff.

(** [hasRequiredApprovals(prId, minApprovals = 1)] *)
Definition hasRequiredApprovals (prId : string) (minApprovals : option Q)
    (this : FDAComplianceService) : bool :=
  match pullRequests this !! prId with
  | None => false
  | Some pr =>
      Qle_bool (match minApprovals with Some m => m | None => 1%Q end)
               (inject_Z (Z.of_nat (length (pr_approvals pr))))
  end.

(** [approveGate(gateId, approvedBy, notes)] *)
Definition approveGate (gateId approvedBy : string) (notes : option string)
    : Eff FDAComplianceService DesignControlGate :=
  (this <- get ;;
   match designControlGates this !! gateId with
   | None => throw ("Gate " ++ dquote ++ gateId ++ dquote ++ " not found")
   | Some gate =>
       approvedAt <- Date_now ;;
       modify (fun this =>
         setDesignControlGates
           (alter (markApproved approvedBy approvedAt notes) gateId
              (designControlGates this))
           this) ;;;
       onFdaAuditLog (log
         {| entry_action := "DESIGN_GATE_APPROVED";
            entry_actor := approvedBy;
            entry_target := gateId;
            entry_targetType := T_artifact;
            entry_details := Some
              ([ ("gateName", JString (gate_name gate)) ]
               ++ optionalKey "notes" notes)%list;
            entry_ipAddress := None;
            entry_userAgent := None |}) ;;;
       ret (markApproved approvedBy approvedAt notes gate)
   end)%eff.

(** [areAllGatesApproved()]: the values of the map, in whatever order the
    map holds them; [every] does not depend on it. *)
Definition areAllGatesApproved (this : FDAComplianceService) : bool :=
  forallb (fun g => bool_decide (gate_status g = gate_approved))
    (List.filter gate_required (map_to_list (designControlGates this)).*2).

End Compliance.

(** The calls that change the pull requests and the gates. *)
Inductive ComplianceCall : Type :=
| CallCreatePullRequest (params : PullRequestParams)
| CallApprovePullRequest (prId reviewer signature : string)
| CallMergePullRequest (prId mergedBy : string)
| CallApproveGate (gateId approvedBy : string) (notes : option string).

(** The service after a call, whether it returned or threw. *)
Definition afterComplianceCall {host : Host} (c : ComplianceCall)
    (this : FDAComplianceService) (w : World) : FDAComplianceService :=
  match c with
  | CallCreatePullRequest params => stateAfter (createPullRequest params this w)
  | CallApprovePullRequest prId reviewer signature =>
      stateAfter (approvePullRequest prId reviewer signature this w)
  | CallMergePullRequest prId mergedBy =>
      stateAfter (mergePullRequest prId mergedBy this w)
  | CallApproveGate gateId approvedBy notes =>
      stateAfter (approveGate gateId approvedBy notes this w)
  end.

(* ================================================================== *)
(** ** Further notions the properties speak about *)
(* ================================================================== *)

(** Newest first: [b] does not come after [a] in time. *)
Definition newestFirst (a b : AuditLog) : Prop :=
  log_timestamp b <= log_timestamp a.

(** The comparison function of [getLogs]. *)
Definition byTimestampDescending (a b : AuditLog) : Z :=
  log_timestamp b - log_timestamp a.

(** The query [{target, targetType}]. *)
Definition targetQuery (target targetType : string) : LogQuery :=
  {| q_actor := None; q_action := None; q_target := Some target;
     q_targetType := Some targetType; q_startDate := None; q_endDate := None;
     q_limit := None; q_offset := None |}.

(** Storage corruption: the actor of a stored entry overwritten. *)
Definition withActor (a : string) (e : AuditLog) : AuditLog :=
  {| log_id := log_id e; log_action := log_action e;
     log_actor := a; log_target := log_target e;
     log_targetType := log_targetType e; log_timestamp := log_timestamp e;
     log_details := log_details e; log_hash := log_hash e;
     log_previousHash := log_previousHash e;
     log_ipAddress := log_ipAddress e; log_userAgent := log_userAgent e |}.

(** The fields of the service that no transition call assigns. *)
Definition sameCounters (this this' : RollbackService) : Prop :=
  rollbackConfig this' = rollbackConfig this /\
  lastRollbackTime this' = lastRollbackTime this /\
  rollbackCountLastHour this' = rollbackCountLastHour this /\
  onRollbackTriggered this' = onRollbackTriggered this /\
  hookCalls this' = hookCalls this.

(** An audit entry about the rollback [rollbackId]. *)
Definition auditsRollback (a : AuditLog) (action actor rollbackId : string)
    : Prop :=
  log_action a = action /\
  log_actor a = actor /\
  log_target a = rollbackId /\
  log_targetType a = T_rollback.

(** The invariant of the stored branches. *)
Definition branchesKept (m : gmap string Branch) : Prop :=
  (exists b, m !! "main" = Some b /\ br_protected b = true) /\
  forall name b, m !! name = Some b ->
    br_name b = name /\ br_type b = getBranchType name.

(* ================================================================== *)
(** ** Further ledgers and runs *)
(* ================================================================== *)

Module Samples.
Import Demo.

(** A stored entry with the separator of the digest in its action. *)
Definition piped : AuditLog := seal None (draft (uuidOf 0) "DELETE|root" 2000).

(** The appends CREATE and UPDATE to a ledger whose retention period is
    300000 years. *)
Definition longRetention : AuditLogService * World :=
  let fresh :=
    newAuditLogService {| retentionYears := 300000 |}
      (world [1000; 2000; 3000; 4000]) in
  logAll [entry "CREATE" "alice" T_artifact; entry "UPDATE" "alice" T_artifact]
    (fst fresh) (snd fresh).

(** A request for a rollback to a commit whose id is no uuid. *)
Definition malformed : InitiateParams :=
  {| p_targetVersion := "1.2.3";
     p_trigger := manual;
     p_triggerReason := manual_request;
     p_initiatedBy := "oncall";
     p_description := None;
     p_targetCommitId := Some "c0ffee" |}.

(** A manual rollback left pending. *)
Definition request : InitiateParams :=
  {| p_targetVersion := "1.2.3";
     p_trigger := manual;
     p_triggerReason := manual_request;
     p_initiatedBy := "oncall";
     p_description := None;
     p_targetCommitId := None |}.

Definition requested : (Error + Rollback) * RollbackService * World :=
  initiateRollback request (fst governor0) (snd governor0).

(** A rollback service whose clock ticks between the readings: the ledger
    is made at 1000, then the clock shows [t0], a second later, two seconds
    later and so on. *)
Definition tickingGovernor : RollbackService * World :=
  let fresh :=
    newAuditLogService retention
      (world [1000; t0; t0 + 1000; t0 + 2000; t0 + 3000]) in
  (newRollbackService limits (fst fresh) false, snd fresh).

Definition ticking : (Error + Rollback) * RollbackService * World :=
  emergencyRollback "oncall" "1.2.3" "bad deploy"
    (fst tickingGovernor) (snd tickingGovernor).

(** A branch manager over the fresh ledger; the configuration maps the
    name 'staging' to [false]. *)
Definition manager0 : BranchManager * World :=
  newBranchManager [("staging", false)] (fst ledger0) (snd ledger0).

(** The branch 'staging', from a base that does not exist. *)
Definition staging : (Error + Branch) * BranchManager * World :=
  createBranch "staging" "alice" (Some "trunk") None
    (fst manager0) (snd manager0).

(** A feature branch, then made the current branch. *)
Definition feature : (Error + Branch) * BranchManager * World :=
  createBranch "feature/login" "alice" None None (fst manager0) (snd manager0).

Definition checkedOut : BranchManager :=
  stateAfter (setCurrentBranch "feature/login" (stateAfter feature)
                (snd feature)).

(** A compliance service over the fresh ledger, a pull request by alice
    and its merge. *)
Definition compliance0 : FDAComplianceService :=
  newFDAComplianceService (fst ledger0).

Definition proposal : PullRequestParams :=
  {| prp_title := "Login";
     prp_description := "Adds the login flow";
     prp_sourceBranch := "feature/login";
     prp_targetBranch := "main";
     prp_author := "alice";
     prp_reviewers := Some ["bob"];
     prp_linkedIssues := None;
     prp_linkedRiskAssessments := None |}.

Definition opened : (Error + PullRequest) * FDAComplianceService * World :=
  createPullRequest proposal compliance0 (snd ledger0).

Definition merged : (Error + PullRequest) * FDAComplianceService * World :=
  mergePullRequest (uuidOf 0) "alice" (stateAfter opened) (snd opened).

(** The service after the five default gates have been approved. *)
Definition allApproved : FDAComplianceService * World :=
  fold_left
    (fun sw gateId =>
       let outcome := approveGate gateId "qa" None (fst sw) (snd sw) in
       (stateAfter outcome, snd outcome))
    ["gate-1"; "gate-2"; "gate-3"; "gate-4"; "gate-5"]
    (compliance0, snd ledger0).

End Samples.

(* ================================================================== *)
(** ** Properties of the ledger *)
(* ================================================================== *)

Ltac run_eff :=
  unfold bind, ret, throw, get, modify, Date_now, uuidv4 in *; simpl in *.

Section LedgerFacts.
Context {host : Host}.

(** What a call of [log] that returns has done. *)
Lemma log_returns (entry : AuditLogEntry) (this this' : AuditLogService)
    (w w' : World) (a : AuditLog) :
  log entry this w = (inr a, this', w') ->
  logs this' = (logs this ++ [a])%list /\
  config this' = config this /\
  lastHash this' = log_hash a /\
  log_previousHash a = Some (lastHash this) /\
  log_hash a = createAuditHash (logDataOf a) (log_previousHash a).
Proof.
  unfold log. run_eff.
  destruct (AuditLogSchema_safeParse _) eqn:Hparse; simpl; [| discriminate].
  intros H. injection H as <- <- <-. simpl. auto.
Qed.

(** A call of [log] that throws leaves the ledger as it was. *)
Lemma log_throws (entry : AuditLogEntry) (this this' : AuditLogService)
    (w w' : World) (e : Error) :
  log entry this w = (inl e, this', w') -> this' = this.
Proof.
  unfold log. run_eff.
  destruct (AuditLogSchema_safeParse _); simpl; [discriminate |].
  intros H. by injection H as _ <- _.
Qed.

(** Every entry [log] stores carries a string in [previousHash]. *)
Lemma Appended_previousHash (this : AuditLogService) (n : nat) :
  Appended this n ->
  length (logs this) = n /\
  Forall (fun e => is_Some (log_previousHash e)) (logs this).
Proof.
  induction 1 as [cfg w | this n entry w a this' w' _ [IHlen IHall] Hlog].
  - split; [reflexivity | constructor].
  - apply log_returns in Hlog as (Hlogs & _ & _ & Hprev & _).
    rewrite Hlogs. split.
    + rewrite length_app. simpl. lia.
    + apply Forall_app. split; [assumption |].
      constructor; [| constructor]. rewrite Hprev. eauto.
Qed.

(** The ledger the constructor makes is accepted. *)
Lemma verifyIntegrity_accepts_fresh_ledger (this : AuditLogService) :
  Appended this 0 -> verifyIntegrity this = intact.
Proof.
  intros H. apply Appended_previousHash in H as [Hlen _].
  unfold verifyIntegrity. by destruct (logs this).
Qed.

(** In a ledger made by [log], [lastHash] is the hash of the last entry and
    every entry names the hash of the entry before it. *)
Lemma Appended_linked (this : AuditLogService) (n : nat) :
  Appended this n ->
  (forall e, last (logs this) = Some e -> lastHash this = log_hash e) /\
  (forall i e1 e2,
     logs this !! i = Some e1 -> logs this !! S i = Some e2 ->
     log_previousHash e2 = Some (log_hash e1)).
Proof.
  induction 1 as [cfg w | this n entry w a this' w' _ [IHlast IHlink] Hlog].
  - split; [intros e He; discriminate | intros i e1 e2 H; discriminate].
  - apply log_returns in Hlog as (Hlogs & _ & Htail & Hprev & _).
    rewrite Hlogs. split.
    + intros e He. rewrite last_snoc in He. congruence.
    + intros i e1 e2 H1 H2.
      destruct (decide (S i < length (logs this))%nat) as [Hlt | Hge].
      * rewrite lookup_app_l in H1 by lia.
        rewrite lookup_app_l in H2 by lia. eauto.
      * pose proof (lookup_lt_Some _ _ _ H2) as Hlen.
        rewrite length_app in Hlen. simpl in Hlen.
        assert (Hi : S i = length (logs this)) by lia.
        rewrite lookup_app_l in H1 by lia.
        rewrite lookup_app_r in H2 by lia.
        replace (S i - length (logs this))%nat with 0%nat in H2 by lia.
        injection H2 as <-.
        rewrite Hprev. f_equal. apply IHlast.
        rewrite last_lookup. rewrite <- Hi. simpl. exact H1.
Qed.

(** The walk stops at a first entry that carries a [previousHash]. *)
Lemma verifyFrom_head_linked (i : nat) (e : AuditLog) (rest : list AuditLog) :
  is_Some (log_previousHash e) ->
  verifyFrom i None (e :: rest) = broken i.
Proof.
  intros [h Hh]. simpl. rewrite Hh.
  rewrite bool_decide_eq_false_2 by discriminate. reflexivity.
Qed.

(** One step of the walk. *)
Lemma verifyFrom_cons (i : nat) (expected : option string) (e : AuditLog)
    (rest : list AuditLog) :
  verifyFrom i expected (e :: rest) =
  if entryPasses expected e
  then verifyFrom (S i) (Some (log_hash e)) rest
  else broken i.
Proof.
  unfold entryPasses. simpl.
  destruct (bool_decide (log_previousHash e = expected)); simpl; [| reflexivity].
  destruct (bool_decide (log_hash e = _)); reflexivity.
Qed.

Lemma expectedAfter_cons (expected : option string) (e : AuditLog)
    (l : list AuditLog) :
  expectedAfter expected (e :: l) = expectedAfter (Some (log_hash e)) l.
Proof.
  unfold expectedAfter. rewrite last_cons.
  destruct (last l); reflexivity.
Qed.

(** The walk over a ledger cut in two. *)
Lemma verifyFrom_app (l1 l2 : list AuditLog) :
  forall (i : nat) (expected : option string),
  verifyFrom i expected l1 = intact ->
  verifyFrom i expected (l1 ++ l2) =
  verifyFrom (i + length l1) (expectedAfter expected l1) l2.
Proof.
  induction l1 as [| e l1 IH]; intros i expected Hpre.
  - simpl. by rewrite Nat.add_0_r.
  - rewrite <- app_comm_cons, verifyFrom_cons.
    rewrite verifyFrom_cons in Hpre.
    destruct (entryPasses expected e); [| discriminate].
    rewrite IH by assumption.
    rewrite expectedAfter_cons. simpl. f_equal. lia.
Qed.

Lemma verifyFrom_app_intact (l1 l2 : list AuditLog) :
  forall (i : nat) (expected : option string),
  verifyFrom i expected (l1 ++ l2) = intact ->
  verifyFrom i expected l1 = intact.
Proof.
  induction l1 as [| e l1 IH]; intros i expected H; [reflexivity |].
  rewrite <- app_comm_cons, verifyFrom_cons in H. rewrite verifyFrom_cons.
  destruct (entryPasses expected e); [eauto | discriminate].
Qed.

(** The walk reads nothing but the hashed content and the two hashes. *)
Lemma verifyFrom_sameChainView (l l' : list AuditLog) :
  Forall2 sameChainView l l' ->
  forall (i : nat) (expected : option string),
  verifyFrom i expected l' = verifyFrom i expected l.
Proof.
  induction 1
    as [| e e' l l' (Hid & Hac & Hat & Hta & Hts & Hde & Hh & Hp) _ IH];
    intros i expected; [reflexivity |].
  simpl. unfold logDataOf.
  rewrite Hid, Hac, Hat, Hta, Hts, Hde, Hh, Hp, IH. reflexivity.
Qed.

Lemma sameChainView_refl (e : AuditLog) : sameChainView e e.
Proof. unfold sameChainView. tauto. Qed.

(** Replacing the entry at [k]. *)
Lemma insert_split (l : list AuditLog) (k : nat) (e e' : AuditLog) :
  l !! k = Some e ->
  l = (take k l ++ e :: drop (S k) l)%list /\
  <[k := e']> l = (take k l ++ e' :: drop (S k) l)%list /\
  length (take k l) = k.
Proof.
  intros Hk. pose proof (lookup_lt_Some _ _ _ Hk) as Hlt.
  split; [| split].
  - symmetry. by apply take_drop_middle.
  - by apply insert_take_drop.
  - rewrite length_take. lia.
Qed.

(** [archiveOldLogs] always returns; it keeps [config] and [lastHash] and
    stores nothing but the entries it retains. *)
Lemma archiveOldLogs_runs (this : AuditLogService) (w : World) :
  let cutoffDate :=
    setFullYearBack (clock w (clockReads w)) (retentionYears (config this)) in
  let toArchive :=
    List.filter (fun l => isBefore (log_timestamp l) cutoffDate) (logs this) in
  let toRetain :=
    List.filter (fun l => isNotBefore (log_timestamp l) cutoffDate)
      (logs this) in
  archiveOldLogs this w =
    (inr {| archived := length toArchive; retained := length toRetain |},
     stored (config this) (lastHash this) toRetain, afterClockRead w).
Proof. reflexivity. Qed.

(** With a valid cutoff the two filters of [archiveOldLogs] split the
    ledger. *)
Lemma filter_complement_length (cutoff : Z) (l : list AuditLog) :
  (length (List.filter (fun e => isBefore (log_timestamp e) (Some cutoff)) l)
   + length (List.filter
               (fun e => isNotBefore (log_timestamp e) (Some cutoff)) l))%nat
  = length l.
Proof.
  induction l as [| e l IH]; [reflexivity |].
  cbn [List.filter isBefore isNotBefore] in *.
  destruct (Z.ltb_spec (log_timestamp e) cutoff);
    destruct (Z.leb_spec cutoff (log_timestamp e));
    cbn [length] in *; lia.
Qed.

(** With an Invalid Date as cutoff both filters are empty. *)
Lemma filter_invalid_date (l : list AuditLog) :
  List.filter (fun e => isBefore (log_timestamp e) None) l = [] /\
  List.filter (fun e => isNotBefore (log_timestamp e) None) l = [].
Proof. induction l as [| e l [IH1 IH2]]; simpl; auto. Qed.

End LedgerFacts.

Section TextFacts.

Lemma string_app_cons (x : ascii) (a b : string) :
  String x a ++ b = String x (a ++ b).
Proof. reflexivity. Qed.

Lemma string_app_assoc (a b c : string) : (a ++ b) ++ c = a ++ (b ++ c).
Proof.
  induction a as [| x a IH]; [reflexivity |].
  by rewrite !string_app_cons, IH.
Qed.

Lemma string_app_nil_r (a : string) : a ++ "" = a.
Proof.
  induction a as [| x a IH]; [reflexivity |].
  by rewrite string_app_cons, IH.
Qed.

(** Splitting reads through a piece that holds no separator. *)
Lemma splitFrom_app (sep : ascii) (s t : string) :
  forall current : string,
  hasChar sep s = false ->
  splitFrom sep current (s ++ t) = splitFrom sep (current ++ s) t.
Proof.
  induction s as [| c s IH]; intros current Hs.
  - change ("" ++ t) with t. by rewrite string_app_nil_r.
  - simpl in Hs. apply orb_false_elim in Hs as [Hc Hs].
    rewrite string_app_cons. simpl.
    rewrite Hc, IH by assumption.
    by rewrite string_app_assoc.
Qed.

Lemma splitFrom_sep (sep : ascii) (current rest : string) :
  splitFrom sep current (String sep rest) = current :: splitFrom sep "" rest.
Proof. simpl. by rewrite bool_decide_eq_true_2. Qed.

(** Joining pieces with a separator they do not hold, then splitting,
    gives the pieces back. *)
Lemma splitFrom_concat (sep : ascii) (l : list string) :
  forall (current x : string),
  Forall (fun f => hasChar sep f = false) (x :: l) ->
  splitFrom sep current (String.concat (String sep "") (x :: l))
  = (current ++ x) :: l.
Proof.
  induction l as [| y l IH]; intros current x Hall.
  - simpl. inversion Hall as [| ? ? Hx _]; subst.
    rewrite <- (string_app_nil_r x) at 1.
    by rewrite splitFrom_app.
  - inversion Hall as [| ? ? Hx Hrest]; subst.
    change (String.concat (String sep "") (x :: y :: l))
      with (x ++ String sep (String.concat (String sep "") (y :: l))).
    rewrite splitFrom_app, splitFrom_sep by assumption.
    by rewrite IH.
Qed.

Lemma hasChar_app (c : ascii) (a b : string) :
  hasChar c (a ++ b) = hasChar c a || hasChar c b.
Proof.
  induction a as [| x a IH]; [reflexivity |].
  rewrite string_app_cons. simpl. by rewrite IH, orb_assoc.
Qed.

Lemma hasChar_concat (c : ascii) (sep : string) (l : list string) :
  hasChar c sep = false ->
  Forall (fun f => hasChar c f = false) l ->
  hasChar c (String.concat sep l) = false.
Proof.
  intros Hsep. induction 1 as [| x l Hx Hl IH]; [reflexivity |].
  destruct l as [| y l]; [exact Hx |].
  change (String.concat sep (x :: y :: l))
    with (x ++ sep ++ String.concat sep (y :: l)).
  by rewrite !hasChar_app, Hx, Hsep, IH.
Qed.

End TextFacts.

Section QueryFacts.

Lemma slice_whole {A} (l : list A) : slice 0 (0 + Z.of_nat (length l)) l = l.
Proof.
  unfold slice. rewrite Z.add_0_l.
  change (0 <? 0) with false. cbv beta iota zeta.
  destruct (Z.ltb_spec (Z.of_nat (length l)) 0) as [Hneg | _]; [lia |].
  rewrite Z.min_id, Z.min_l, Z.sub_0_r, Nat2Z.id by lia.
  change (Z.to_nat 0) with 0%nat. rewrite drop_0. apply firstn_all.
Qed.

Lemma insertSorted_Permutation {A} (compare : A -> A -> Z) (x : A)
    (l : list A) :
  insertSorted compare x l ≡ₚ x :: l.
Proof.
  induction l as [| y l IH]; simpl; [reflexivity |].
  destruct (compare x y <=? 0); [reflexivity |].
  rewrite IH. apply Permutation_swap.
Qed.

(** Sorting keeps the entries. *)
Lemma sortBy_Permutation {A} (compare : A -> A -> Z) (l : list A) :
  sortBy compare l ≡ₚ l.
Proof.
  induction l as [| x l IH]; simpl; [reflexivity |].
  unfold sortBy in *. simpl. by rewrite insertSorted_Permutation, IH.
Qed.

Lemma filterWhen_filter {B} (cond : option B) (p : B -> AuditLog -> bool)
    (q : AuditLog -> bool) (l : list AuditLog) :
  filterWhen cond p (List.filter q l)
  = List.filter (fun e => q e && passes cond p e) l.
Proof.
  destruct cond as [b |]; simpl.
  - induction l as [| e l IH]; simpl; [reflexivity |].
    destruct (q e); simpl; [| exact IH].
    destruct (p b e); simpl; by rewrite IH.
  - apply filter_ext. intros e. by rewrite andb_true_r.
Qed.

Lemma filterWhen_first {B} (cond : option B) (p : B -> AuditLog -> bool)
    (l : list AuditLog) :
  filterWhen cond p l = List.filter (passes cond p) l.
Proof.
  destruct cond as [b |]; simpl; [reflexivity |].
  induction l as [| e l IH]; simpl; [reflexivity | by rewrite <- IH].
Qed.

(** The successive filters of [getLogs] keep the entries that meet all of
    them. *)
Lemma matchingLogs_Permutation (o : LogQuery) (this : AuditLogService) :
  matchingLogs (Some o) this ≡ₚ List.filter (matchesQuery o) (logs this).
Proof.
  unfold matchingLogs. cbv zeta beta. rewrite sortBy_Permutation.
  rewrite (filterWhen_first _ _ (logs this)).
  rewrite !filterWhen_filter. reflexivity.
Qed.

End QueryFacts.

(* ================================================================== *)
(** ** Properties of the rollback service *)
(* ================================================================== *)

Section GovernorFacts.
Context {host : Host}.

Lemma Qlt_bool_true (a b : Q) : Qlt_bool a b = true <-> (a < b)%Q.
Proof.
  unfold Qlt_bool. rewrite negb_true_iff, <- not_true_iff_false, Qle_bool_iff.
  split; [apply Qnot_le_lt | apply Qlt_not_le].
Qed.

Lemma Qlt_bool_false (a b : Q) : Qlt_bool a b = false <-> ~ (a < b)%Q.
Proof. rewrite <- Qlt_bool_true. symmetry. apply not_true_iff_false. Qed.

(** What a call of [initiateRollback] that returns has done. *)
Lemma initiateRollback_returns (params : InitiateParams)
    (this this' : RollbackService) (w w' : World) (r : Rollback) :
  initiateRollback params this w = (inr r, this', w') ->
  r = newRollback params this w /\
  RollbackSchema_safeParse r = true /\
  rollbacks this' = <[rb_id r := r]> (rollbacks this) /\
  rollbackConfig this' = rollbackConfig this /\
  lastRollbackTime this' = clock w (S (clockReads w)) /\
  rollbackCountLastHour this' = rollbackCountLastHour this + 1.
Proof.
  unfold initiateRollback, onAuditLog. run_eff.
  fold (newRollback params this w).
  destruct (RollbackSchema_safeParse (newRollback params this w)) eqn:Hparse;
    simpl; [| discriminate].
  destruct (log _ _ _) as [[[e | a] al'] w1]; simpl; [discriminate |].
  destruct (onRollbackTriggered this); simpl;
    intros H; injection H as <- <- <-; simpl; auto 10.
Qed.

(** The audit entry of a call of [initiateRollback] that returns, and the
    calls of the callback. *)
Lemma initiateRollback_audited (params : InitiateParams)
    (this this' : RollbackService) (w w' : World) (r : Rollback) :
  initiateRollback params this w = (inr r, this', w') ->
  (exists a : AuditLog,
     logs (auditLog this') = (logs (auditLog this) ++ [a])%list /\
     log_action a = "ROLLBACK_INITIATED" /\
     log_actor a = p_initiatedBy params /\
     log_target a = rb_id r /\
     log_targetType a = T_rollback /\
     log_details a
     = [ ("targetVersion", JString (p_targetVersion params));
         ("trigger", JString (triggerString (p_trigger params)));
         ("reason", JString (reasonString (p_triggerReason params))) ]) /\
  hookCalls this'
  = (if onRollbackTriggered this then hookCalls this ++ [r]
     else hookCalls this)%list.
Proof.
  unfold initiateRollback, onAuditLog. run_eff.
  fold (newRollback params this w).
  destruct (RollbackSchema_safeParse (newRollback params this w)) eqn:Hparse;
    simpl; [| discriminate].
  destruct (log _ _ _) as [[[e | a] al'] w1] eqn:Hlog; simpl; [discriminate |].
  pose proof (log_returns _ _ _ _ _ _ Hlog) as (Hlogs & _).
  assert (Hfields :
    log_action a = "ROLLBACK_INITIATED" /\
    log_actor a = p_initiatedBy params /\
    log_target a = rb_id (newRollback params this w) /\
    log_targetType a = T_rollback /\
    log_details a
    = [ ("targetVersion", JString (p_targetVersion params));
        ("trigger", JString (triggerString (p_trigger params)));
        ("reason", JString (reasonString (p_triggerReason params))) ]).
  { revert Hlog. unfold log. run_eff.
    destruct (negb (AuditLogSchema_safeParse _)); simpl; [discriminate |].
    intros H. injection H as <- _ _. simpl. auto. }
  destruct (onRollbackTriggered this); simpl;
    intros H; injection H as <- <- <-; simpl; (split; [eauto | reflexivity]).
Qed.

(** A call of [checkAndTriggerRollback] that returns a record went through
    both gates and called [initiateRollback] for the reason picked. *)
Lemma checkAndTriggerRollback_created (metrics : RollbackMetrics)
    (this this' : RollbackService) (w w' : World) (r : Rollback) :
  checkAndTriggerRollback metrics this w = (inr (Some r), this', w') ->
  exists reason : TriggerReason,
    triggerReasonFor (rollbackConfig this) metrics = Some reason /\
    initiateRollback (automatedParams reason) this (afterClockRead w)
    = (inr r, this', w').
Proof.
  unfold checkAndTriggerRollback. run_eff.
  fold (triggerReasonFor (rollbackConfig this) metrics).
  destruct (Qlt_bool _ (cooldownSeconds _)); simpl; [discriminate |].
  destruct (Qle_bool _ _); simpl; [discriminate |].
  destruct (triggerReasonFor _ _) as [reason |]; simpl; [| discriminate].
  fold (automatedParams reason).
  destruct (initiateRollback _ _ _) as [[[e | r'] this1] w1] eqn:Hinit; simpl;
    [discriminate |].
  intros H. injection H as <- <- <-. eauto.
Qed.


(** A call of [checkAndTriggerRollback] stopped by the rate gate: nothing
    but the clock reading happens. *)
Lemma checkAndTriggerRollback_capped (metrics : RollbackMetrics)
    (this : RollbackService) (w : World) :
  (maxRollbacksPerHour (rollbackConfig this)
   <= inject_Z (rollbackCountLastHour this))%Q ->
  checkAndTriggerRollback metrics this w = (inr None, this, afterClockRead w).
Proof.
  intros Hcap. apply Qle_bool_iff in Hcap.
  unfold checkAndTriggerRollback. run_eff. rewrite Hcap.
  by destruct (Qlt_bool _ _).
Qed.

(** The status of a stored record after [failRollback] and after
    [completeRollback], whether or not the audit entry could be written. *)
Lemma failRollback_status (this : RollbackService) (w : World)
    (rollbackId error : string) (r : Rollback) :
  rollbacks this !! rollbackId = Some r ->
  rb_status <$> rollbacks (stateAfter (failRollback rollbackId error this w))
                !! rollbackId
  = Some failed.
Proof.
  intros Hsome. unfold failRollback, updateRollback, onAuditLog, stateAfter.
  run_eff. rewrite Hsome. simpl.
  destruct (log _ _ _) as [[[e | a] al'] w1]; simpl;
    rewrite !lookup_alter_eq, Hsome; reflexivity.
Qed.

Lemma completeRollback_status (this : RollbackService) (w : World)
    (rollbackId : string) (affectedArtifacts : list string) (r : Rollback) :
  rollbacks this !! rollbackId = Some r ->
  rb_status <$> rollbacks (stateAfter
                  (completeRollback rollbackId affectedArtifacts this w))
                !! rollbackId
  = Some completed.
Proof.
  intros Hsome. unfold completeRollback, updateRollback, onAuditLog, stateAfter.
  run_eff. rewrite Hsome. simpl.
  destruct (log _ _ _) as [[[e | a] al'] w1]; simpl;
    rewrite !lookup_alter_eq, Hsome; reflexivity.
Qed.

Lemma pendingNotRestored_refl (m : gmap string Rollback) :
  pendingNotRestored m m.
Proof. intros id r Hr Hs. eauto. Qed.

Lemma pendingNotRestored_alter (m m' : gmap string Rollback)
    (f : Rollback -> Rollback) (rollbackId : string) :
  (forall x, rb_status x <> pending -> rb_status (f x) <> pending) ->
  pendingNotRestored m m' ->
  pendingNotRestored m (alter f rollbackId m').
Proof.
  intros Hf Hm id r Hr Hs.
  destruct (Hm id r Hr Hs) as (r' & Hr' & Hs').
  destruct (decide (rollbackId = id)) as [-> | Hne].
  - exists (f r'). rewrite lookup_alter_eq, Hr'. split; [reflexivity | auto].
  - exists r'. by rewrite lookup_alter_ne.
Qed.

Ltac settle_transition :=
  repeat (apply pendingNotRestored_alter; [by intros x Hx |]);
  apply pendingNotRestored_refl.

(** None of the four transition calls moves a record back into [pending],
    whether the call returns or throws. *)
Lemma transitions_never_restore_pending (this : RollbackService) (w : World)
    (rollbackId : string) :
  pendingNotRestored (rollbacks this)
    (rollbacks (stateAfter (executeRollback rollbackId this w))) /\
  (forall affectedArtifacts : list string,
     pendingNotRestored (rollbacks this)
       (rollbacks (stateAfter
          (completeRollback rollbackId affectedArtifacts this w)))) /\
  (forall error : string,
     pendingNotRestored (rollbacks this)
       (rollbacks (stateAfter (failRollback rollbackId error this w)))) /\
  (forall cancelledBy : string,
     pendingNotRestored (rollbacks this)
       (rollbacks (stateAfter (cancelRollback rollbackId cancelledBy this w)))).
Proof.
  unfold executeRollback, completeRollback, failRollback, cancelRollback,
    updateRollback, onAuditLog, stateAfter.
  run_eff.
  destruct (rollbacks this !! rollbackId) as [r |]; simpl.
  - destruct (bool_decide (rb_status r = pending)); simpl;
      repeat split; intros;
      repeat match goal with
             | |- context [log ?e ?a ?w] =>
                 destruct (log e a w) as [[[? | ?] ?] ?]; simpl
             end;
      settle_transition.
  - repeat split; intros; apply pendingNotRestored_refl.
Qed.

End GovernorFacts.

(* ================================================================== *)
(** ** The properties of the specification *)
(* ================================================================== *)

Import Demo.

(** The demonstration ledgers are made by the constructor and [log]. *)
Lemma ledger2_Appended : Appended (fst Demo.ledger2) 2.
Proof.
  eapply (Appended_log (fst Demo.ledger1) 1
            (Demo.entry "UPDATE" "alice" T_artifact) (snd Demo.ledger1)).
  - eapply (Appended_log (fst Demo.ledger0) 0
              (Demo.entry "CREATE" "alice" T_artifact) (snd Demo.ledger0)).
    + apply Appended_fresh.
    + vm_compute; reflexivity.
  - vm_compute; reflexivity.
Defined.

Lemma agedLedger_Appended : Appended (fst Demo.agedLedger) 2.
Proof.
  pose (fresh := newAuditLogService Demo.retention
                   (Demo.world [1000; 2000; 40000000000; 40000000001])).
  pose (one := Demo.logAll [Demo.entry "CREATE" "alice" T_artifact]
                 (fst fresh) (snd fresh)).
  eapply (Appended_log (fst one) 1
            (Demo.entry "UPDATE" "alice" T_artifact) (snd one)).
  - eapply (Appended_log (fst fresh) 0
              (Demo.entry "CREATE" "alice" T_artifact) (snd fresh)).
    + apply Appended_fresh.
    + vm_compute; reflexivity.
  - vm_compute; reflexivity.
Defined.

Section LedgerProperties.
Context {host : Host}.

(** C1 (chain validity).  The specification asks that [verifyIntegrity()]
    return [{valid: true}] on every ledger made by appends alone.  The code
    does not: the walk expects [undefined] as the [previousHash] of the first
    entry, and [log] stores the genesis hash there.  On every ledger made by
    the constructor and at least one call of [log], [verifyIntegrity()]
    returns [{valid: false, brokenAt: 0}]. *)
Theorem verifyIntegrity_rejects_appended_ledger (this : AuditLogService)
    (n : nat) :
  Appended this (S n) ->
  verifyIntegrity this = broken 0.
Proof.
  intros H. apply Appended_previousHash in H as [Hlen Hall].
  unfold verifyIntegrity.
  destruct (logs this) as [| e rest]; [discriminate |].
  apply verifyFrom_head_linked. by inversion Hall.
Qed.

(** C2 (tamper detection), amended.  In a stored ledger whose entries up to
    and including index [k] pass the walk, any replacement of entry [k] that
    changes its [previousHash], or whose stored [hash] is not the digest of
    its own (id, action, actor, target, timestamp, details, previousHash),
    makes [verifyIntegrity()] return [{valid: false, brokenAt: k}]; so does
    overwriting [previousHash] or [hash] alone with another value.  A
    replacement that differs only in fields outside the digest (targetType,
    ipAddress, userAgent) leaves the result of [verifyIntegrity()] as it
    was. *)
Theorem tampering_reported (cfg : RepositoryConfig) (tail : string)
    (l : list AuditLog) (k : nat) (e : AuditLog) :
  l !! k = Some e ->
  verifyFrom 0 None (take (S k) l) = intact ->
  (forall e' : AuditLog,
     log_previousHash e' <> log_previousHash e \/
     log_hash e' <> createAuditHash (logDataOf e') (log_previousHash e') ->
     verifyIntegrity (stored cfg tail (<[k := e']> l)) = broken k) /\
  (forall p : option string,
     p <> log_previousHash e ->
     verifyIntegrity (stored cfg tail (<[k := withPreviousHash p e]> l))
     = broken k) /\
  (forall h : string,
     h <> log_hash e ->
     verifyIntegrity (stored cfg tail (<[k := withHash h e]> l)) = broken k) /\
  (forall e' : AuditLog,
     sameChainView e e' ->
     verifyIntegrity (stored cfg tail (<[k := e']> l))
     = verifyIntegrity (stored cfg tail l)).
Proof.
  intros Hk Hpre.
  destruct (insert_split l k e e Hk) as (Hl & _ & Hlen).
  assert (Htake : take (S k) l = (take k l ++ [e])%list)
    by (by apply take_S_r).
  rewrite Htake in Hpre.
  pose proof (verifyFrom_app_intact _ _ _ _ Hpre) as Hbefore.
  rewrite (verifyFrom_app _ _ _ _ Hbefore), verifyFrom_cons in Hpre.
  destruct (entryPasses _ e) eqn:He; [| discriminate].
  apply andb_prop in He as [Hlink Hhash].
  apply bool_decide_eq_true_1 in Hlink, Hhash.
  assert (Hany : forall e' : AuditLog,
    log_previousHash e' <> log_previousHash e \/
    log_hash e' <> createAuditHash (logDataOf e') (log_previousHash e') ->
    verifyIntegrity (stored cfg tail (<[k := e']> l)) = broken k).
  { intros e' Hbad.
    destruct (insert_split l k e e' Hk) as (_ & -> & _).
    unfold verifyIntegrity, stored; simpl.
    rewrite (verifyFrom_app _ _ _ _ Hbefore), Hlen, verifyFrom_cons.
    unfold entryPasses.
    destruct Hbad as [Hp | Hh].
    - rewrite (bool_decide_eq_false_2 (log_previousHash e' = _));
        [reflexivity |].
      congruence.
    - rewrite (bool_decide_eq_false_2 (log_hash e' = _)) by assumption.
      by rewrite andb_false_r. }
  split; [exact Hany |]. split; [| split].
  - intros p Hp. apply Hany. left. exact Hp.
  - intros h Hh. apply Hany. right. simpl.
    change (logDataOf (withHash h e)) with (logDataOf e). congruence.
  - intros e' Hview. unfold verifyIntegrity, stored; simpl.
    apply verifyFrom_sameChainView.
    destruct (insert_split l k e e' Hk) as (_ & -> & _).
    rewrite Hl at 1.
    apply Forall2_app;
      [apply Forall_Forall2_diag, Forall_forall; intros;
       apply sameChainView_refl |].
    constructor; [exact Hview |].
    apply Forall_Forall2_diag, Forall_forall; intros; apply sameChainView_refl.
Qed.

(** C3 (pruning), amended.  [archiveOldLogs()] keeps no archive and no
    boundary hash: the service is left with the retained entries, its
    [config] and its [lastHash].  When it removes a non-empty prefix of a
    ledger made by appends and retains at least one entry, the counts it
    returns are the sizes of the two parts, the first retained entry still
    names the hash of the last removed entry, and [verifyIntegrity()] on the
    retained ledger returns [{valid: false, brokenAt: 0}]. *)
Theorem pruned_ledger_fails_verification (this this' : AuditLogService)
    (n : nat) (w w' : World) (r : ArchiveResult)
    (pruned kept : list AuditLog) :
  Appended this n ->
  logs this = (pruned ++ kept)%list ->
  pruned <> [] ->
  kept <> [] ->
  archiveOldLogs this w = (inr r, this', w') ->
  logs this' = kept ->
  this' = stored (config this) (lastHash this) kept /\
  archived r = length pruned /\
  retained r = length kept /\
  (exists boundary first : AuditLog,
     last pruned = Some boundary /\
     head kept = Some first /\
     log_previousHash first = Some (log_hash boundary)) /\
  verifyIntegrity this' = broken 0.
Proof.
  intros Happ Hsplit Hpruned Hkept Hrun Hlogs.
  pose proof (archiveOldLogs_runs this w) as Hdef. simpl in Hdef.
  rewrite Hdef in Hrun. injection Hrun as <- <- <-.
  simpl in Hlogs.
  destruct (setFullYearBack (clock w (clockReads w))
              (retentionYears (config this))) as [cutoff |];
    [| destruct (filter_invalid_date (logs this)) as [_ Hnone]; congruence].
  pose proof (filter_complement_length cutoff (logs this)) as Hcount.
  rewrite Hlogs in Hcount. rewrite Hlogs. simpl. simpl in Hcount.
  assert (Hboundary : exists boundary first : AuditLog,
     last pruned = Some boundary /\ head kept = Some first /\
     log_previousHash first = Some (log_hash boundary)).
  { destruct kept as [| first kept']; [done |].
    destruct (last pruned) as [boundary |] eqn:Hlast;
      [| by apply last_None in Hlast].
    exists boundary, first. repeat split.
    apply Appended_linked in Happ as [_ Hlink].
    apply last_Some in Hlast as [pre ->].
    apply (Hlink (length pre)); rewrite Hsplit.
    - rewrite <- app_assoc. simpl. by apply list_lookup_middle.
    - apply list_lookup_middle. rewrite length_app. simpl. lia. }
  repeat split.
  - assert (Hlen : length (logs this) = (length pruned + length kept)%nat)
      by (by rewrite Hsplit, length_app).
    lia.
  - exact Hboundary.
  - destruct Hboundary as (boundary & first & _ & Hhead & Hprev).
    destruct kept as [| first' kept']; [done |]. injection Hhead as ->.
    unfold verifyIntegrity, stored; simpl logs.
    apply verifyFrom_head_linked. rewrite Hprev. eauto.
Qed.

(** C8 (CSV export), amended.  The CSV export joins the fields of a row with
    commas and the rows with line feeds, without quoting or escaping any
    field.  For a ledger whose exported fields hold no line feed, the lines
    of the output are the fixed header (id, action, actor, target,
    targetType, timestamp, hash, previousHash) followed by one row per entry
    in ledger order: N + 1 lines for N entries. *)
Theorem csv_export_joins_fields_unescaped (this : AuditLogService) :
  Forall (fun l => Forall (fun f => hasChar "010"%char f = false) (csvRow l))
    (logs this) ->
  lines (exportForCompliance csv this)
  = "id,action,actor,target,targetType,timestamp,hash,previousHash"
    :: map (fun l => String.concat "," (csvRow l)) (logs this) /\
  length (lines (exportForCompliance csv this)) = S (length (logs this)).
Proof.
  intros Hfields.
  assert (Hlines : lines (exportForCompliance csv this)
    = "id,action,actor,target,targetType,timestamp,hash,previousHash"
      :: map (fun l => String.concat "," (csvRow l)) (logs this)).
  { unfold lines, exportForCompliance, newline.
    rewrite splitFrom_concat.
    - simpl. by rewrite map_map.
    - constructor; [reflexivity |].
      rewrite map_map. apply Forall_map.
      eapply Forall_impl; [exact Hfields |].
      intros l Hl. by apply hasChar_concat. }
  split; [exact Hlines |].
  rewrite Hlines. simpl. by rewrite length_map.
Qed.

(** C10 (limit of zero).  In [getLogs], a limit of 0 is treated as no
    limit: the result is that of the same query without a limit; with no
    offset either (or an offset of 0, treated the same way), it is the whole
    sorted list of matches, which holds exactly the entries of the ledger
    that meet every filter given. *)
Theorem getLogs_limit_zero_is_no_limit (this : AuditLogService)
    (o : LogQuery) :
  getLogs (Some (withLimit (Some 0) o)) this
  = getLogs (Some (withLimit None o)) this /\
  getLogs (Some (withOffset None (withLimit (Some 0) o))) this
  = matchingLogs (Some o) this /\
  getLogs (Some (withOffset (Some 0) (withLimit (Some 0) o))) this
  = matchingLogs (Some o) this /\
  getLogs (Some (withOffset None (withLimit (Some 0) o))) this
  ≡ₚ List.filter (matchesQuery o) (logs this).
Proof.
  assert (Hwhole : getLogs (Some (withOffset None (withLimit (Some 0) o))) this
                   = matchingLogs (Some o) this).
  { unfold getLogs. simpl.
    change (matchingLogs (Some (withOffset None (withLimit (Some 0) o))) this)
      with (matchingLogs (Some o) this).
    apply slice_whole. }
  split; [reflexivity |]. split; [exact Hwhole |]. split; [exact Hwhole |].
  rewrite Hwhole. apply matchingLogs_Permutation.
Qed.

End LedgerProperties.

Section GovernorProperties.
Context {host : Host}.

(** C4 (hourly rate limit).  The specification asks for a sliding window:
    once an hour has passed since the counted rollbacks, a qualifying sample
    creates a record again.  The code counts rollbacks in a field that no
    method ever decreases or resets.  Once the count has reached
    [maxRollbacksPerHour], every later call of [checkAndTriggerRollback]
    returns no record and changes nothing but the clock reading, whatever
    the clock shows and whatever the metrics are. *)
Theorem rate_cap_never_lifts (samples : list RollbackMetrics)
    (this : RollbackService) (w : World) :
  (maxRollbacksPerHour (rollbackConfig this)
   <= inject_Z (rollbackCountLastHour this))%Q ->
  evaluateAll samples this w
  = (map (fun _ => None) samples, this, afterClockReads (length samples) w).
Proof.
  intros Hcap. revert w.
  induction samples as [| m rest IH]; intros w; [reflexivity |].
  simpl. rewrite checkAndTriggerRollback_capped by assumption.
  by rewrite IH.
Qed.

(** C5 (terminal states).  The specification asks that no operation change
    the status of a record that is completed or failed.  [failRollback] and
    [completeRollback] check only that the record exists: called on a
    terminal record, [failRollback] leaves it failed and [completeRollback]
    leaves it completed, so a completed record becomes failed and a failed
    record becomes completed. *)
Theorem terminal_status_overwritten (this : RollbackService) (w : World)
    (rollbackId : string) (r : Rollback) :
  rollbacks this !! rollbackId = Some r ->
  rb_status r = completed \/ rb_status r = failed ->
  (forall error : string,
     rb_status <$> rollbacks (stateAfter (failRollback rollbackId error this w))
                   !! rollbackId
     = Some failed) /\
  (forall affectedArtifacts : list string,
     rb_status <$> rollbacks (stateAfter
                     (completeRollback rollbackId affectedArtifacts this w))
                   !! rollbackId
     = Some completed).
Proof.
  intros Hsome _. split.
  - intros error. by eapply failRollback_status.
  - intros affectedArtifacts. by eapply completeRollback_status.
Qed.

(** C6 (priority of the triggers).  A record created by
    [checkAndTriggerRollback] has the reason of the first condition that
    holds, in the order safety violations, error rate, response time: when
    the safety violations exceed their threshold the reason is
    safety_violation, whatever the error rate; otherwise, when the error rate
    exceeds its threshold, it is error_rate_spike; otherwise it is
    performance_degradation, and the response time exceeds its threshold.
    The call acts on that first condition only: on a service without a
    callback it leaves the service with this one record added under its id,
    the count raised by one and one entry appended to the ledger, the
    ROLLBACK_INITIATED entry of this record, which names its reason. *)
Theorem trigger_priority (metrics : RollbackMetrics)
    (this this' : RollbackService) (w w' : World) (r : Rollback) :
  checkAndTriggerRollback metrics this w = (inr (Some r), this', w') ->
  let cfg := rollbackConfig this in
  ((safetyViolationThreshold cfg < safetyViolations metrics)%Q ->
   rb_reason r = safety_violation) /\
  (~ (safetyViolationThreshold cfg < safetyViolations metrics)%Q ->
   (errorRateThreshold cfg < errorRate metrics)%Q ->
   rb_reason r = error_rate_spike) /\
  (~ (safetyViolationThreshold cfg < safetyViolations metrics)%Q ->
   ~ (errorRateThreshold cfg < errorRate metrics)%Q ->
   rb_reason r = performance_degradation /\
   (performanceThresholdMs cfg < averageResponseTimeMs metrics)%Q) /\
  (onRollbackTriggered this = false ->
   rollbacks this' = <[rb_id r := r]> (rollbacks this) /\
   rollbackCountLastHour this' = rollbackCountLastHour this + 1 /\
   exists a : AuditLog,
     logs (auditLog this') = (logs (auditLog this) ++ [a])%list /\
     log_action a = "ROLLBACK_INITIATED" /\
     log_target a = rb_id r /\
     log_details a
     = [ ("targetVersion", JString "");
         ("trigger", JString "automated");
         ("reason", JString (reasonString (rb_reason r))) ]).
Proof.
  intros Hrun cfg.
  apply checkAndTriggerRollback_created in Hrun as (reason & Hreason & Hinit).
  pose proof (initiateRollback_audited _ _ _ _ _ _ Hinit) as [Haudit _].
  apply initiateRollback_returns in Hinit as (Hr & _ & Hmap & _ & _ & Hcount).
  assert (Hrr : rb_reason r = reason) by (by rewrite Hr).
  rewrite Hrr. clear Hr.
  unfold triggerReasonFor in Hreason. fold cfg in Hreason.
  split; [| split; [| split]].
  - intros Hsv. apply Qlt_bool_true in Hsv. rewrite Hsv in Hreason. congruence.
  - intros Hsv Her. apply Qlt_bool_false in Hsv. apply Qlt_bool_true in Her.
    rewrite Hsv, Her in Hreason. congruence.
  - intros Hsv Her. apply Qlt_bool_false in Hsv, Her.
    rewrite Hsv, Her in Hreason.
    destruct (Qlt_bool (performanceThresholdMs cfg) _) eqn:Hp; [| discriminate].
    split; [congruence | by apply Qlt_bool_true].
  - intros _. split; [exact Hmap |]. split; [exact Hcount |].
    destruct Haudit as (a & Hlogs & Haction & _ & Htarget & _ & Hdetails).
    exists a. auto.
Qed.

(** C7 (illegal transitions).  For an unknown id, [executeRollback] and
    [cancelRollback] throw the not-found error.  For a stored record whose
    status is not pending (in_progress, completed or failed),
    [executeRollback] throws "Rollback is not in pending status" and
    [cancelRollback] throws "Only pending rollbacks can be cancelled".  In
    every one of these cases the service, the record included, is left as it
    was. *)
Theorem illegal_transitions_rejected (this : RollbackService) (w : World)
    (rollbackId : string) :
  (rollbacks this !! rollbackId = None ->
   executeRollback rollbackId this w
   = (inl (mkError (notFoundMessage rollbackId)), this, w) /\
   forall cancelledBy : string,
     cancelRollback rollbackId cancelledBy this w
     = (inl (mkError (notFoundMessage rollbackId)), this, w)) /\
  (forall r : Rollback,
     rollbacks this !! rollbackId = Some r ->
     rb_status r <> pending ->
     executeRollback rollbackId this w
     = (inl (mkError "Rollback is not in pending status"), this, w) /\
     forall cancelledBy : string,
       cancelRollback rollbackId cancelledBy this w
       = (inl (mkError "Only pending rollbacks can be cancelled"), this, w)).
Proof.
  split.
  - intros Hnone. unfold executeRollback, cancelRollback. run_eff.
    rewrite Hnone. auto.
  - intros r Hsome Hstatus. unfold executeRollback, cancelRollback. run_eff.
    rewrite Hsome. rewrite bool_decide_eq_false_2 by assumption. auto.
Qed.


End GovernorProperties.

(* ================================================================== *)
(** ** The properties on concrete ledgers and runs *)
(* ================================================================== *)

(** C1 on the ledger with the appends CREATE and UPDATE. *)
Lemma verifyIntegrity_rejects_appended_ledger_witness :
  Appended (fst Demo.ledger2) 2 /\
  verifyIntegrity (fst Demo.ledger2) = broken 0.
Proof.
  split; [exact ledger2_Appended |].
  exact (verifyIntegrity_rejects_appended_ledger _ 1 ledger2_Appended).
Defined.

(** C2 as the specification states it fails on the ledger with the appends
    CREATE and UPDATE: after the [targetType] of entry 1 is overwritten,
    [verifyIntegrity()] returns what it returned before, which is not
    [{valid: false, brokenAt: 1}]. *)
Lemma tampering_counterexample :
  Appended (fst Demo.ledger2) 2 /\
  verifyIntegrity (Demo.tamper 1 (withTargetType T_commit) (fst Demo.ledger2))
  = verifyIntegrity (fst Demo.ledger2) /\
  verifyIntegrity (Demo.tamper 1 (withTargetType T_commit) (fst Demo.ledger2))
  <> broken 1.
Proof.
  split; [exact ledger2_Appended |].
  split; [vm_compute; reflexivity | vm_compute; discriminate].
Qed.

(** C2, amended, on a stored ledger of two entries that the walk accepts:
    a changed [hash], a changed [previousHash] and a changed [action] of
    entry 1 are each reported at index 1, a changed [targetType] is not
    reported. *)
Lemma tampering_reported_witness :
  Demo.accepted !! 1%nat = Some Demo.second /\
  verifyFrom 0 None (take 2 Demo.accepted) = intact /\
  verifyIntegrity
    (stored Demo.retention "" (<[1%nat := withHash "0" Demo.second]> Demo.accepted))
  = broken 1 /\
  verifyIntegrity
    (stored Demo.retention ""
       (<[1%nat := withPreviousHash None Demo.second]> Demo.accepted))
  = broken 1 /\
  verifyIntegrity
    (stored Demo.retention ""
       (<[1%nat := withAction "DELETE" Demo.second]> Demo.accepted))
  = broken 1 /\
  verifyIntegrity
    (stored Demo.retention ""
       (<[1%nat := withTargetType T_commit Demo.second]> Demo.accepted))
  = verifyIntegrity (stored Demo.retention "" Demo.accepted).
Proof.
  assert (Hk : Demo.accepted !! 1%nat = Some Demo.second) by reflexivity.
  assert (Hpre : verifyFrom 0 None (take 2 Demo.accepted) = intact)
    by (vm_compute; reflexivity).
  destruct (tampering_reported Demo.retention "" Demo.accepted 1 Demo.second
              Hk Hpre) as (Hany & Hprev & Hhash & Hview).
  split; [exact Hk |]. split; [exact Hpre |].
  split; [apply Hhash; vm_compute; discriminate |].
  split; [apply Hprev; vm_compute; discriminate |].
  split; [apply Hany; right; vm_compute; discriminate |].
  apply Hview. unfold sameChainView. simpl. tauto.
Defined.

(** C3 as the specification states it fails on a ledger whose first entry is
    older than the retention period: pruning returns the counts 1 and 1,
    leaves the service with the one retained entry and nothing else, and
    [verifyIntegrity()] then returns [{valid: false, brokenAt: 0}]. *)
Lemma pruning_counterexample :
  Appended (fst Demo.agedLedger) 2 /\
  fst (fst Demo.prunedLedger) = inr {| archived := 1; retained := 1 |} /\
  stateAfter Demo.prunedLedger
  = stored Demo.retention (lastHash (fst Demo.agedLedger))
      (drop 1 (logs (fst Demo.agedLedger))) /\
  verifyIntegrity (stateAfter Demo.prunedLedger) = broken 0.
Proof.
  split; [exact agedLedger_Appended |].
  repeat split; vm_compute; reflexivity.
Qed.

(** C3, amended, on the same ledger. *)
Lemma pruned_ledger_fails_verification_witness :
  Appended (fst Demo.agedLedger) 2 /\
  logs (fst Demo.agedLedger)
  = (take 1 (logs (fst Demo.agedLedger))
     ++ drop 1 (logs (fst Demo.agedLedger)))%list /\
  take 1 (logs (fst Demo.agedLedger)) <> [] /\
  drop 1 (logs (fst Demo.agedLedger)) <> [] /\
  archiveOldLogs (fst Demo.agedLedger) (snd Demo.agedLedger)
  = (inr {| archived := 1; retained := 1 |},
     stateAfter Demo.prunedLedger, snd Demo.prunedLedger) /\
  logs (stateAfter Demo.prunedLedger) = drop 1 (logs (fst Demo.agedLedger)) /\
  verifyIntegrity (stateAfter Demo.prunedLedger) = broken 0.
Proof.
  assert (Hsplit : logs (fst Demo.agedLedger)
                   = (take 1 (logs (fst Demo.agedLedger))
                      ++ drop 1 (logs (fst Demo.agedLedger)))%list)
    by (symmetry; apply take_drop).
  assert (Hpruned : take 1 (logs (fst Demo.agedLedger)) <> [])
    by (vm_compute; discriminate).
  assert (Hkept : drop 1 (logs (fst Demo.agedLedger)) <> [])
    by (vm_compute; discriminate).
  assert (Hrun : archiveOldLogs (fst Demo.agedLedger) (snd Demo.agedLedger)
                 = (inr {| archived := 1; retained := 1 |},
                    stateAfter Demo.prunedLedger, snd Demo.prunedLedger))
    by (vm_compute; reflexivity).
  assert (Hlogs : logs (stateAfter Demo.prunedLedger)
                  = drop 1 (logs (fst Demo.agedLedger)))
    by (vm_compute; reflexivity).
  repeat (split; [assumption || exact agedLedger_Appended |]).
  exact (proj2 (proj2 (proj2 (proj2
    (pruned_ledger_fails_verification _ _ 2 _ _ _ _ _
       agedLedger_Appended Hsplit Hpruned Hkept Hrun Hlogs))))).
Defined.

(** C8 as the specification states it fails on a ledger whose one entry has
    the actor [Doe, Jane]: the row of the entry splits into nine cells at the
    commas, and the output is not the one with RFC 4180 escaping. *)
Lemma csv_export_counterexample :
  map (fun row => length (splitFrom ","%char "" row))
    (lines (exportForCompliance csv (fst Demo.commaLedger)))
  = [8%nat; 9%nat] /\
  exportForCompliance csv (fst Demo.commaLedger)
  <> exportCsvEscaped (fst Demo.commaLedger).
Proof. split; [vm_compute; reflexivity | vm_compute; discriminate]. Qed.

(** C8, amended, on the ledger with the appends CREATE and UPDATE. *)
Lemma csv_export_joins_fields_unescaped_witness :
  Forall (fun l => Forall (fun f => hasChar "010"%char f = false) (csvRow l))
    (logs (fst Demo.ledger2)) /\
  length (lines (exportForCompliance csv (fst Demo.ledger2))) = 3%nat.
Proof.
  assert (Hfields :
    Forall (fun l => Forall (fun f => hasChar "010"%char f = false) (csvRow l))
      (logs (fst Demo.ledger2))).
  { unfold Demo.ledger2, Demo.logAll, Demo.ledger0; simpl logs.
    repeat (constructor; simpl csvRow);
      repeat (constructor; try (vm_compute; reflexivity)). }
  split; [exact Hfields |].
  exact (proj2 (csv_export_joins_fields_unescaped (fst Demo.ledger2) Hfields)).
Defined.

(** The run of C4: four samples that breach the thresholds, at [t0], ten
    minutes, twenty minutes and three hours later, with a cooldown of 300
    seconds and at most two rollbacks per hour.  The first two create a
    record; the third is suppressed; the fourth, more than an hour after
    both rollbacks and past the cooldown, is suppressed as well. *)
Example rate_limit_run :
  map (fmap rb_reason)
    (fst (fst (evaluateAll [Demo.breach; Demo.breach; Demo.breach; Demo.breach]
                 (fst Demo.governor0) (snd Demo.governor0))))
  = [Some safety_violation; Some safety_violation; None; None] /\
  clock (snd Demo.afterTwo) (S (clockReads (snd Demo.afterTwo)))
  - lastRollbackTime (snd (fst Demo.afterTwo))
  = 3 * 3600000 - 600000.
Proof. split; vm_compute; reflexivity. Qed.

(** C4 on the service after the first two samples of that run. *)
Lemma rate_cap_never_lifts_witness :
  (maxRollbacksPerHour (rollbackConfig (snd (fst Demo.afterTwo)))
   <= inject_Z (rollbackCountLastHour (snd (fst Demo.afterTwo))))%Q /\
  evaluateAll [Demo.breach; Demo.breach]
    (snd (fst Demo.afterTwo)) (snd Demo.afterTwo)
  = ([None; None], snd (fst Demo.afterTwo),
     afterClockReads 2 (snd Demo.afterTwo)).
Proof.
  assert (Hcap :
    (maxRollbacksPerHour (rollbackConfig (snd (fst Demo.afterTwo)))
     <= inject_Z (rollbackCountLastHour (snd (fst Demo.afterTwo))))%Q)
    by (vm_compute; discriminate).
  split; [exact Hcap |].
  exact (rate_cap_never_lifts [Demo.breach; Demo.breach] _ _ Hcap).
Defined.

(** C5 on a manual rollback that was executed and completed: [failRollback]
    then leaves the completed record failed. *)
Lemma terminal_status_overwritten_witness :
  exists r : Rollback,
    rollbacks (stateAfter Demo.completion) !! Demo.uuidOf 0 = Some r /\
    rb_status r = completed /\
    rb_status <$> rollbacks (stateAfter
                    (failRollback (Demo.uuidOf 0) "late"
                       (stateAfter Demo.completion) (snd Demo.completion)))
                  !! Demo.uuidOf 0
    = Some failed.
Proof.
  destruct (rollbacks (stateAfter Demo.completion) !! Demo.uuidOf 0)
    as [r |] eqn:Hk; [| vm_compute in Hk; discriminate].
  assert (Hstatus : rb_status <$> rollbacks (stateAfter Demo.completion)
                                  !! Demo.uuidOf 0 = Some completed)
    by (vm_compute; reflexivity).
  rewrite Hk in Hstatus. injection Hstatus as Hstatus.
  exists r. split; [reflexivity |]. split; [exact Hstatus |].
  exact (proj1 (terminal_status_overwritten _ (snd Demo.completion) _ r Hk
                  (or_introl Hstatus)) "late").
Defined.

(** C6 on the sample of the specification: one safety violation with
    threshold 0 and an error rate of 0.9 with threshold 0.05, on a service
    without a callback. *)
Lemma trigger_priority_witness :
  exists (r : Rollback) (this' : RollbackService) (w' : World),
    checkAndTriggerRollback Demo.breach (fst Demo.governor0) (snd Demo.governor0)
    = (inr (Some r), this', w') /\
    (safetyViolationThreshold (rollbackConfig (fst Demo.governor0))
     < safetyViolations Demo.breach)%Q /\
    (errorRateThreshold (rollbackConfig (fst Demo.governor0))
     < errorRate Demo.breach)%Q /\
    rb_reason r = safety_violation /\
    onRollbackTriggered (fst Demo.governor0) = false /\
    rollbacks this' = <[rb_id r := r]> (rollbacks (fst Demo.governor0)) /\
    rollbackCountLastHour this' = 1 /\
    exists a : AuditLog,
      logs (auditLog this') = (logs (auditLog (fst Demo.governor0)) ++ [a])%list /\
      log_details a
      = [ ("targetVersion", JString "");
          ("trigger", JString "automated");
          ("reason", JString "safety_violation") ].
Proof.
  destruct (checkAndTriggerRollback Demo.breach (fst Demo.governor0)
              (snd Demo.governor0)) as [[[e | [r |]] this'] w'] eqn:Hrun;
    [vm_compute in Hrun; discriminate | | vm_compute in Hrun; discriminate].
  assert (Hsv : (safetyViolationThreshold (rollbackConfig (fst Demo.governor0))
                 < safetyViolations Demo.breach)%Q)
    by (vm_compute; reflexivity).
  pose proof (trigger_priority _ _ _ _ _ _ Hrun) as Hpriority.
  cbv zeta in Hpriority.
  destruct Hpriority as (Hfirst & _ & _ & Hstate).
  destruct (Hstate eq_refl) as (Hmap & Hcount & a & Hlogs & _ & _ & Hdetails).
  exists r, this', w'. split; [reflexivity |]. split; [exact Hsv |].
  split; [vm_compute; reflexivity |].
  split; [exact (Hfirst Hsv) |]. split; [reflexivity |].
  split; [exact Hmap |]. split; [rewrite Hcount; reflexivity |].
  exists a. split; [exact Hlogs |].
  rewrite Hdetails, (Hfirst Hsv). reflexivity.
Defined.

(** C7 on an unknown id, on a record in progress and on a completed
    record. *)
Lemma illegal_transitions_rejected_witness :
  rollbacks (fst Demo.governor0) !! "missing" = None /\
  executeRollback "missing" (fst Demo.governor0) (snd Demo.governor0)
  = (inl (mkError (notFoundMessage "missing")),
     fst Demo.governor0, snd Demo.governor0) /\
  rb_status <$> rollbacks (stateAfter Demo.emergency) !! Demo.uuidOf 0
  = Some in_progress /\
  executeRollback (Demo.uuidOf 0) (stateAfter Demo.emergency) (snd Demo.emergency)
  = (inl (mkError "Rollback is not in pending status"),
     stateAfter Demo.emergency, snd Demo.emergency) /\
  rb_status <$> rollbacks (stateAfter Demo.completion) !! Demo.uuidOf 0
  = Some completed /\
  cancelRollback (Demo.uuidOf 0) "bob" (stateAfter Demo.completion)
    (snd Demo.completion)
  = (inl (mkError "Only pending rollbacks can be cancelled"),
     stateAfter Demo.completion, snd Demo.completion).
Proof.
  assert (Hnone : rollbacks (fst Demo.governor0) !! "missing" = None)
    by (vm_compute; reflexivity).
  assert (Hprogress :
    rb_status <$> rollbacks (stateAfter Demo.emergency) !! Demo.uuidOf 0
    = Some in_progress) by (vm_compute; reflexivity).
  assert (Hcompleted :
    rb_status <$> rollbacks (stateAfter Demo.completion) !! Demo.uuidOf 0
    = Some completed) by (vm_compute; reflexivity).
  split; [exact Hnone |].
  split; [exact (proj1 (proj1 (illegal_transitions_rejected
                   (fst Demo.governor0) (snd Demo.governor0) "missing") Hnone)) |].
  split; [exact Hprogress |].
  split.
  { destruct (rollbacks (stateAfter Demo.emergency) !! Demo.uuidOf 0)
      as [r |] eqn:Hk; [| discriminate].
    injection Hprogress as Hprogress.
    apply (proj2 (illegal_transitions_rejected (stateAfter Demo.emergency)
                    (snd Demo.emergency) (Demo.uuidOf 0)) r Hk).
    rewrite Hprogress. discriminate. }
  split; [exact Hcompleted |].
  destruct (rollbacks (stateAfter Demo.completion) !! Demo.uuidOf 0)
    as [r |] eqn:Hk; [| discriminate].
  injection Hcompleted as Hcompleted.
  apply (proj2 (illegal_transitions_rejected (stateAfter Demo.completion)
                  (snd Demo.completion) (Demo.uuidOf 0)) r Hk).
  rewrite Hcompleted. discriminate.
Defined.


(* ================================================================== *)
(** ** Further properties of the ledger, the rollback service, the
       branch manager and the compliance service *)
(* ================================================================== *)

Section MoreLedgerFacts.
Context {host : Host}.

(** X1 (ledgers made by appends).  On a ledger made by the constructor and
    [n] calls of [log] that returned, [getLogCount()] is [n], every stored
    hash is the digest [createAuditHash] gives for the fields and the
    [previousHash] of its own entry, every entry after the first names the
    hash of the entry before it, and [getLastHash()] is the hash of the last
    entry. *)
Theorem appended_ledger_is_chained (this : AuditLogService) (n : nat) :
  Appended this n ->
  getLogCount this = n /\
  Forall (fun e => log_hash e
                   = createAuditHash (logDataOf e) (log_previousHash e))
    (logs this) /\
  (forall (i : nat) (e1 e2 : AuditLog),
     logs this !! i = Some e1 -> logs this !! S i = Some e2 ->
     log_previousHash e2 = Some (log_hash e1)) /\
  (forall e : AuditLog,
     last (logs this) = Some e -> getLastHash this = log_hash e).
Proof.
  intros Happ.
  split; [by apply Appended_previousHash in Happ as [Hlen _] |].
  split; [| split; by apply Appended_linked in Happ as [Hlast Hlink]].
  induction Happ as [cfg w | this n entry w a this' w' _ IH Hlog];
    [constructor |].
  apply log_returns in Hlog as (Hlogs & _ & _ & _ & Hhash).
  rewrite Hlogs. apply Forall_app. split; [exact IH |].
  by constructor.
Qed.

(** X2 (the two outcomes of [log]).  [log] draws one uuid and reads the
    clock once.  When the uuid drawn is well formed it returns the entry made
    of the fields of the caller, that uuid, that time and the last hash of
    the ledger as [previousHash], appends exactly this entry and makes its
    hash the last hash.  Otherwise it throws "Invalid audit log: ..." and the
    ledger is as it was. *)
Theorem log_appends_or_leaves_unchanged (entry : AuditLogEntry)
    (this : AuditLogService) (w : World) :
  (isUuid (uuids w (uuidDraws w)) = true ->
   exists a : AuditLog,
     log entry this w
     = (inr a, stored (config this) (log_hash a) (logs this ++ [a]),
        afterClockRead (afterUuidDraw w)) /\
     log_id a = uuids w (uuidDraws w) /\
     log_timestamp a = clock w (clockReads w) /\
     log_action a = entry_action entry /\
     log_actor a = entry_actor entry /\
     log_target a = entry_target entry /\
     log_targetType a = entry_targetType entry /\
     log_previousHash a = Some (lastHash this)) /\
  (isUuid (uuids w (uuidDraws w)) = false ->
   log entry this w
   = (inl (mkError ("Invalid audit log: " ++ zodMessage)), this,
      afterClockRead (afterUuidDraw w))).
Proof.
  split; intros Hid.
  - destruct (log entry this w) as [[[e | a] this'] w'] eqn:Hrun.
    + revert Hrun. unfold log, AuditLogSchema_safeParse.
      unfold bind, ret, throw, get, modify, Date_now, uuidv4; simpl.
      rewrite Hid. discriminate.
    + exists a. revert Hrun. unfold log, AuditLogSchema_safeParse.
      unfold bind, ret, throw, get, modify, Date_now, uuidv4; simpl.
      rewrite Hid. simpl. intros Hrun. injection Hrun as <- <- <-.
      simpl. auto 10.
  - unfold log, AuditLogSchema_safeParse.
    unfold bind, ret, throw, get, modify, Date_now, uuidv4; simpl.
    by rewrite Hid.
Qed.

(** The outcome of the walk on any list of entries. *)
Lemma verifyFrom_outcome (l : list AuditLog) :
  forall (i : nat) (expected : option string),
  verifyFrom i expected l = intact \/
  exists (k : nat) (e : AuditLog),
    l !! k = Some e /\
    verifyFrom i expected l = broken (i + k) /\
    verifyFrom i expected (take k l) = intact /\
    entryPasses (expectedAfter expected (take k l)) e = false.
Proof.
  induction l as [| e l IH]; intros i expected; [by left |].
  rewrite verifyFrom_cons.
  destruct (entryPasses expected e) eqn:He.
  - destruct (IH (S i) (Some (log_hash e))) as [Hok | (k & e' & Hk & Hb & Hpre & Hbad)].
    + by left.
    + right. exists (S k), e'. split; [exact Hk |].
      split; [rewrite Hb; f_equal; lia |].
      split.
      * change (take (S k) (e :: l)) with (e :: take k l).
        rewrite verifyFrom_cons, He. exact Hpre.
      * change (take (S k) (e :: l)) with (e :: take k l).
        by rewrite expectedAfter_cons.
  - right. exists 0%nat, e. split; [reflexivity |].
    split; [by rewrite Nat.add_0_r |]. split; [reflexivity | exact He].
Qed.

(** X3 (the index [verifyIntegrity] reports).  When [verifyIntegrity()]
    reports [brokenAt: i], the result is invalid, an entry is stored at [i],
    the entries before it pass the walk and the entry at [i] fails its check
    against them: [i] is the first entry that fails.  When it reports no
    index, the result is valid and every entry passes its check against the
    entries before it. *)
Theorem verifyIntegrity_reports_first_broken_entry (this : AuditLogService) :
  match brokenAt (verifyIntegrity this) with
  | Some i =>
      valid (verifyIntegrity this) = false /\
      exists e : AuditLog,
        logs this !! i = Some e /\
        verifyFrom 0 None (take i (logs this)) = intact /\
        entryPasses (expectedAfter None (take i (logs this))) e = false
  | None =>
      valid (verifyIntegrity this) = true /\
      forall (pre : list AuditLog) (e : AuditLog) (post : list AuditLog),
        logs this = (pre ++ e :: post)%list ->
        entryPasses (expectedAfter None pre) e = true
  end.
Proof.
  unfold verifyIntegrity.
  destruct (verifyFrom_outcome (logs this) 0 None)
    as [Hok | (k & e & Hk & Hb & Hpre & Hbad)].
  - rewrite Hok. simpl. split; [reflexivity |].
    intros pre e post Hsplit. rewrite Hsplit in Hok.
    pose proof (verifyFrom_app_intact _ _ _ _ Hok) as Hpre.
    rewrite (verifyFrom_app _ _ _ _ Hpre), verifyFrom_cons in Hok.
    by destruct (entryPasses _ e).
  - rewrite Hb. simpl. split; [reflexivity |]. eauto.
Qed.

Lemma verifyFrom_intact_iff (l : list AuditLog) :
  forall (i : nat) (expected : option string),
  verifyFrom i expected l = intact <->
  verifyAuditChainFrom expected l = true /\
  Forall (fun e => log_hash e
                   = createAuditHash (logDataOf e) (log_previousHash e)) l.
Proof.
  induction l as [| e l IH]; intros i expected.
  - simpl. split; [by split | reflexivity].
  - rewrite verifyFrom_cons. unfold entryPasses. simpl.
    destruct (bool_decide (log_previousHash e = expected)) eqn:Hlink; simpl.
    + destruct (bool_decide (log_hash e = _)) eqn:Hhash.
      * apply bool_decide_eq_true_1 in Hhash. rewrite IH.
        split; intros [Hc Hd]; split; try assumption.
        -- by constructor.
        -- by inversion Hd.
      * apply bool_decide_eq_false_1 in Hhash.
        split; [discriminate |]. intros [_ Hd]. by inversion Hd.
    + split; [discriminate | intros [Hc _]; discriminate].
Qed.

(** X4 ([verifyIntegrity] and [verifyAuditChain]).  [verifyIntegrity()]
    accepts a ledger exactly when [verifyAuditChain] of crypto.ts accepts the
    list of its entries and every stored hash is the digest of its own
    entry. *)
Theorem verifyIntegrity_is_chain_and_digests (this : AuditLogService) :
  verifyIntegrity this = intact <->
  verifyAuditChain (logs this) = true /\
  Forall (fun e => log_hash e
                   = createAuditHash (logDataOf e) (log_previousHash e))
    (logs this).
Proof. apply verifyFrom_intact_iff. Qed.

End MoreLedgerFacts.

Section MoreQueryFacts.

(** The filters of [getLogs] are one filter. *)
Lemma matchingLogs_eq (o : LogQuery) (this : AuditLogService) :
  matchingLogs (Some o) this
  = sortBy byTimestampDescending (List.filter (matchesQuery o) (logs this)).
Proof.
  unfold matchingLogs. cbv zeta beta.
  rewrite (filterWhen_first _ _ (logs this)).
  rewrite !filterWhen_filter. reflexivity.
Qed.

Lemma matchingLogs_None (this : AuditLogService) :
  matchingLogs None this = sortBy byTimestampDescending (logs this).
Proof. reflexivity. Qed.

Lemma insertSorted_newestFirst (x : AuditLog) (l : list AuditLog) :
  StronglySorted newestFirst l ->
  StronglySorted newestFirst (insertSorted byTimestampDescending x l).
Proof.
  induction 1 as [| y l Hl IH Hy]; simpl.
  - repeat constructor.
  - unfold byTimestampDescending at 1.
    destruct (Z.leb_spec (log_timestamp y - log_timestamp x) 0) as [Hle | Hgt].
    + constructor; [by constructor |].
      constructor; [unfold newestFirst; lia |].
      eapply Forall_impl; [exact Hy |]. unfold newestFirst. intros z Hz. lia.
    + constructor; [exact IH |].
      rewrite insertSorted_Permutation.
      constructor; [unfold newestFirst; lia | exact Hy].
Qed.

Lemma sortBy_newestFirst (l : list AuditLog) :
  StronglySorted newestFirst (sortBy byTimestampDescending l).
Proof.
  induction l as [| x l IH]; [constructor |].
  apply insertSorted_newestFirst, IH.
Qed.

Lemma slice_sublist {A} (start stop : Z) (l : list A) :
  slice start stop l `sublist_of` l.
Proof.
  unfold slice. etrans; [apply sublist_take | apply sublist_drop].
Qed.

Lemma Forall_sublist {A} (P : A -> Prop) (l k : list A) :
  l `sublist_of` k -> Forall P k -> Forall P l.
Proof.
  induction 1 as [| x l k Hsub IH | x l k Hsub IH]; intros Hk.
  - constructor.
  - inversion Hk; subst. constructor; auto.
  - inversion Hk; subst. auto.
Qed.

Lemma StronglySorted_sublist {A} (R : relation A) (l k : list A) :
  l `sublist_of` k -> StronglySorted R k -> StronglySorted R l.
Proof.
  induction 1 as [| x l k Hsub IH | x l k Hsub IH]; intros Hk.
  - constructor.
  - apply StronglySorted_inv in Hk as [Hk Hx].
    constructor; [by apply IH |].
    eapply Forall_sublist; eassumption.
  - apply StronglySorted_inv in Hk as [Hk _]. by apply IH.
Qed.

Lemma matchingLogs_newestFirst (options : option LogQuery)
    (this : AuditLogService) :
  StronglySorted newestFirst (matchingLogs options this).
Proof.
  destruct options as [o |].
  - rewrite matchingLogs_eq. apply sortBy_newestFirst.
  - rewrite matchingLogs_None. apply sortBy_newestFirst.
Qed.

(** X5 ([getLogs] is sorted).  Whatever the query, [getLogs] returns its
    entries newest first: an entry never comes before one with a later
    timestamp. *)
Theorem getLogs_newest_first (options : option LogQuery)
    (this : AuditLogService) :
  StronglySorted newestFirst (getLogs options this) /\
  forall (i j : nat) (a b : AuditLog),
    (i <= j)%nat ->
    getLogs options this !! i = Some a ->
    getLogs options this !! j = Some b ->
    log_timestamp b <= log_timestamp a.
Proof.
  assert (Hsorted : StronglySorted newestFirst (getLogs options this)).
  { unfold getLogs. cbv zeta.
    eapply StronglySorted_sublist; [apply slice_sublist |].
    apply matchingLogs_newestFirst. }
  split; [exact Hsorted |].
  intros i j a b Hij Hi Hj.
  destruct (decide (i = j)) as [-> | Hne].
  - rewrite Hi in Hj. injection Hj as <-. lia.
  - revert i j Hij Hne Hi Hj. induction Hsorted as [| x l Hl IH Hx];
      intros i j Hij Hne Hi Hj; [discriminate |].
    destruct i as [| i]; destruct j as [| j]; try lia.
    + simpl in Hi, Hj. injection Hi as <-.
      rewrite Forall_forall in Hx. apply Hx.
      by eapply list_elem_of_lookup_2.
    + simpl in Hi, Hj. apply (IH i j); [lia | lia | done | done].
Qed.

End MoreQueryFacts.

Section MoreQueryFacts2.

Lemma slice_length_bound {A} (start n : Z) (l : list A) :
  0 < n -> (length (slice start (start + n) l) <= Z.to_nat n)%nat.
Proof.
  intros Hn. unfold slice. rewrite length_take, length_drop.
  destruct (Z.ltb_spec start 0); destruct (Z.ltb_spec (start + n) 0); lia.
Qed.

(** X6 ([getLogs] returns matches only).  Every entry [getLogs] returns
    is stored in the ledger and meets every filter of the query; with a
    limit [n > 0] it returns at most [n] entries. *)
Theorem getLogs_respects_query (o : LogQuery) (this : AuditLogService) :
  (forall e : AuditLog,
     e ∈ getLogs (Some o) this -> e ∈ logs this /\ matchesQuery o e = true) /\
  (forall n : Z,
     q_limit o = Some n -> 0 < n ->
     (length (getLogs (Some o) this) <= Z.to_nat n)%nat).
Proof.
  split.
  - intros e He. unfold getLogs in He. cbv zeta in He.
    eapply sublist_subseteq in He; [| apply slice_sublist].
    rewrite matchingLogs_eq in He.
    rewrite (sortBy_Permutation _ _) in He.
    apply list_elem_of_In, filter_In in He as [Hin Hm].
    split; [by apply list_elem_of_In | exact Hm].
  - intros n Hlimit Hn. unfold getLogs. cbv zeta. simpl.
    rewrite Hlimit. simpl.
    destruct (Z.eqb_spec n 0) as [-> | _]; [lia |].
    apply slice_length_bound. exact Hn.
Qed.

Lemma slice_nonneg {A} (a b : Z) (l : list A) :
  0 <= a -> a <= b ->
  slice a b l = take (Z.to_nat b - Z.to_nat a) (drop (Z.to_nat a) l).
Proof.
  intros Ha Hb. unfold slice.
  destruct (Z.ltb_spec a 0); [lia |]. destruct (Z.ltb_spec b 0); [lia |].
  destruct (decide (Z.of_nat (length l) <= a)) as [Hout | Hin].
  - rewrite !drop_ge by lia. by rewrite !take_nil.
  - rewrite (Z.min_l a) by lia.
    destruct (decide (b <= Z.of_nat (length l))) as [Hb' | Hb'].
    + rewrite Z.min_l by lia. f_equal. lia.
    + rewrite Z.min_r by lia.
      rewrite !take_ge; [reflexivity | |]; rewrite length_drop; lia.
Qed.

(** X7 (pages).  For an offset that is not negative and limits
    [n, m > 0], the page of [n] entries at [offset] followed by the page of
    [m] entries at [offset + n] is the page of [n + m] entries at
    [offset]: pages neither overlap nor skip an entry. *)
Theorem getLogs_pages_concatenate (q : LogQuery) (this : AuditLogService)
    (offset n m : Z) :
  0 <= offset -> 0 < n -> 0 < m ->
  (getLogs (Some (withOffset (Some offset) (withLimit (Some n) q))) this
   ++ getLogs (Some (withOffset (Some (offset + n)) (withLimit (Some m) q)))
        this)%list
  = getLogs (Some (withOffset (Some offset) (withLimit (Some (n + m)) q)))
      this.
Proof.
  intros Ho Hn Hm. unfold getLogs. cbv zeta.
  cbn [q_offset q_limit withOffset withLimit].
  change (matchingLogs (Some (withOffset (Some offset) (withLimit (Some n) q)))
            this) with (matchingLogs (Some q) this).
  change (matchingLogs
            (Some (withOffset (Some (offset + n)) (withLimit (Some m) q)))
            this) with (matchingLogs (Some q) this).
  change (matchingLogs
            (Some (withOffset (Some offset) (withLimit (Some (n + m)) q)))
            this) with (matchingLogs (Some q) this).
  set (l := matchingLogs (Some q) this).
  assert (Htruthy : forall k : Z,
            0 <= k -> match truthyNumber (Some k) with
                      | Some k' => k'
                      | None => 0
                      end = k).
  { intros k Hk. unfold truthyNumber. destruct (Z.eqb_spec k 0); lia. }
  assert (Hlimit : forall k : Z,
            0 < k -> match truthyNumber (Some k) with
                     | Some k' => k'
                     | None => Z.of_nat (length l)
                     end = k).
  { intros k Hk. unfold truthyNumber. destruct (Z.eqb_spec k 0); lia. }
  rewrite !Htruthy, !Hlimit by lia.
  rewrite !slice_nonneg by lia.
  replace (Z.to_nat (offset + n) - Z.to_nat offset)%nat with (Z.to_nat n) by lia.
  replace (Z.to_nat (offset + n + m) - Z.to_nat (offset + n))%nat
    with (Z.to_nat m) by lia.
  replace (Z.to_nat (offset + (n + m)) - Z.to_nat offset)%nat
    with (Z.to_nat n + Z.to_nat m)%nat by lia.
  replace (Z.to_nat (offset + n)) with (Z.to_nat offset + Z.to_nat n)%nat by lia.
  rewrite <- drop_drop. apply take_take_drop.
Qed.

(** Insertion keeps the order among the entries of one timestamp. *)
Lemma insertSorted_stable (t : Z) (x : AuditLog) (l : list AuditLog) :
  List.filter (fun e => log_timestamp e =? t)
    (insertSorted byTimestampDescending x l)
  = List.filter (fun e => log_timestamp e =? t) (x :: l).
Proof.
  induction l as [| y l IH]; [reflexivity |].
  simpl insertSorted. unfold byTimestampDescending at 1.
  destruct (Z.leb_spec (log_timestamp y - log_timestamp x) 0) as [Hle | Hgt];
    [reflexivity |].
  simpl. simpl in IH. rewrite IH.
  destruct (Z.eqb_spec (log_timestamp y) t) as [Hy | Hy];
    destruct (Z.eqb_spec (log_timestamp x) t) as [Hx | Hx];
    try reflexivity.
  lia.
Qed.

Lemma sortBy_stable (t : Z) (l : list AuditLog) :
  List.filter (fun e => log_timestamp e =? t) (sortBy byTimestampDescending l)
  = List.filter (fun e => log_timestamp e =? t) l.
Proof.
  induction l as [| x l IH]; [reflexivity |].
  change (sortBy byTimestampDescending (x :: l))
    with (insertSorted byTimestampDescending x
            (sortBy byTimestampDescending l)).
  rewrite insertSorted_stable. simpl. by rewrite IH.
Qed.

Lemma filter_filter_and {A} (p q : A -> bool) (l : list A) :
  List.filter p (List.filter q l) = List.filter (fun e => p e && q e) l.
Proof.
  induction l as [| e l IH]; [reflexivity |]. simpl.
  destruct (q e); simpl.
  - rewrite andb_true_r. destruct (p e); by rewrite IH.
  - by rewrite andb_false_r.
Qed.

(** X8 (ties).  The entries with one timestamp come out of [getLogs] in
    the order the ledger holds them: among the results of a query without
    limit and offset, those of timestamp [t] are the matches of timestamp
    [t] in ledger order. *)
Theorem getLogs_keeps_ledger_order_on_ties (q : LogQuery)
    (this : AuditLogService) (t : Z) :
  List.filter (fun e => log_timestamp e =? t)
    (getLogs (Some (withOffset None (withLimit None q))) this)
  = List.filter (fun e => (log_timestamp e =? t) && matchesQuery q e)
      (logs this).
Proof.
  unfold getLogs. cbv zeta. simpl.
  change (matchingLogs (Some (withOffset None (withLimit None q))) this)
    with (matchingLogs (Some q) this).
  rewrite slice_whole, matchingLogs_eq, sortBy_stable.
  apply filter_filter_and.
Qed.

(** X9 ([getLogs] and [getLogsForArtifact], [getLogsForCommit]).  For an
    id that is not empty, [getLogs] with that target and the target type
    'artifact' returns the entries of [getLogsForArtifact(id)] sorted newest
    first, and with the target type 'commit' those of
    [getLogsForCommit(id)]. *)
Theorem getLogs_by_target_sorts_getLogsFor (id : string)
    (this : AuditLogService) :
  id <> "" ->
  getLogs (Some (targetQuery id "artifact")) this
  = sortBy byTimestampDescending (getLogsForArtifact id this) /\
  getLogs (Some (targetQuery id "commit")) this
  = sortBy byTimestampDescending (getLogsForCommit id this).
Proof.
  intros Hid.
  assert (Htruthy : truthyString (Some id) = Some id).
  { unfold truthyString. by rewrite bool_decide_eq_false_2. }
  split; unfold getLogs; cbv zeta;
    cbn [targetQuery q_offset q_limit truthyNumber];
    rewrite slice_whole, matchingLogs_eq;
    unfold getLogsForArtifact, getLogsForCommit; f_equal;
    apply filter_ext; intros e; unfold matchesQuery;
    cbn [targetQuery q_actor q_action q_target q_targetType q_startDate
         q_endDate];
    rewrite Htruthy;
    [change (truthyString (Some "artifact")) with (Some "artifact")
    |change (truthyString (Some "commit")) with (Some "commit")];
    cbn [truthyString passes]; by rewrite !andb_true_r, !andb_true_l.
Qed.

End MoreQueryFacts2.

Section PruneAndDigest.
Context {host : Host} {hmac : HmacHost}.

(** X10 ([archiveOldLogs] and [getLogsWithinRetention]).
    [archiveOldLogs()] always returns; the entries it keeps are the ones
    [getLogsWithinRetention()] returns at the same reading of the clock, and
    the last hash is untouched: the next entry appended names the hash of the
    last entry from before the pruning, whether that entry was kept or not.
    When the cutoff is a valid date, the entries kept are those not older
    than it and the two counts add up to the former number of entries.  When
    the retention period, which nothing validates, takes the year out of the
    range of [Date], the cutoff is an Invalid Date: every entry is dropped
    and both counts are 0. *)
Theorem archiveOldLogs_keeps_what_is_within_retention
    (this : AuditLogService) (w : World) :
  exists (r : ArchiveResult) (this' : AuditLogService),
    archiveOldLogs this w = (inr r, this', afterClockRead w) /\
    getLogsWithinRetention this w = (inr (logs this'), this, afterClockRead w) /\
    getLogCount this' = retained r /\
    getLastHash this' = getLastHash this /\
    (forall (entry : AuditLogEntry) (w2 w3 : World) (a : AuditLog)
       (this2 : AuditLogService),
       log entry this' w2 = (inr a, this2, w3) ->
       log_previousHash a = Some (getLastHash this)) /\
    match setFullYearBack (clock w (clockReads w))
            (retentionYears (config this)) with
    | Some cutoff =>
        logs this'
        = List.filter (fun e => cutoff <=? log_timestamp e) (logs this) /\
        (archived r + retained r)%nat = getLogCount this
    | None =>
        logs this' = [] /\ archived r = 0%nat /\ retained r = 0%nat
    end.
Proof.
  eexists _, _. split; [apply archiveOldLogs_runs |]. simpl.
  split; [reflexivity |].
  split; [reflexivity |]. split; [reflexivity |].
  split.
  { intros entry w2 w3 a this2 Hlog.
    by apply log_returns in Hlog as (_ & _ & _ & Hprev & _). }
  destruct (setFullYearBack (clock w (clockReads w))
              (retentionYears (config this))) as [cutoff |].
  - split; [reflexivity | apply filter_complement_length].
  - destruct (filter_invalid_date (logs this)) as [Hbefore Hnot].
    rewrite Hbefore, Hnot. auto.
Qed.

(** The digest of an entry does not tell where [action] ends and [actor]
    begins. *)
Lemma createAuditHash_boundary (d : AuditLogData) (x y z : string)
    (previousHash : option string) :
  createAuditHash
    {| data_id := data_id d; data_action := x ++ "|" ++ y; data_actor := z;
       data_target := data_target d; data_timestamp := data_timestamp d;
       data_details := data_details d |} previousHash
  = createAuditHash
      {| data_id := data_id d; data_action := x; data_actor := y ++ "|" ++ z;
         data_target := data_target d; data_timestamp := data_timestamp d;
         data_details := data_details d |} previousHash.
Proof.
  unfold createAuditHash. cbn [data_id data_action data_actor data_target
    data_timestamp data_details]. f_equal.
  cbn [String.concat]. by rewrite !string_app_assoc.
Qed.

(** The walk reads the content of an entry through its digest only. *)
Lemma verifyFrom_same_digest (l l' : list AuditLog) :
  Forall2 (fun e e' =>
             log_hash e' = log_hash e /\
             log_previousHash e' = log_previousHash e /\
             createAuditHash (logDataOf e') (log_previousHash e')
             = createAuditHash (logDataOf e) (log_previousHash e)) l l' ->
  forall (i : nat) (expected : option string),
  verifyFrom i expected l' = verifyFrom i expected l.
Proof.
  induction 1 as [| e e' l l' (Hh & Hp & Hd) _ IH]; intros i expected;
    [reflexivity |].
  rewrite !verifyFrom_cons. unfold entryPasses.
  by rewrite Hd, Hh, Hp, IH.
Qed.

(** X11 (the digest does not separate its fields).  [createAuditHash]
    joins the fields with '|' and escapes nothing.  When the action of a
    stored entry holds a '|', moving what follows it to the front of the
    actor leaves every digest, and so the result of [verifyIntegrity()],
    unchanged. *)
Theorem moved_field_boundary_is_not_detected (cfg : RepositoryConfig)
    (tail : string) (l : list AuditLog) (k : nat) (e : AuditLog)
    (x y : string) :
  l !! k = Some e ->
  log_action e = x ++ "|" ++ y ->
  verifyIntegrity
    (stored cfg tail
       (<[k := withActor (y ++ "|" ++ log_actor e) (withAction x e)]> l))
  = verifyIntegrity (stored cfg tail l).
Proof.
  intros Hk Haction. unfold verifyIntegrity, stored. simpl.
  apply verifyFrom_same_digest.
  destruct (insert_split l k e
              (withActor (y ++ "|" ++ log_actor e) (withAction x e)) Hk)
    as (Hl & -> & _).
  rewrite Hl at 1.
  assert (Hrefl : forall l0 : list AuditLog,
    Forall2 (fun e0 e' =>
               log_hash e' = log_hash e0 /\
               log_previousHash e' = log_previousHash e0 /\
               createAuditHash (logDataOf e') (log_previousHash e')
               = createAuditHash (logDataOf e0) (log_previousHash e0)) l0 l0).
  { intros l0. apply Forall_Forall2_diag, Forall_forall. by intros. }
  apply Forall2_app; [apply Hrefl |].
  constructor; [| apply Hrefl].
  split; [reflexivity |]. split; [reflexivity |].
  unfold logDataOf. simpl. rewrite Haction.
  symmetry.
  apply (createAuditHash_boundary
           {| data_id := log_id e; data_action := ""; data_actor := "";
              data_target := log_target e;
              data_timestamp := toISOString (log_timestamp e);
              data_details := log_details e |}).
Qed.

(** X12 (signing, then verifying).  [verifyCommitSignature] accepts
    exactly the signature [signCommit] gives for the same data and key,
    [verifySignature] exactly the one [generateSignature] gives, and
    [verifyHash] accepts the hashes [sha256] and [contentHash] give for the
    content. *)
Theorem signatures_verify_what_they_sign (data : CommitSignatureData)
    (content : JsonValue) (signature secretKey : string) :
  (verifyCommitSignature data signature secretKey = true
   <-> signature = signCommit data secretKey) /\
  (verifySignature content signature secretKey = true
   <-> signature = generateSignature content secretKey) /\
  verifyHash content (sha256Of content) = true /\
  verifyHash content (contentHash content) = true.
Proof.
  unfold verifyCommitSignature, signCommit, verifySignature, verifyHash,
    contentHash, sha256Of, sha256.
  rewrite !bool_decide_eq_true.
  repeat split; try congruence; reflexivity.
Qed.

(** X13 (the signed text does not separate its fields).  [signCommit]
    joins the fields of a commit with '|' and escapes nothing: the message
    [x|y] by the author [z] and the message [x] by the author [y|z] have the
    same signature under every key, and [verifyCommitSignature] accepts the
    signature of the one for the other. *)
Theorem signCommit_does_not_separate_fields (data : CommitSignatureData)
    (x y z secretKey : string) :
  let signed :=
    {| sig_artifactId := sig_artifactId data; sig_version := sig_version data;
       sig_message := x ++ "|" ++ y; sig_author := z;
       sig_parentCommits := sig_parentCommits data;
       sig_timestamp := sig_timestamp data;
       sig_content := sig_content data |} in
  let shifted :=
    {| sig_artifactId := sig_artifactId data; sig_version := sig_version data;
       sig_message := x; sig_author := y ++ "|" ++ z;
       sig_parentCommits := sig_parentCommits data;
       sig_timestamp := sig_timestamp data;
       sig_content := sig_content data |} in
  signCommit signed secretKey = signCommit shifted secretKey /\
  verifyCommitSignature shifted (signCommit signed secretKey) secretKey = true.
Proof.
  intros signed shifted.
  assert (Hsame : signCommit signed secretKey = signCommit shifted secretKey).
  { unfold signCommit, generateSignature, serialized, signed, shifted.
    cbn [sig_artifactId sig_version sig_message sig_author sig_parentCommits
         sig_timestamp sig_content]. f_equal.
    cbn [String.concat]. by rewrite !string_app_assoc. }
  split; [exact Hsame |].
  rewrite Hsame. unfold verifyCommitSignature, verifySignature, signCommit.
  by apply bool_decide_eq_true.
Qed.

End PruneAndDigest.

Section MoreGovernorFacts.
Context {host : Host}.

Lemma setAuditLog_same (this : RollbackService) :
  setAuditLog (auditLog this) this = this.
Proof. by destruct this. Qed.

(** The fields of the entry a call of [log] that returns has stored. *)
Lemma log_returns_fields (entry : AuditLogEntry) (this this' : AuditLogService)
    (w w' : World) (a : AuditLog) :
  log entry this w = (inr a, this', w') ->
  log_action a = entry_action entry /\
  log_actor a = entry_actor entry /\
  log_target a = entry_target entry /\
  log_targetType a = entry_targetType entry /\
  log_id a = uuids w (uuidDraws w) /\
  log_timestamp a = clock w (clockReads w) /\
  isUuid (uuids w (uuidDraws w)) = true /\
  w' = afterClockRead (afterUuidDraw w).
Proof.
  unfold log, AuditLogSchema_safeParse. run_eff.
  destruct (isUuid (uuids w (uuidDraws w))) eqn:Hid; simpl; [| discriminate].
  intros H. injection H as <- <- <-. simpl. auto 10.
Qed.

(** A call of [this.auditLog.log(entry)] from the rollback service. *)
Lemma onAuditLog_log (entry : AuditLogEntry) (this this' : RollbackService)
    (w w' : World) (res : Error + AuditLog) :
  onAuditLog (log entry) this w = (res, this', w') ->
  rollbacks this' = rollbacks this /\
  sameCounters this this' /\
  match res with
  | inr a =>
      logs (auditLog this') = (logs (auditLog this) ++ [a])%list /\
      log_action a = entry_action entry /\
      log_actor a = entry_actor entry /\
      log_target a = entry_target entry /\
      log_targetType a = entry_targetType entry
  | inl _ => auditLog this' = auditLog this
  end.
Proof.
  unfold onAuditLog.
  destruct (log entry (auditLog this) w) as [[[e | a] al'] w1] eqn:Hlog;
    intros H; injection H as <- <- <-; simpl.
  - apply log_throws in Hlog. subst al'. repeat split; auto.
  - pose proof (log_returns _ _ _ _ _ _ Hlog) as (Hlogs & _).
    pose proof (log_returns_fields _ _ _ _ _ _ Hlog)
      as (Hac & Hat & Hta & Hty & _).
    repeat split; auto.
Qed.

Lemma sameCounters_refl (this : RollbackService) : sameCounters this this.
Proof. unfold sameCounters. tauto. Qed.

Lemma sameCounters_trans (a b c : RollbackService) :
  sameCounters a b -> sameCounters b c -> sameCounters a c.
Proof. unfold sameCounters. intuition congruence. Qed.

Lemma sameCounters_setRollbacks (m : gmap string Rollback)
    (this : RollbackService) :
  sameCounters this (setRollbacks m this).
Proof. unfold sameCounters. simpl. tauto. Qed.

(** Updating a record that is stored. *)
Lemma alter_stored (m : gmap string Rollback) (id : string) (r : Rollback)
    (f : Rollback -> Rollback) :
  m !! id = Some r -> alter f id m = <[id := f r]> m.
Proof.
  intros Hr. apply map_eq. intros j.
  destruct (decide (id = j)) as [-> | Hne].
  - by rewrite lookup_alter_eq, lookup_insert_eq, Hr.
  - by rewrite lookup_alter_ne, lookup_insert_ne.
Qed.

(** What a call of [executeRollback] that returns has done. *)
Lemma executeRollback_returns (rollbackId : string)
    (this this' : RollbackService) (w w' : World) (r' : Rollback) :
  executeRollback rollbackId this w = (inr r', this', w') ->
  exists (r : Rollback) (a : AuditLog),
    rollbacks this !! rollbackId = Some r /\
    rb_status r = pending /\
    r' = setStatus in_progress r /\
    rollbacks this' = <[rollbackId := r']> (rollbacks this) /\
    sameCounters this this' /\
    logs (auditLog this') = (logs (auditLog this) ++ [a])%list /\
    auditsRollback a "ROLLBACK_IN_PROGRESS" "system" rollbackId.
Proof.
  unfold executeRollback, updateRollback. run_eff.
  destruct (rollbacks this !! rollbackId) as [r |] eqn:Hr; simpl;
    [| discriminate].
  destruct (bool_decide (rb_status r = pending)) eqn:Hs; simpl;
    [| discriminate].
  apply bool_decide_eq_true_1 in Hs.
  destruct (onAuditLog _ _ _) as [[[e | a] this1] w1] eqn:Hlog; simpl;
    [discriminate |].
  intros H. injection H as <- <- <-.
  apply onAuditLog_log in Hlog as (Hmap & Hsame & Hlogs & Hfields).
  simpl in *. exists r, a.
  split; [reflexivity |]. split; [exact Hs |]. split; [reflexivity |].
  split; [rewrite Hmap; by apply alter_stored |].
  split; [exact Hsame |].
  split; [exact Hlogs |]. unfold auditsRollback. tauto.
Qed.

(** What a call of [cancelRollback] that returns has done. *)
Lemma cancelRollback_returns (rollbackId cancelledBy : string)
    (this this' : RollbackService) (w w' : World) (u : unit) :
  cancelRollback rollbackId cancelledBy this w = (inr u, this', w') ->
  exists (r : Rollback) (a : AuditLog),
    rollbacks this !! rollbackId = Some r /\
    rb_status r = pending /\
    rollbacks this'
    = <[rollbackId :=
          setCompletedAt (clock w (clockReads w))
            (setError ("Cancelled by " ++ cancelledBy) (setStatus failed r))]>
        (rollbacks this) /\
    sameCounters this this' /\
    logs (auditLog this') = (logs (auditLog this) ++ [a])%list /\
    auditsRollback a "ROLLBACK_CANCELLED" cancelledBy rollbackId.
Proof.
  unfold cancelRollback, updateRollback. run_eff.
  destruct (rollbacks this !! rollbackId) as [r |] eqn:Hr; simpl;
    [| discriminate].
  destruct (bool_decide (rb_status r = pending)) eqn:Hs; simpl;
    [| discriminate].
  apply bool_decide_eq_true_1 in Hs.
  destruct (onAuditLog _ _ _) as [[[e | a] this1] w1] eqn:Hlog; simpl;
    [discriminate |].
  intros H. injection H as <- <-.
  apply onAuditLog_log in Hlog as (Hmap & Hsame & Hlogs & Hfields).
  simpl in *. exists r, a.
  split; [reflexivity |]. split; [exact Hs |].
  split.
  { rewrite Hmap.
    rewrite (alter_stored (rollbacks this) _ r (setStatus failed))
      by exact Hr.
    rewrite (alter_stored _ _ (setStatus failed r) (setError _))
      by apply lookup_insert_eq.
    rewrite (alter_stored _ _
               (setError ("Cancelled by " ++ cancelledBy) (setStatus failed r))
               (setCompletedAt _))
      by apply lookup_insert_eq.
    by rewrite !insert_insert_eq. }
  split; [exact Hsame |].
  split; [exact Hlogs |]. unfold auditsRollback. tauto.
Qed.

(** What a call of [completeRollback] that returns has done. *)
Lemma completeRollback_returns (rollbackId : string)
    (affectedArtifacts : list string) (this this' : RollbackService)
    (w w' : World) (r' : Rollback) :
  completeRollback rollbackId affectedArtifacts this w = (inr r', this', w') ->
  exists (r : Rollback) (a : AuditLog),
    rollbacks this !! rollbackId = Some r /\
    r' = setAffectedArtifacts affectedArtifacts
           (setCompletedAt (clock w (clockReads w)) (setStatus completed r)) /\
    rollbacks this' = <[rollbackId := r']> (rollbacks this) /\
    sameCounters this this' /\
    logs (auditLog this') = (logs (auditLog this) ++ [a])%list /\
    auditsRollback a "ROLLBACK_COMPLETED" (rb_initiatedBy r) rollbackId.
Proof.
  unfold completeRollback, updateRollback. run_eff.
  destruct (rollbacks this !! rollbackId) as [r |] eqn:Hr; simpl;
    [| discriminate].
  destruct (onAuditLog _ _ _) as [[[e | a] this1] w1] eqn:Hlog; simpl;
    [discriminate |].
  intros H. injection H as <- <- <-.
  apply onAuditLog_log in Hlog as (Hmap & Hsame & Hlogs & Hfields).
  simpl in *. exists r, a.
  split; [reflexivity |]. split; [reflexivity |].
  split.
  { rewrite Hmap.
    rewrite (alter_stored (rollbacks this) _ r (setStatus completed))
      by exact Hr.
    rewrite (alter_stored _ _ (setStatus completed r) (setCompletedAt _))
      by apply lookup_insert_eq.
    rewrite (alter_stored _ _
               (setCompletedAt (clock w (clockReads w)) (setStatus completed r))
               (setAffectedArtifacts _))
      by apply lookup_insert_eq.
    by rewrite !insert_insert_eq. }
  split; [exact Hsame |].
  split; [exact Hlogs |]. unfold auditsRollback. tauto.
Qed.

(** What a call of [failRollback] that returns has done. *)
Lemma failRollback_returns (rollbackId error : string)
    (this this' : RollbackService) (w w' : World) (r' : Rollback) :
  failRollback rollbackId error this w = (inr r', this', w') ->
  exists (r : Rollback) (a : AuditLog),
    rollbacks this !! rollbackId = Some r /\
    r' = setError error
           (setCompletedAt (clock w (clockReads w)) (setStatus failed r)) /\
    rollbacks this' = <[rollbackId := r']> (rollbacks this) /\
    sameCounters this this' /\
    logs (auditLog this') = (logs (auditLog this) ++ [a])%list /\
    auditsRollback a "ROLLBACK_FAILED" (rb_initiatedBy r) rollbackId.
Proof.
  unfold failRollback, updateRollback. run_eff.
  destruct (rollbacks this !! rollbackId) as [r |] eqn:Hr; simpl;
    [| discriminate].
  destruct (onAuditLog _ _ _) as [[[e | a] this1] w1] eqn:Hlog; simpl;
    [discriminate |].
  intros H. injection H as <- <- <-.
  apply onAuditLog_log in Hlog as (Hmap & Hsame & Hlogs & Hfields).
  simpl in *. exists r, a.
  split; [reflexivity |]. split; [reflexivity |].
  split.
  { rewrite Hmap.
    rewrite (alter_stored (rollbacks this) _ r (setStatus failed))
      by exact Hr.
    rewrite (alter_stored _ _ (setStatus failed r) (setCompletedAt _))
      by apply lookup_insert_eq.
    rewrite (alter_stored _ _
               (setCompletedAt (clock w (clockReads w)) (setStatus failed r))
               (setError _))
      by apply lookup_insert_eq.
    by rewrite !insert_insert_eq. }
  split; [exact Hsame |].
  split; [exact Hlogs |]. unfold auditsRollback. tauto.
Qed.

Ltac throw_case :=
  match goal with
  | |- context [onAuditLog ?m ?s ?w] =>
      let Hlog := fresh "Hlog" in
      destruct (onAuditLog m s w) as [[[? | ?] ?] ?] eqn:Hlog; simpl;
      [| discriminate];
      apply onAuditLog_log in Hlog as (_ & _ & Hlog); simpl in Hlog;
      let Heq := fresh "Heq" in
      intros Heq; injection Heq as <- <- <-; assumption
  | |- _ =>
      let Heq := fresh "Heq" in
      intros Heq; injection Heq as <- <- <-; reflexivity
  end.

(** A transition call that throws has written no audit entry. *)
Lemma transitions_throw_without_entry (rollbackId : string)
    (this : RollbackService) (w : World) :
  (forall e this' w',
     executeRollback rollbackId this w = (inl e, this', w') ->
     auditLog this' = auditLog this) /\
  (forall arts e this' w',
     completeRollback rollbackId arts this w = (inl e, this', w') ->
     auditLog this' = auditLog this) /\
  (forall error e this' w',
     failRollback rollbackId error this w = (inl e, this', w') ->
     auditLog this' = auditLog this) /\
  (forall cancelledBy e this' w',
     cancelRollback rollbackId cancelledBy this w = (inl e, this', w') ->
     auditLog this' = auditLog this).
Proof.
  split; [| split; [| split]]; intros *.
  - unfold executeRollback, updateRollback. run_eff.
    destruct (rollbacks this !! rollbackId) as [r |]; simpl; [| throw_case].
    destruct (bool_decide (rb_status r = pending)); simpl; throw_case.
  - unfold completeRollback, updateRollback. run_eff.
    destruct (rollbacks this !! rollbackId) as [r |]; simpl; throw_case.
  - unfold failRollback, updateRollback. run_eff.
    destruct (rollbacks this !! rollbackId) as [r |]; simpl; throw_case.
  - unfold cancelRollback, updateRollback. run_eff.
    destruct (rollbacks this !! rollbackId) as [r |]; simpl; [| throw_case].
    destruct (bool_decide (rb_status r = pending)); simpl; throw_case.
Qed.

End MoreGovernorFacts.

Section MoreGovernorFacts2.
Context {host : Host}.

(** [initiateRollback] returns when the record and the id of the audit
    entry are well formed. *)
Lemma initiateRollback_runs (params : InitiateParams) (this : RollbackService)
    (w : World) :
  RollbackSchema_safeParse (newRollback params this w) = true ->
  isUuid (uuids w (S (uuidDraws w))) = true ->
  exists (this' : RollbackService) (a : AuditLog),
    initiateRollback params this w
    = (inr (newRollback params this w), this',
       afterClockRead (afterUuidDraw
         (afterClockRead (afterClockRead (afterUuidDraw w))))) /\
    logs (auditLog this') = (logs (auditLog this) ++ [a])%list /\
    auditsRollback a "ROLLBACK_INITIATED" (p_initiatedBy params)
      (uuids w (uuidDraws w)).
Proof.
  intros Hparse Hid.
  unfold initiateRollback, onAuditLog, log, AuditLogSchema_safeParse. run_eff.
  fold (newRollback params this w). rewrite Hparse. simpl.
  rewrite Hid. simpl.
  destruct (onRollbackTriggered this); simpl;
    eexists _, _; (split; [reflexivity |]); simpl;
    (split; [reflexivity |]); unfold auditsRollback; simpl; tauto.
Qed.

(** [executeRollback] returns on a pending record when the id of the audit
    entry is well formed. *)
Lemma executeRollback_runs (rollbackId : string) (this : RollbackService)
    (w : World) (r : Rollback) :
  rollbacks this !! rollbackId = Some r ->
  rb_status r = pending ->
  isUuid (uuids w (uuidDraws w)) = true ->
  exists this' : RollbackService,
    executeRollback rollbackId this w
    = (inr (setStatus in_progress r), this', afterClockRead (afterUuidDraw w)).
Proof.
  intros Hr Hs Hid.
  unfold executeRollback, updateRollback, onAuditLog, log,
    AuditLogSchema_safeParse.
  run_eff. rewrite Hr. simpl.
  rewrite bool_decide_eq_true_2 by exact Hs. simpl.
  rewrite Hid. simpl. eauto.
Qed.

(** X14 ([emergencyRollback]).  [emergencyRollback] consults neither the
    cooldown nor the hourly count nor the configuration: on every service
    without a callback, whatever its count, its last rollback time and its
    limits, when the three uuids it draws are well formed, it returns a
    manual record in progress stored under its id, raises the count by one,
    sets [lastRollbackTime] to the reading of the clock that follows the one
    stamped on the record, and appends the entries ROLLBACK_INITIATED, by
    the caller, and ROLLBACK_IN_PROGRESS, by 'system'. *)
Theorem emergencyRollback_ignores_the_gates
    (initiatedBy targetVersion description : string)
    (this : RollbackService) (w : World) :
  onRollbackTriggered this = false ->
  isUuid (uuids w (uuidDraws w)) = true ->
  isUuid (uuids w (S (uuidDraws w))) = true ->
  isUuid (uuids w (S (S (uuidDraws w)))) = true ->
  exists (r : Rollback) (this' : RollbackService) (w' : World)
         (a1 a2 : AuditLog),
    emergencyRollback initiatedBy targetVersion description this w
    = (inr r, this', w') /\
    rb_id r = uuids w (uuidDraws w) /\
    rb_status r = in_progress /\
    rb_trigger r = manual /\
    rb_reason r = manual_request /\
    rb_targetVersion r = targetVersion /\
    rb_timestamp r = clock w (clockReads w) /\
    rollbacks this' !! rb_id r = Some r /\
    rollbackCountLastHour this' = rollbackCountLastHour this + 1 /\
    lastRollbackTime this' = clock w (S (clockReads w)) /\
    logs (auditLog this') = (logs (auditLog this) ++ [a1; a2])%list /\
    auditsRollback a1 "ROLLBACK_INITIATED" initiatedBy (rb_id r) /\
    auditsRollback a2 "ROLLBACK_IN_PROGRESS" "system" (rb_id r).
Proof.
  intros _ Hid1 Hid2 Hid3.
  set (params := {| p_targetVersion := targetVersion; p_trigger := manual;
                    p_triggerReason := manual_request;
                    p_initiatedBy := initiatedBy;
                    p_description := Some description;
                    p_targetCommitId := None |}).
  destruct (initiateRollback_runs params this w) as (this1 & a1 & Hinit & Hlogs1 & Ha1).
  { unfold RollbackSchema_safeParse. simpl. by rewrite Hid1. }
  { exact Hid2. }
  pose proof (initiateRollback_returns _ _ _ _ _ _ Hinit)
    as (_ & _ & Hmap1 & Hcfg1 & Hlast1 & Hcount1).
  set (r0 := newRollback params this w) in *.
  set (w1 := afterClockRead (afterUuidDraw
               (afterClockRead (afterClockRead (afterUuidDraw w))))) in *.
  destruct (executeRollback_runs (rb_id r0) this1 w1 r0) as (this2 & Hexec).
  { rewrite Hmap1. apply lookup_insert_eq. }
  { reflexivity. }
  { exact Hid3. }
  pose proof (executeRollback_returns _ _ _ _ _ _ Hexec)
    as (r & a2 & Hr & _ & _ & Hmap2 & (_ & Hlast2 & Hcount2 & _) & Hlogs2 & Ha2).
  exists (setStatus in_progress r0), this2, (afterClockRead (afterUuidDraw w1)),
    a1, a2.
  split.
  { unfold emergencyRollback, bind. fold params. rewrite Hinit.
    fold r0. rewrite Hexec. reflexivity. }
  simpl.
  split; [reflexivity |]. split; [reflexivity |]. split; [reflexivity |].
  split; [reflexivity |]. split; [reflexivity |]. split; [reflexivity |].
  split; [rewrite Hmap2; apply lookup_insert_eq |].
  split; [congruence |]. split; [congruence |].
  split; [rewrite Hlogs2, Hlogs1, <- app_assoc; reflexivity |].
  split; assumption.
Qed.

(** A call of [checkAndTriggerRollback] during the cooldown. *)
Lemma checkAndTriggerRollback_cooling (metrics : RollbackMetrics)
    (this : RollbackService) (w : World) :
  (inject_Z (clock w (clockReads w) - lastRollbackTime this) / 1000
   < cooldownSeconds (rollbackConfig this))%Q ->
  checkAndTriggerRollback metrics this w = (inr None, this, afterClockRead w).
Proof.
  intros Hcool. apply Qlt_bool_true in Hcool.
  unfold checkAndTriggerRollback. run_eff. by rewrite Hcool.
Qed.

(** X15 (manual rollbacks and the limits of automated ones).  A manual
    rollback counts against the automated ones.  After [emergencyRollback]
    has returned on a service without a callback, the count is one higher;
    the record is stamped with one reading of the clock ([new Date()]) and
    [lastRollbackTime] is the reading after it ([Date.now()]), not the time
    of the record; and [checkAndTriggerRollback] creates no record, whatever
    the metrics, while the clock is within the cooldown of
    [lastRollbackTime]. *)
Theorem manual_rollback_starts_the_cooldown
    (initiatedBy targetVersion description : string)
    (this this' : RollbackService) (w w' : World) (r : Rollback) :
  onRollbackTriggered this = false ->
  emergencyRollback initiatedBy targetVersion description this w
  = (inr r, this', w') ->
  rollbackCountLastHour this' = rollbackCountLastHour this + 1 /\
  rb_timestamp r = clock w (clockReads w) /\
  lastRollbackTime this' = clock w (S (clockReads w)) /\
  forall (metrics : RollbackMetrics) (w2 : World),
    (inject_Z (clock w2 (clockReads w2) - lastRollbackTime this') / 1000
     < cooldownSeconds (rollbackConfig this'))%Q ->
    checkAndTriggerRollback metrics this' w2
    = (inr None, this', afterClockRead w2).
Proof.
  intros _. unfold emergencyRollback, bind, ret.
  destruct (initiateRollback _ this w) as [[[e | r0] this1] w1] eqn:Hinit;
    [discriminate |].
  destruct (executeRollback (rb_id r0) this1 w1) as [[[e | r1] this2] w2]
    eqn:Hexec; [discriminate |].
  intros H. injection H as <- <- <-.
  apply initiateRollback_returns in Hinit
    as (Hr0 & _ & Hmap & Hcfg & Hlast & Hcount).
  apply executeRollback_returns in Hexec
    as (r & a & Hstored & _ & -> & _ & (Hcfg2 & Hlast2 & Hcount2 & _) & _).
  rewrite Hmap, lookup_insert_eq in Hstored. injection Hstored as <-.
  split; [congruence |].
  split; [by rewrite Hr0 |].
  split; [congruence |].
  intros metrics w3 Hcool. by apply checkAndTriggerRollback_cooling.
Qed.

(** X16 (a malformed commit id).  [initiateRollback] with a
    [targetCommitId] that is no uuid throws "Invalid rollback: ..." after
    it has drawn a uuid and read the clock, and leaves the service as it
    was: no record, no count, no audit entry. *)
Theorem initiateRollback_rejects_malformed_commit_id
    (params : InitiateParams) (this : RollbackService) (w : World)
    (commitId : string) :
  p_targetCommitId params = Some commitId ->
  isUuid commitId = false ->
  initiateRollback params this w
  = (inl (mkError ("Invalid rollback: " ++ zodMessage)), this,
     afterClockRead (afterUuidDraw w)).
Proof.
  intros Hcommit Hbad.
  unfold initiateRollback, RollbackSchema_safeParse. run_eff.
  rewrite Hcommit, Hbad. by rewrite andb_false_r.
Qed.

End MoreGovernorFacts2.

Section MoreGovernorFacts3.
Context {host : Host}.

(** X17 (one audit entry per transition).  Each of [executeRollback],
    [completeRollback], [failRollback] and [cancelRollback] that returns has
    appended exactly one entry about the rollback to the ledger: of action
    ROLLBACK_IN_PROGRESS by 'system', ROLLBACK_COMPLETED and ROLLBACK_FAILED
    by the initiator of the record, ROLLBACK_CANCELLED by the caller.  When
    one of them throws, the ledger is unchanged. *)
Theorem transitions_are_audited (rollbackId : string) (this : RollbackService)
    (w : World) :
  (forall r' this' w',
     executeRollback rollbackId this w = (inr r', this', w') ->
     exists a : AuditLog,
       logs (auditLog this') = (logs (auditLog this) ++ [a])%list /\
       auditsRollback a "ROLLBACK_IN_PROGRESS" "system" rollbackId) /\
  (forall arts r' this' w',
     completeRollback rollbackId arts this w = (inr r', this', w') ->
     exists a : AuditLog,
       logs (auditLog this') = (logs (auditLog this) ++ [a])%list /\
       auditsRollback a "ROLLBACK_COMPLETED" (rb_initiatedBy r') rollbackId) /\
  (forall error r' this' w',
     failRollback rollbackId error this w = (inr r', this', w') ->
     exists a : AuditLog,
       logs (auditLog this') = (logs (auditLog this) ++ [a])%list /\
       auditsRollback a "ROLLBACK_FAILED" (rb_initiatedBy r') rollbackId) /\
  (forall cancelledBy u this' w',
     cancelRollback rollbackId cancelledBy this w = (inr u, this', w') ->
     exists a : AuditLog,
       logs (auditLog this') = (logs (auditLog this) ++ [a])%list /\
       auditsRollback a "ROLLBACK_CANCELLED" cancelledBy rollbackId) /\
  (forall e this' w',
     executeRollback rollbackId this w = (inl e, this', w') ->
     auditLog this' = auditLog this) /\
  (forall arts e this' w',
     completeRollback rollbackId arts this w = (inl e, this', w') ->
     auditLog this' = auditLog this) /\
  (forall error e this' w',
     failRollback rollbackId error this w = (inl e, this', w') ->
     auditLog this' = auditLog this) /\
  (forall cancelledBy e this' w',
     cancelRollback rollbackId cancelledBy this w = (inl e, this', w') ->
     auditLog this' = auditLog this).
Proof.
  split; [| split; [| split; [| split]]].
  - intros r' this' w' Hrun.
    apply executeRollback_returns in Hrun
      as (r & a & _ & _ & _ & _ & _ & Hlogs & Ha). eauto.
  - intros arts r' this' w' Hrun.
    apply completeRollback_returns in Hrun
      as (r & a & _ & -> & _ & _ & Hlogs & Ha). eauto.
  - intros error r' this' w' Hrun.
    apply failRollback_returns in Hrun
      as (r & a & _ & -> & _ & _ & Hlogs & Ha). eauto.
  - intros cancelledBy u this' w' Hrun.
    apply cancelRollback_returns in Hrun
      as (r & a & _ & _ & _ & _ & Hlogs & Ha). eauto.
  - apply transitions_throw_without_entry.
Qed.

(** X18 (what starts and what cancels).  [executeRollback] and
    [cancelRollback] return only for a record stored as pending.
    [executeRollback] stores it as in progress; [cancelRollback] stores it as
    failed, with the error "Cancelled by <caller>" and the time of the call
    as [completedAt].  Neither changes the configuration, the count or
    [lastRollbackTime]. *)
Theorem only_pending_records_start_or_cancel (rollbackId : string)
    (this : RollbackService) (w : World) :
  (forall r' this' w',
     executeRollback rollbackId this w = (inr r', this', w') ->
     exists r : Rollback,
       rollbacks this !! rollbackId = Some r /\
       rb_status r = pending /\
       r' = setStatus in_progress r /\
       rollbacks this' = <[rollbackId := r']> (rollbacks this) /\
       sameCounters this this') /\
  (forall cancelledBy u this' w',
     cancelRollback rollbackId cancelledBy this w = (inr u, this', w') ->
     exists r : Rollback,
       rollbacks this !! rollbackId = Some r /\
       rb_status r = pending /\
       rollbacks this'
       = <[rollbackId :=
             setCompletedAt (clock w (clockReads w))
               (setError ("Cancelled by " ++ cancelledBy)
                  (setStatus failed r))]> (rollbacks this) /\
       sameCounters this this').
Proof.
  split.
  - intros r' this' w' Hrun.
    apply executeRollback_returns in Hrun
      as (r & a & Hr & Hs & Hr' & Hmap & Hsame & _). eauto 10.
  - intros cancelledBy u this' w' Hrun.
    apply cancelRollback_returns in Hrun
      as (r & a & Hr & Hs & Hmap & Hsame & _). eauto 10.
Qed.

End MoreGovernorFacts3.

Section StatisticsFacts.

Lemma count_by_status (l : list Rollback) :
  length l
  = (length (List.filter (fun r => bool_decide (rb_status r = pending)) l)
     + length (List.filter (fun r => bool_decide (rb_status r = in_progress)) l)
     + length (List.filter (fun r => bool_decide (rb_status r = completed)) l)
     + length (List.filter (fun r => bool_decide (rb_status r = failed)) l))%nat.
Proof.
  induction l as [| r l IH]; [reflexivity |].
  simpl. destruct (rb_status r); simpl; lia.
Qed.

Lemma count_by_trigger (l : list Rollback) :
  length l
  = (length (List.filter (fun r => bool_decide (rb_trigger r = automated)) l)
     + length (List.filter (fun r => bool_decide (rb_trigger r = manual)) l))%nat.
Proof.
  induction l as [| r l IH]; [reflexivity |].
  simpl. destruct (rb_trigger r); simpl; lia.
Qed.

Lemma count_completed_with_date (l : list Rollback) :
  (length (List.filter
             (fun r => bool_decide (rb_status r = completed)
                       && bool_decide (is_Some (rb_completedAt r))) l)
   <= length (List.filter (fun r => bool_decide (rb_status r = completed)) l))%nat
  /\
  (Forall (fun r => rb_status r = completed -> is_Some (rb_completedAt r)) l ->
   length (List.filter
             (fun r => bool_decide (rb_status r = completed)
                       && bool_decide (is_Some (rb_completedAt r))) l)
   = length (List.filter (fun r => bool_decide (rb_status r = completed)) l)).
Proof.
  induction l as [| r l [IHle IHeq]]; [split; reflexivity |].
  split.
  - simpl. destruct (bool_decide (rb_status r = completed)); simpl; [| exact IHle].
    destruct (bool_decide (is_Some (rb_completedAt r))); simpl; lia.
  - intros Hall. inversion Hall as [| ? ? Hr Hl]; subst. simpl.
    destruct (bool_decide (rb_status r = completed)) eqn:Hs; simpl; [| auto].
    apply bool_decide_eq_true_1 in Hs.
    rewrite (bool_decide_eq_true_2 _ (Hr Hs)). simpl. by rewrite IHeq.
Qed.

(** X19 ([getStatistics]).  [total] is the number of records; the
    automated and the manual records add up to it; the four counts by status
    add up to at most [total], and to [total] exactly when every completed
    record has its [completedAt]. *)
Theorem getStatistics_counts_add_up (this : RollbackService) :
  let s := getStatistics this in
  stat_total s = size (rollbacks this) /\
  (stat_automatedCount s + stat_manualCount s)%nat = stat_total s /\
  (stat_pending s + stat_inProgress s + stat_completed s + stat_failed s
   <= stat_total s)%nat /\
  ((forall (id : string) (r : Rollback),
      rollbacks this !! id = Some r ->
      rb_status r = completed -> is_Some (rb_completedAt r)) ->
   (stat_pending s + stat_inProgress s + stat_completed s + stat_failed s)%nat
   = stat_total s).
Proof.
  unfold getStatistics. cbv zeta. simpl.
  set (all := rollbackValues this).
  pose proof (count_by_status all) as Hstatus.
  pose proof (count_by_trigger all) as Htrigger.
  pose proof (count_completed_with_date all) as [Hle Heq].
  split; [| split; [| split]].
  - unfold all, rollbackValues. by rewrite length_fmap, length_map_to_list.
  - lia.
  - lia.
  - intros Hdated. rewrite Heq; [lia |].
    apply Forall_forall. intros r Hr.
    unfold all, rollbackValues in Hr.
    apply list_elem_of_fmap in Hr as ([id r'] & -> & Hin).
    apply elem_of_map_to_list in Hin. simpl. by apply (Hdated id).
Qed.

End StatisticsFacts.

Section ServedFacts.
Context {host : Host}.

Lemma wellKept_same (this this' : RollbackService) :
  rollbacks this' = rollbacks this ->
  rollbackCountLastHour this' = rollbackCountLastHour this ->
  wellKept this -> wellKept this'.
Proof. unfold wellKept. intros -> ->. tauto. Qed.

Lemma wellKept_alter (this this' : RollbackService) (id : string)
    (f : Rollback -> Rollback) :
  (forall r, rollbacks this !! id = Some r ->
             recordKept id r -> recordKept id (f r)) ->
  rollbacks this' = alter f id (rollbacks this) ->
  rollbackCountLastHour this' = rollbackCountLastHour this ->
  wellKept this -> wellKept this'.
Proof.
  intros Hf Hmap Hcount [Hrec Hsize]. split.
  - intros j r. rewrite Hmap.
    destruct (decide (id = j)) as [<- | Hne].
    + rewrite lookup_alter_eq.
      destruct (rollbacks this !! id) as [r0 |] eqn:Hr0; [| discriminate].
      simpl. intros H. injection H as <-. apply Hf; [reflexivity |].
      apply Hrec, Hr0.
    + rewrite lookup_alter_ne by exact Hne. apply Hrec.
  - rewrite Hmap, Hcount.
    assert (Hdom : size (alter f id (rollbacks this)) = size (rollbacks this)).
    { rewrite <- !size_dom. f_equal. apply dom_alter_L. }
    by rewrite Hdom.
Qed.

Lemma wellKept_insert (this this' : RollbackService) (r : Rollback) :
  is_Some (rb_completedAt r) <-> terminal r ->
  rollbacks this' = <[rb_id r := r]> (rollbacks this) ->
  rollbackCountLastHour this' = rollbackCountLastHour this + 1 ->
  wellKept this -> wellKept this'.
Proof.
  intros Hr Hmap Hcount [Hrec Hsize]. split.
  - intros j r'. rewrite Hmap.
    destruct (decide (rb_id r = j)) as [<- | Hne].
    + rewrite lookup_insert_eq. intros H. injection H as <-. by split.
    + rewrite lookup_insert_ne by exact Hne. apply Hrec.
  - rewrite Hmap, Hcount.
    pose proof (map_size_insert (rb_id r) r (rollbacks this)) as Hs.
    revert Hs. destruct (rollbacks this !! rb_id r); simpl; unfold id;
      intros Hs; lia.
Qed.

Lemma alter_twice (m : gmap string Rollback) (id : string)
    (f g : Rollback -> Rollback) :
  alter f id (alter g id m) = alter (f ∘ g) id m.
Proof.
  apply map_eq. intros j. destruct (decide (id = j)) as [<- | Hne].
  - rewrite !lookup_alter_eq. by destruct (m !! id).
  - by rewrite !lookup_alter_ne.
Qed.

Lemma terminal_pending (r : Rollback) : rb_status r = pending -> ~ terminal r.
Proof. unfold terminal. intros ->. intros [H | H]; discriminate. Qed.

Lemma wellKept_initiate (params : InitiateParams) (this : RollbackService)
    (w : World) :
  wellKept this -> wellKept (stateAfter (initiateRollback params this w)).
Proof.
  intros Hkept.
  unfold initiateRollback, onAuditLog, stateAfter. run_eff.
  fold (newRollback params this w).
  destruct (RollbackSchema_safeParse (newRollback params this w)); simpl;
    [| exact Hkept].
  assert (Hnew : is_Some (rb_completedAt (newRollback params this w))
                 <-> terminal (newRollback params this w)).
  { split; [intros [t Ht]; discriminate |].
    intros Ht. by apply terminal_pending in Ht. }
  destruct (log _ _ _) as [[[e | a] al'] w1]; simpl.
  - by eapply (wellKept_insert this _ (newRollback params this w)).
  - destruct (onRollbackTriggered this); simpl;
      by eapply (wellKept_insert this _ (newRollback params this w)).
Qed.

Lemma wellKept_check (metrics : RollbackMetrics) (this : RollbackService)
    (w : World) :
  wellKept this -> wellKept (stateAfter (checkAndTriggerRollback metrics this w)).
Proof.
  intros Hkept. unfold checkAndTriggerRollback, stateAfter. run_eff.
  fold (triggerReasonFor (rollbackConfig this) metrics).
  destruct (Qlt_bool _ (cooldownSeconds _)); simpl; [exact Hkept |].
  destruct (Qle_bool _ _); simpl; [exact Hkept |].
  destruct (triggerReasonFor _ _) as [reason |]; simpl; [| exact Hkept].
  fold (automatedParams reason).
  pose proof (wellKept_initiate (automatedParams reason) this
                (afterClockRead w) Hkept) as Hinit.
  unfold stateAfter in Hinit.
  by destruct (initiateRollback _ _ _) as [[[e | r] this1] w1].
Qed.

Lemma wellKept_execute (rollbackId : string) (this : RollbackService)
    (w : World) :
  wellKept this -> wellKept (stateAfter (executeRollback rollbackId this w)).
Proof.
  intros Hkept.
  unfold executeRollback, updateRollback, onAuditLog, stateAfter. run_eff.
  destruct (rollbacks this !! rollbackId) as [r |] eqn:Hr; simpl;
    [| exact Hkept].
  destruct (bool_decide (rb_status r = pending)) eqn:Hs; simpl;
    [| exact Hkept].
  apply bool_decide_eq_true_1 in Hs.
  assert (Hstep : forall r0, rollbacks this !! rollbackId = Some r0 ->
            recordKept rollbackId r0 ->
            recordKept rollbackId (setStatus in_progress r0)).
  { intros r0 Hr0 [Hid Hdone]. rewrite Hr in Hr0. injection Hr0 as <-.
    split; [exact Hid |]. simpl. unfold terminal. simpl.
    split; [| intros [H | H]; discriminate].
    intros Hsome. apply Hdone in Hsome. by apply terminal_pending in Hsome. }
  destruct (log _ _ _) as [[[e | a] al'] w1]; simpl;
    by eapply (wellKept_alter this _ rollbackId (setStatus in_progress)).
Qed.

Lemma wellKept_complete (rollbackId : string) (arts : list string)
    (this : RollbackService) (w : World) :
  wellKept this ->
  wellKept (stateAfter (completeRollback rollbackId arts this w)).
Proof.
  intros Hkept.
  unfold completeRollback, updateRollback, onAuditLog, stateAfter. run_eff.
  destruct (rollbacks this !! rollbackId) as [r |] eqn:Hr; simpl;
    [| exact Hkept].
  destruct (log _ _ _) as [[[e | a] al'] w1]; simpl;
    (eapply (wellKept_alter this _ rollbackId
               (setAffectedArtifacts arts
                ∘ setCompletedAt (clock w (clockReads w))
                ∘ setStatus completed));
     [ intros r0 _ [Hid _]; split; [exact Hid |]; simpl; unfold terminal; simpl;
       split; eauto
     | simpl; by rewrite !alter_twice
     | reflexivity
     | exact Hkept ]).
Qed.

Lemma wellKept_fail (rollbackId error : string) (this : RollbackService)
    (w : World) :
  wellKept this -> wellKept (stateAfter (failRollback rollbackId error this w)).
Proof.
  intros Hkept.
  unfold failRollback, updateRollback, onAuditLog, stateAfter. run_eff.
  destruct (rollbacks this !! rollbackId) as [r |] eqn:Hr; simpl;
    [| exact Hkept].
  destruct (log _ _ _) as [[[e | a] al'] w1]; simpl;
    (eapply (wellKept_alter this _ rollbackId
               (setError error
                ∘ setCompletedAt (clock w (clockReads w))
                ∘ setStatus failed));
     [ intros r0 _ [Hid _]; split; [exact Hid |]; simpl; unfold terminal; simpl;
       split; eauto
     | simpl; by rewrite !alter_twice
     | reflexivity
     | exact Hkept ]).
Qed.

Lemma wellKept_cancel (rollbackId cancelledBy : string)
    (this : RollbackService) (w : World) :
  wellKept this ->
  wellKept (stateAfter (cancelRollback rollbackId cancelledBy this w)).
Proof.
  intros Hkept.
  unfold cancelRollback, updateRollback, onAuditLog, stateAfter. run_eff.
  destruct (rollbacks this !! rollbackId) as [r |] eqn:Hr; simpl;
    [| exact Hkept].
  destruct (bool_decide (rb_status r = pending)); simpl; [| exact Hkept].
  destruct (log _ _ _) as [[[e | a] al'] w1]; simpl;
    (eapply (wellKept_alter this _ rollbackId
               (setCompletedAt (clock w (clockReads w))
                ∘ setError ("Cancelled by " ++ cancelledBy)
                ∘ setStatus failed));
     [ intros r0 _ [Hid _]; split; [exact Hid |]; simpl; unfold terminal; simpl;
       split; eauto
     | simpl; by rewrite !alter_twice
     | reflexivity
     | exact Hkept ]).
Qed.

Lemma wellKept_emergency (initiatedBy targetVersion description : string)
    (this : RollbackService) (w : World) :
  wellKept this ->
  wellKept (stateAfter
              (emergencyRollback initiatedBy targetVersion description this w)).
Proof.
  intros Hkept. unfold emergencyRollback, bind, ret.
  match goal with
  | |- context [initiateRollback ?p this w] =>
      pose proof (wellKept_initiate p this w Hkept) as Hinit;
      destruct (initiateRollback p this w) as [[[e | r] this1] w1]
  end; [exact Hinit |].
  unfold stateAfter in Hinit. simpl in Hinit.
  pose proof (wellKept_execute (rb_id r) this1 w1 Hinit) as Hexec.
  by destruct (executeRollback (rb_id r) this1 w1) as [[[e | r'] this2] w2].
Qed.

Lemma Served_wellKept (this : RollbackService) : Served this -> wellKept this.
Proof.
  induction 1 as [cfg a hook | c this w _ IH | a this _ IH].
  - split; simpl; [intros id r H; by rewrite lookup_empty in H |].
    by rewrite map_size_empty.
  - destruct c; simpl.
    + by apply wellKept_check.
    + by apply wellKept_initiate.
    + by apply wellKept_execute.
    + by apply wellKept_complete.
    + by apply wellKept_fail.
    + by apply wellKept_cancel.
    + by apply wellKept_emergency.
  - by eapply wellKept_same; [| | exact IH].
Qed.

(** X20 (invariants of the rollback service).  On a service made by the
    constructor and any calls of its methods, returning or throwing, at any
    readings of the clock: every record is stored under its own id, has a
    [completedAt] exactly when it is completed or failed, the number of
    records is at most [rollbackCountLastHour], and the four counts by status
    of [getStatistics()] add up to [total]. *)
Theorem served_records_are_well_kept (this : RollbackService) :
  Served this ->
  (forall (id : string) (r : Rollback),
     getRollback id this = Some r ->
     rb_id r = id /\ (is_Some (rb_completedAt r) <-> terminal r)) /\
  Z.of_nat (size (rollbacks this)) <= rollbackCountLastHour this /\
  let s := getStatistics this in
  (stat_pending s + stat_inProgress s + stat_completed s + stat_failed s)%nat
  = stat_total s.
Proof.
  intros Hserved. apply Served_wellKept in Hserved as [Hrec Hsize].
  split; [exact Hrec |]. split; [exact Hsize |].
  pose proof (count_by_status (rollbackValues this)) as Hstatus.
  pose proof (count_completed_with_date (rollbackValues this)) as [_ Heq].
  unfold getStatistics. cbv zeta. simpl.
  rewrite Heq; [lia |].
  apply Forall_forall. intros r Hr.
  unfold rollbackValues in Hr.
  apply list_elem_of_fmap in Hr as ([id r'] & -> & Hin).
  apply elem_of_map_to_list in Hin. simpl. intros Hs.
  apply (Hrec id r' Hin). by left.
Qed.

End ServedFacts.

Section BranchNameFacts.

Lemma getBranchType_main (name : string) :
  getBranchType name = B_main <-> name = "main".
Proof.
  unfold getBranchType. split.
  - repeat case_bool_decide; auto; try discriminate;
      repeat (destruct (testPrefixPattern _ _)); discriminate.
  - intros ->. reflexivity.
Qed.

Lemma getBranchType_develop (name : string) :
  getBranchType name = B_develop <-> name = "develop".
Proof.
  unfold getBranchType. split.
  - repeat case_bool_decide; auto; try discriminate;
      repeat (destruct (testPrefixPattern _ _)); discriminate.
  - intros ->. reflexivity.
Qed.

(** X21 (branch names).  [getBranchType] gives 'main' for the name
    'main' only and 'develop' for the name 'develop' only, so the two
    branch-specific rules at the end of [validateBranchName] never fire: it
    never reports their errors, and a name is valid exactly when it is not
    blank, holds no '..', neither starts nor ends with '/', holds no '//'
    and none of the eight forbidden characters. *)
Theorem validateBranchName_branch_rules_never_fire (name : string) :
  (getBranchType name = B_main <-> name = "main") /\
  (getBranchType name = B_develop <-> name = "develop") /\
  name_error (validateBranchName name)
    <> Some ("Main branch must be named " ++ dquote ++ "main" ++ dquote) /\
  name_error (validateBranchName name)
    <> Some ("Develop branch must be named " ++ dquote ++ "develop" ++ dquote) /\
  (name_valid (validateBranchName name) = true <->
   isBlank name = false /\
   includes ".." name = false /\
   String.prefix "/" name = false /\
   endsWithChar "/"%char name = false /\
   includes "//" name = false /\
   firstInvalidChar name invalidChars = None).
Proof.
  pose proof (getBranchType_main name) as Hmain.
  pose proof (getBranchType_develop name) as Hdev.
  split; [exact Hmain |]. split; [exact Hdev |].
  assert (Hrules :
    (bool_decide (getBranchType name = B_main)
       && negb (bool_decide (name = "main")) = false) /\
    (bool_decide (getBranchType name = B_develop)
       && negb (bool_decide (name = "develop")) = false)).
  { split; repeat case_bool_decide; simpl; auto; tauto. }
  destruct Hrules as [Hr1 Hr2].
  unfold validateBranchName. rewrite Hr1, Hr2.
  assert (Hne : forall a b : string, a <> b -> Some a <> Some b)
    by (intros a b Hab [=]; auto).
  destruct (isBlank name) eqn:H1; cbn [name_valid name_error nameInvalid];
    [repeat split; try (apply Hne; intros H; vm_compute in H; discriminate);
       try discriminate; intros H; decompose [and] H; discriminate |].
  destruct (includes ".." name) eqn:H2;
    cbn [name_valid name_error nameInvalid];
    [repeat split; try (apply Hne; intros H; vm_compute in H; discriminate);
       try discriminate; intros H; decompose [and] H; discriminate |].
  destruct (String.prefix "/" name) eqn:H3;
    cbn [name_valid name_error nameInvalid orb];
    [repeat split; try (apply Hne; intros H; vm_compute in H; discriminate);
       try discriminate; intros H; decompose [and] H; discriminate |].
  destruct (endsWithChar "/" name) eqn:H4;
    cbn [name_valid name_error nameInvalid];
    [repeat split; try (apply Hne; intros H; vm_compute in H; discriminate);
       try discriminate; intros H; decompose [and] H; discriminate |].
  destruct (includes "//" name) eqn:H5;
    cbn [name_valid name_error nameInvalid];
    [repeat split; try (apply Hne; intros H; vm_compute in H; discriminate);
       try discriminate; intros H; decompose [and] H; discriminate |].
  destruct (firstInvalidChar name invalidChars) eqn:H6;
    cbn [name_valid name_error nameInvalid];
    [repeat split; try (apply Hne; intros H; vm_compute in H; discriminate);
       try discriminate; intros H; decompose [and] H; discriminate |].
  repeat split; discriminate.
Qed.

End BranchNameFacts.

Section BranchFacts.
Context {host : Host}.

(** A call of [this.auditLog.log(entry)] from the branch manager. *)
Lemma onBranchAuditLog_log (entry : AuditLogEntry) (this : BranchManager)
    (w : World) :
  exists res a' w',
    onBranchAuditLog (log entry) this w = (res, setBranchAuditLog a' this, w').
Proof.
  unfold onBranchAuditLog.
  destruct (log entry (branchAuditLog this) w) as [[res a'] w'].
  eauto.
Qed.

Lemma onBranchAuditLog_log_returns (entry : AuditLogEntry)
    (this : BranchManager) (w : World) :
  isUuid (uuids w (uuidDraws w)) = true ->
  exists a a',
    onBranchAuditLog (log entry) this w
    = (inr a, setBranchAuditLog a' this, afterClockRead (afterUuidDraw w)) /\
    logs a' = (logs (branchAuditLog this) ++ [a])%list /\
    log_action a = entry_action entry /\
    log_actor a = entry_actor entry /\
    log_target a = entry_target entry.
Proof.
  intros Hid. unfold onBranchAuditLog, log, AuditLogSchema_safeParse.
  run_eff. rewrite Hid. simpl. eexists _, _. split; [reflexivity |].
  simpl. auto.
Qed.

(** What [createBranch] does to the stored branches. *)
Lemma createBranch_branches (name createdBy : string)
    (baseBranch description : option string) (this : BranchManager)
    (w : World) :
  let this' :=
    stateAfter (createBranch name createdBy baseBranch description this w) in
  branchProtection this' = branchProtection this /\
  currentBranch this' = currentBranch this /\
  (branches this' = branches this \/
   branches this !! name = None /\
   exists b, branches this' = <[name := b]> (branches this) /\
     br_name b = name /\ br_type b = getBranchType name).
Proof.
  unfold createBranch, stateAfter.
  destruct (name_valid (validateBranchName name)); run_eff; [| auto].
  case_bool_decide as Hex; simpl; [auto |].
  assert (Hnone : branches this !! name = None).
  { destruct (branches this !! name); [exfalso; apply Hex; eauto | done]. }
  match goal with |- context [negb (BranchSchema_safeParse ?b)] =>
    destruct (BranchSchema_safeParse b) eqn:Hparse; simpl; [| auto];
    set (branch := b) in * end.
  match goal with |- context [onBranchAuditLog (log ?e) ?s ?w1] =>
    destruct (onBranchAuditLog_log e s w1) as (res & a' & w' & ->) end.
  destruct res; simpl; (split; [done |]; split; [done |]); right;
    (split; [done |]); exists branch; auto.
Qed.

Lemma deleteBranch_branches (name deletedBy : string) (this : BranchManager)
    (w : World) :
  let this' := stateAfter (deleteBranch name deletedBy this w) in
  branchProtection this' = branchProtection this /\
  currentBranch this' = currentBranch this /\
  (branches this' = branches this \/
   exists b, branches this !! name = Some b /\ br_protected b = false /\
     branches this' = delete name (branches this)).
Proof.
  unfold deleteBranch, stateAfter. run_eff.
  destruct (branches this !! name) as [b |] eqn:Hb; simpl; [| auto].
  destruct (br_protected b) eqn:Hp; simpl; [auto |].
  match goal with |- context [onBranchAuditLog (log ?e) ?s ?w1] =>
    destruct (onBranchAuditLog_log e s w1) as (res & a' & w' & ->) end.
  destruct res; simpl; (split; [done |]; split; [done |]); right; eauto.
Qed.

Lemma updateHeadCommit_branches (branchName commitId updatedBy : string)
    (this : BranchManager) (w : World) :
  let this' :=
    stateAfter (updateHeadCommit branchName commitId updatedBy this w) in
  branchProtection this' = branchProtection this /\
  currentBranch this' = currentBranch this /\
  (branches this' = branches this \/
   branches this'
   = alter (setHeadCommit commitId) branchName (branches this)).
Proof.
  unfold updateHeadCommit, stateAfter, canPushToProtected. run_eff.
  destruct (branches this !! branchName) as [b |] eqn:Hb; simpl; [| auto].
  rewrite andb_false_r.
  match goal with |- context [onBranchAuditLog (log ?e) ?s ?w1] =>
    destruct (onBranchAuditLog_log e s w1) as (res & a' & w' & ->) end.
  destruct res; simpl; auto.
Qed.

Lemma setCurrentBranch_branches (name : string) (this : BranchManager)
    (w : World) :
  branches (stateAfter (setCurrentBranch name this w)) = branches this.
Proof.
  unfold setCurrentBranch, stateAfter. run_eff.
  case_bool_decide; reflexivity.
Qed.

Lemma branchesKept_insert (m : gmap string Branch) (name : string)
    (b : Branch) :
  branchesKept m -> m !! name = None ->
  br_name b = name -> br_type b = getBranchType name ->
  branchesKept (<[name := b]> m).
Proof.
  intros [(b0 & Hmain & Hp) Hall] Hnone Hn Ht. split.
  - exists b0. split; [| done]. rewrite lookup_insert_ne; [done |].
    intros ->. congruence.
  - intros n b'. destruct (decide (name = n)) as [-> | Hne].
    + rewrite lookup_insert_eq. intros [= <-]. auto.
    + rewrite lookup_insert_ne by done. apply Hall.
Qed.

Lemma branchesKept_delete (m : gmap string Branch) (name : string)
    (b : Branch) :
  branchesKept m -> m !! name = Some b -> br_protected b = false ->
  branchesKept (delete name m).
Proof.
  intros [(b0 & Hmain & Hp) Hall] Hb Hu. split.
  - exists b0. split; [| done]. rewrite lookup_delete_ne; [done |].
    intros ->. congruence.
  - intros n b'. intros H. apply lookup_delete_Some in H as [_ H].
    by apply Hall.
Qed.

Lemma branchesKept_alter (m : gmap string Branch) (name commitId : string) :
  branchesKept m -> branchesKept (alter (setHeadCommit commitId) name m).
Proof.
  intros [(b0 & Hmain & Hp) Hall]. split.
  - destruct (decide (name = "main")) as [-> | Hne].
    + exists (setHeadCommit commitId b0).
      rewrite lookup_alter_eq, Hmain. done.
    + exists b0. by rewrite lookup_alter_ne.
  - intros n b'. destruct (decide (name = n)) as [-> | Hne].
    + rewrite lookup_alter_eq.
      destruct (m !! n) as [b |] eqn:Hb; simpl; [| done].
      intros [= <-]. simpl. by apply Hall.
    + rewrite lookup_alter_ne by done. apply Hall.
Qed.

Lemma Managed_branchesKept (this : BranchManager) :
  Managed this -> branchesKept (branches this).
Proof.
  induction 1 as [protection a w | c this w Hm IH | a this Hm IH].
  - simpl. split.
    + eexists. rewrite lookup_insert_ne by done.
      rewrite lookup_insert_eq. done.
    + intros name b.
      destruct (decide (name = "develop")) as [-> | Hd].
      { rewrite lookup_insert_eq. intros [= <-]. done. }
      rewrite lookup_insert_ne by done.
      destruct (decide (name = "main")) as [-> | Hm].
      { rewrite lookup_insert_eq. intros [= <-]. done. }
      rewrite lookup_insert_ne by done. by rewrite lookup_empty.
  - destruct c as [name who base desc | name who | name commitId who | name];
      simpl.
    + destruct (createBranch_branches name who base desc this w)
        as (_ & _ & [-> | (Hnone & b & -> & Hn & Ht)]); [done |].
      by apply branchesKept_insert.
    + destruct (deleteBranch_branches name who this w)
        as (_ & _ & [-> | (b & Hb & Hp & ->)]); [done |].
      by eapply branchesKept_delete.
    + destruct (updateHeadCommit_branches name commitId who this w)
        as (_ & _ & [-> | ->]); [done |].
      by apply branchesKept_alter.
    + by rewrite setCurrentBranch_branches.
  - exact IH.
Qed.

(** X22 (invariants of the branch manager).  On a manager made by the
    constructor and any calls of [createBranch], [deleteBranch],
    [updateHeadCommit] and [setCurrentBranch], returning or throwing: the
    branch 'main' exists, is protected and of type 'main'; every branch is
    stored under its own name with the type [getBranchType] gives that
    name; [deleteBranch('main')] throws "Cannot delete protected branch" and
    [createBranch('main')] throws "already exists", both leaving the manager
    as it was. *)
Theorem main_branch_is_permanent (this : BranchManager) :
  Managed this ->
  (exists b, getBranch "main" this = Some b /\
     br_protected b = true /\ br_type b = B_main) /\
  (forall name b, getBranch name this = Some b ->
     br_name b = name /\ br_type b = getBranchType name) /\
  (forall (deletedBy : string) (w : World),
     deleteBranch "main" deletedBy this w
     = (inl (mkError ("Cannot delete protected branch "
                      ++ dquote ++ "main" ++ dquote)), this, w)) /\
  (forall (createdBy : string) (baseBranch description : option string)
          (w : World),
     createBranch "main" createdBy baseBranch description this w
     = (inl (mkError (alreadyExistsMessage "main")), this, w)).
Proof.
  intros Hm. apply Managed_branchesKept in Hm as [(b & Hmain & Hp) Hall].
  unfold getBranch. split; [| split; [exact Hall | split]].
  - exists b. destruct (Hall _ _ Hmain) as [_ Ht]. auto.
  - intros who w. unfold deleteBranch. run_eff. rewrite Hmain. simpl.
    by rewrite Hp.
  - intros who base desc w. unfold createBranch.
    change (name_valid (validateBranchName "main")) with true. run_eff.
    rewrite Hmain. rewrite bool_decide_eq_true_2 by eauto. reflexivity.
Qed.

End BranchFacts.

Section MoreBranchFacts.
Context {host : Host}.

(** X23 ([createBranch]).  For a valid name that is not taken,
    [createBranch] returns as soon as the head commit it copies is [null] or
    a uuid and the audit entry is accepted; it does not ask that the base
    branch exist.  The branch it stores under the name has the type
    [getBranchType] gives, the base given (or the default base of its type),
    the head commit of the base when the base exists and is not empty,
    [null] otherwise, and is protected exactly when its name is 'main',
    'develop' or a key of [branchProtection], whatever boolean the key
    maps to.  No other branch changes. *)
Theorem createBranch_records_base_unchecked (name createdBy : string)
    (baseBranch description : option string) (this : BranchManager)
    (w : World) :
  name_valid (validateBranchName name) = true ->
  getBranch name this = None ->
  match headOf (baseOf name baseBranch) this with
  | Some c => isUuid c = true
  | None => True
  end ->
  isUuid (uuids w (uuidDraws w)) = true ->
  exists (b : Branch) (this' : BranchManager),
    createBranch name createdBy baseBranch description this w
    = (inr b, this', afterClockRead (afterUuidDraw (afterClockRead w))) /\
    getBranch name this' = Some b /\
    (forall other, other <> name ->
       getBranch other this' = getBranch other this) /\
    br_name b = name /\
    br_type b = getBranchType name /\
    br_baseBranch b = Some (baseOf name baseBranch) /\
    br_headCommit b = headOf (baseOf name baseBranch) this /\
    (getBranch (baseOf name baseBranch) this = None ->
       br_headCommit b = None) /\
    (br_protected b = true <->
     name = "main" \/ name = "develop" \/
     name ∈ map fst (branchProtection this)) /\
    br_createdAt b = clock w (clockReads w).
Proof.
  unfold getBranch, headOf, baseOf.
  intros Hvalid Hnone Hhead Hid.
  unfold createBranch. rewrite Hvalid. run_eff. rewrite Hnone.
  rewrite bool_decide_eq_false_2 by (intros [? ?]; discriminate).
  set (base := match truthyString baseBranch with
               | Some b => b
               | None => getDefaultBaseBranch (getBranchType name)
               end) in *.
  set (head := match branches this !! base with
               | Some baseBranchObj => truthyString (br_headCommit baseBranchObj)
               | None => None
               end) in *.
  unfold BranchSchema_safeParse. simpl.
  assert (Hparse : match head with Some c => isUuid c | None => true end = true)
    by (destruct head; auto).
  rewrite Hparse. simpl.
  match goal with |- context [onBranchAuditLog (log ?e) ?s ?w1] =>
    destruct (onBranchAuditLog_log_returns e s w1) as (a & a' & -> & _)
  end; [exact Hid |].
  simpl. eexists _, _. split; [reflexivity |]. simpl.
  split; [by rewrite lookup_insert_eq |].
  split; [intros other Hne; by rewrite lookup_insert_ne |].
  do 4 (split; [reflexivity |]).
  split; [intros Hb; subst head; by rewrite Hb |].
  split; [| reflexivity].
  rewrite !orb_true_iff, !bool_decide_eq_true.
  rewrite existsb_exists. split.
  - intros [-> | [-> | (p & Hin & Hp)]]; auto.
    apply bool_decide_eq_true in Hp. subst p. right; right.
    by apply list_elem_of_In.
  - intros [-> | [-> | Hin]]; auto. right; right. exists name.
    split; [by apply list_elem_of_In | by apply bool_decide_eq_true].
Qed.

(** X24 ([deleteBranch] and the current branch).  [deleteBranch] does
    not look at the current branch: deleting the unprotected branch that is
    current returns, after which [getCurrentBranch()] still names it,
    [getBranch] of that name is [undefined] and [setCurrentBranch] to it
    throws "does not exist". *)
Theorem deleteBranch_leaves_current_branch_dangling (name deletedBy : string)
    (b : Branch) (this : BranchManager) (w : World) :
  getBranch name this = Some b ->
  br_protected b = false ->
  getCurrentBranch this = name ->
  isUuid (uuids w (uuidDraws w)) = true ->
  exists this' : BranchManager,
    deleteBranch name deletedBy this w
    = (inr tt, this', afterClockRead (afterUuidDraw w)) /\
    getCurrentBranch this' = name /\
    getBranch (getCurrentBranch this') this' = None /\
    forall w' : World,
      setCurrentBranch name this' w'
      = (inl (mkError (doesNotExistMessage name)), this', w').
Proof.
  unfold getBranch, getCurrentBranch. intros Hb Hp Hcur Hid.
  unfold deleteBranch. run_eff. rewrite Hb. simpl. rewrite Hp. simpl.
  match goal with |- context [onBranchAuditLog (log ?e) ?s ?w1] =>
    destruct (onBranchAuditLog_log_returns e s w1) as (a & a' & -> & _)
  end; [exact Hid |].
  simpl. eexists. split; [reflexivity |]. simpl.
  split; [exact Hcur |]. rewrite Hcur.
  split; [by rewrite lookup_delete_eq |].
  intros w'. unfold setCurrentBranch. run_eff.
  rewrite lookup_delete_eq.
  rewrite bool_decide_eq_false_2 by (intros [? ?]; discriminate).
  reflexivity.
Qed.

(** X25 ([getBranchDifference]).  For two stored branches
    [getBranchDifference] returns without changing anything; swapping the
    branches swaps [ahead] and [behind]; both are 0 or 1 and at most one of
    them is 1; both are 0 exactly when both branches have a head commit or
    neither has, so two branches with different head commits are reported as
    equal. *)
Theorem getBranchDifference_compares_presence_only
    (sourceBranch targetBranch : string) (source target : Branch)
    (this : BranchManager) (w : World) :
  getBranch sourceBranch this = Some source ->
  getBranch targetBranch this = Some target ->
  exists d : BranchDifference,
    getBranchDifference sourceBranch targetBranch this w = (inr d, this, w) /\
    getBranchDifference targetBranch sourceBranch this w
    = (inr {| ahead := behind d; behind := ahead d |}, this, w) /\
    0 <= ahead d /\ 0 <= behind d /\ ahead d + behind d <= 1 /\
    (ahead d = 0 /\ behind d = 0 <->
     (is_Some (truthyString (br_headCommit source)) <->
      is_Some (truthyString (br_headCommit target)))).
Proof.
  unfold getBranch. intros Hs Ht.
  unfold getBranchDifference. run_eff. rewrite Hs, Ht.
  eexists. split; [reflexivity |]. simpl. split; [reflexivity |].
  unfold headCount.
  assert (Hn : ~ is_Some (@None string)) by (intros [? ?]; discriminate).
  destruct (truthyString (br_headCommit source)) as [s |],
           (truthyString (br_headCommit target)) as [t |]; simpl;
    (split; [lia |]; split; [lia |]; split; [lia |]); split.
  - intros _. split; eauto.
  - intros _. lia.
  - intros [? _]. lia.
  - intros [H _]. exfalso. apply Hn, H. eauto.
  - intros [_ ?]. lia.
  - intros [_ H]. exfalso. apply Hn, H. eauto.
  - intros _. split; intros H; destruct (Hn H).
  - intros _. lia.
Qed.

(** X26 ([updateHeadCommit]).  On every stored branch, protected or
    not, [updateHeadCommit] returns when the audit entry is accepted and
    stores the commit id given without validating it.  When that id is not
    empty and is no uuid, every later [createBranch] of a valid free name
    from this base throws "Invalid branch data: ..." and creates
    nothing. *)
Theorem updateHeadCommit_stores_any_commit_id
    (branchName commitId updatedBy : string) (b : Branch)
    (this : BranchManager) (w : World) :
  getBranch branchName this = Some b ->
  isUuid (uuids w (uuidDraws w)) = true ->
  exists this' : BranchManager,
    updateHeadCommit branchName commitId updatedBy this w
    = (inr tt, this', afterClockRead (afterUuidDraw w)) /\
    getBranch branchName this' = Some (setHeadCommit commitId b) /\
    (forall (name createdBy : string) (description : option string)
            (w' : World),
       isUuid commitId = false -> commitId <> "" -> branchName <> "" ->
       name_valid (validateBranchName name) = true ->
       getBranch name this' = None ->
       createBranch name createdBy (Some branchName) description this' w'
       = (inl (mkError ("Invalid branch data: " ++ zodMessage)), this',
          afterClockRead w')).
Proof.
  unfold getBranch. intros Hb Hid.
  unfold updateHeadCommit, canPushToProtected. run_eff. rewrite Hb. simpl.
  rewrite andb_false_r.
  match goal with |- context [onBranchAuditLog (log ?e) ?s ?w1] =>
    destruct (onBranchAuditLog_log_returns e s w1) as (a & a' & -> & _)
  end; [exact Hid |].
  simpl. eexists. split; [reflexivity |]. simpl.
  assert (Hstored :
    alter (setHeadCommit commitId) branchName (branches this) !! branchName
    = Some (setHeadCommit commitId b)) by (by rewrite lookup_alter_eq, Hb).
  split; [exact Hstored |].
  intros name who desc w' Hbad Hne Hbase Hvalid Hnone.
  unfold createBranch. rewrite Hvalid. run_eff. rewrite Hnone.
  rewrite bool_decide_eq_false_2 by (intros [? ?]; discriminate).
  rewrite (bool_decide_eq_false_2 (branchName = "")) by done.
  rewrite Hstored. simpl.
  rewrite (bool_decide_eq_false_2 (commitId = "")) by done.
  unfold BranchSchema_safeParse. simpl. rewrite Hbad. reflexivity.
Qed.

End MoreBranchFacts.

Section ComplianceFacts.
Context {host : Host}.

(** A call of [this.auditLog.log(entry)] from the compliance service. *)
Lemma onFdaAuditLog_log (entry : AuditLogEntry) (this : FDAComplianceService)
    (w : World) :
  exists res a' w',
    onFdaAuditLog (log entry) this w = (res, setFdaAuditLog a' this, w').
Proof.
  unfold onFdaAuditLog.
  destruct (log entry (fdaAuditLog this) w) as [[res a'] w'].
  eauto.
Qed.

Lemma onFdaAuditLog_log_returns (entry : AuditLogEntry)
    (this : FDAComplianceService) (w : World) :
  isUuid (uuids w (uuidDraws w)) = true ->
  exists a a',
    onFdaAuditLog (log entry) this w
    = (inr a, setFdaAuditLog a' this, afterClockRead (afterUuidDraw w)) /\
    logs a' = (logs (fdaAuditLog this) ++ [a])%list /\
    log_action a = entry_action entry /\
    log_actor a = entry_actor entry /\
    log_target a = entry_target entry.
Proof.
  intros Hid. unfold onFdaAuditLog, log, AuditLogSchema_safeParse.
  run_eff. rewrite Hid. simpl. eexists _, _. split; [reflexivity |].
  simpl. auto.
Qed.

(** X27 (pull requests that are not open).  On a pull request that is
    not open, [approvePullRequest] and [mergePullRequest] throw "Pull request
    is not open" and change nothing; no call of the service changes such a
    pull request, as long as the generator does not draw its id again. *)
Theorem closed_pull_requests_are_final (prId : string) (pr : PullRequest)
    (this : FDAComplianceService) :
  pullRequests this !! prId = Some pr ->
  pr_status pr <> pr_open ->
  (forall (reviewer signature : string) (w : World),
     approvePullRequest prId reviewer signature this w
     = (inl (mkError "Pull request is not open"), this, w)) /\
  (forall (mergedBy : string) (w : World),
     mergePullRequest prId mergedBy this w
     = (inl (mkError "Pull request is not open"), this, w)) /\
  (forall (c : ComplianceCall) (w : World),
     uuids w (uuidDraws w) <> prId ->
     pullRequests (afterComplianceCall c this w) !! prId = Some pr).
Proof.
  intros Hpr Hst.
  assert (Happrove : forall reviewer signature w,
    approvePullRequest prId reviewer signature this w
    = (inl (mkError "Pull request is not open"), this, w)).
  { intros. unfold approvePullRequest. run_eff. rewrite Hpr. simpl.
    by rewrite bool_decide_eq_false_2. }
  assert (Hmerge : forall mergedBy w,
    mergePullRequest prId mergedBy this w
    = (inl (mkError "Pull request is not open"), this, w)).
  { intros. unfold mergePullRequest. run_eff. rewrite Hpr. simpl.
    by rewrite bool_decide_eq_false_2. }
  split; [exact Happrove |]. split; [exact Hmerge |].
  intros c w Hfresh.
  destruct c as [params | id reviewer signature | id mergedBy
                 | gateId approvedBy notes]; simpl.
  - unfold createPullRequest, stateAfter. run_eff.
    match goal with |- context [negb (PullRequestSchema_safeParse ?p)] =>
      destruct (PullRequestSchema_safeParse p); simpl; [| exact Hpr] end.
    match goal with |- context [onFdaAuditLog (log ?e) ?s ?w1] =>
      destruct (onFdaAuditLog_log e s w1) as (res & a' & w' & ->) end.
    destruct res; simpl; by rewrite lookup_insert_ne.
  - destruct (decide (id = prId)) as [-> | Hne].
    { by rewrite Happrove. }
    unfold approvePullRequest, stateAfter. run_eff.
    destruct (pullRequests this !! id) as [p |]; simpl; [| exact Hpr].
    destruct (bool_decide (pr_status p = pr_open)); simpl; [| exact Hpr].
    match goal with |- context [onFdaAuditLog (log ?e) ?s ?w1] =>
      destruct (onFdaAuditLog_log e s w1) as (res & a' & w' & ->) end.
    destruct res; simpl; by rewrite lookup_alter_ne.
  - destruct (decide (id = prId)) as [-> | Hne].
    { by rewrite Hmerge. }
    unfold mergePullRequest, stateAfter. run_eff.
    destruct (pullRequests this !! id) as [p |]; simpl; [| exact Hpr].
    destruct (bool_decide (pr_status p = pr_open)); simpl; [| exact Hpr].
    match goal with |- context [onFdaAuditLog (log ?e) ?s ?w1] =>
      destruct (onFdaAuditLog_log e s w1) as (res & a' & w' & ->) end.
    destruct res; simpl; by rewrite lookup_alter_ne.
  - unfold approveGate, stateAfter. run_eff.
    destruct (designControlGates this !! gateId) as [g |]; simpl;
      [| exact Hpr].
    match goal with |- context [onFdaAuditLog (log ?e) ?s ?w1] =>
      destruct (onFdaAuditLog_log e s w1) as (res & a' & w' & ->) end.
    destruct res; simpl; exact Hpr.
Qed.

(** X28 ([mergePullRequest]).  [mergePullRequest] merges every open
    pull request when the audit entry is accepted: it consults neither the
    approvals nor [hasRequiredApprovals], whose answer is the same before
    and after.  The pull request stored and returned is merged, with the
    two readings of the clock as [mergedAt] and [updatedAt] and its
    approvals unchanged. *)
Theorem mergePullRequest_asks_for_no_approval (prId mergedBy : string)
    (pr : PullRequest) (this : FDAComplianceService) (w : World) :
  pullRequests this !! prId = Some pr ->
  pr_status pr = pr_open ->
  isUuid (uuids w (uuidDraws w)) = true ->
  exists this' : FDAComplianceService,
    let merged :=
      markMerged (clock w (clockReads w)) (clock w (S (clockReads w))) pr in
    mergePullRequest prId mergedBy this w
    = (inr merged, this',
       afterClockRead (afterUuidDraw (afterClockRead (afterClockRead w)))) /\
    pullRequests this' !! prId = Some merged /\
    pr_status merged = pr_merged /\
    pr_approvals merged = pr_approvals pr /\
    forall minApprovals : option Q,
      hasRequiredApprovals prId minApprovals this'
      = hasRequiredApprovals prId minApprovals this.
Proof.
  intros Hpr Hst Hid.
  unfold mergePullRequest. run_eff. rewrite Hpr. simpl.
  rewrite bool_decide_eq_true_2 by done. simpl.
  match goal with |- context [onFdaAuditLog (log ?e) ?s ?w1] =>
    destruct (onFdaAuditLog_log_returns e s w1) as (a & a' & -> & _)
  end; [exact Hid |].
  simpl. eexists. split; [reflexivity |]. simpl.
  rewrite lookup_alter_eq, Hpr. simpl.
  repeat split.
  intros m. unfold hasRequiredApprovals. simpl.
  by rewrite lookup_alter_eq, Hpr.
Qed.

(** X29 ([approvePullRequest]).  On an open pull request every call of
    [approvePullRequest] whose audit entry is accepted adds one approval,
    whoever the reviewer is (listed or not, the author, one who has approved
    before) and whatever the signature; the pull request stays open, and
    [hasRequiredApprovals(id, n)] then holds exactly when [n] is at most the
    former number of approvals plus one. *)
Theorem approvals_are_counted_not_checked (prId reviewer signature : string)
    (pr : PullRequest) (this : FDAComplianceService) (w : World) :
  pullRequests this !! prId = Some pr ->
  pr_status pr = pr_open ->
  isUuid (uuids w (uuidDraws w)) = true ->
  exists this' : FDAComplianceService,
    let approval :=
      {| ap_reviewer := reviewer;
         ap_approvedAt := clock w (clockReads w);
         ap_signature := signature |} in
    let approved := pushApproval approval (clock w (S (clockReads w))) pr in
    approvePullRequest prId reviewer signature this w
    = (inr approved, this',
       afterClockRead (afterUuidDraw (afterClockRead (afterClockRead w)))) /\
    pullRequests this' !! prId = Some approved /\
    pr_approvals approved = (pr_approvals pr ++ [approval])%list /\
    pr_status approved = pr_open /\
    forall n : nat,
      hasRequiredApprovals prId (Some (inject_Z (Z.of_nat n))) this'
      = bool_decide (n <= S (length (pr_approvals pr)))%nat.
Proof.
  intros Hpr Hst Hid.
  unfold approvePullRequest. run_eff. rewrite Hpr. simpl.
  rewrite bool_decide_eq_true_2 by done. simpl.
  match goal with |- context [onFdaAuditLog (log ?e) ?s ?w1] =>
    destruct (onFdaAuditLog_log_returns e s w1) as (a & a' & -> & _)
  end; [exact Hid |].
  simpl. eexists. split; [reflexivity |]. simpl.
  rewrite lookup_alter_eq, Hpr. simpl.
  repeat split; [exact Hst |].
  intros n. unfold hasRequiredApprovals. simpl.
  rewrite lookup_alter_eq, Hpr. simpl.
  rewrite length_app. simpl.
  destruct (Qle_bool _ _) eqn:Hq; symmetry.
  - apply bool_decide_eq_true. apply Qle_bool_iff in Hq.
    rewrite <- Zle_Qle in Hq. lia.
  - apply bool_decide_eq_false. intros Hle.
    assert (Qle_bool (inject_Z (Z.of_nat n))
              (inject_Z (Z.of_nat (length (pr_approvals pr) + 1))) = true).
    { apply Qle_bool_iff. rewrite <- Zle_Qle. lia. }
    congruence.
Qed.

(** What [areAllGatesApproved] decides. *)
Lemma areAllGatesApproved_iff (this : FDAComplianceService) :
  areAllGatesApproved this = true <->
  forall id g, designControlGates this !! id = Some g ->
    gate_required g = true -> gate_status g = gate_approved.
Proof.
  unfold areAllGatesApproved. rewrite forallb_forall. split.
  - intros H id g Hg Hreq.
    eapply bool_decide_eq_true, H, filter_In. split; [| exact Hreq].
    apply list_elem_of_In, list_elem_of_fmap. exists (id, g).
    split; [done |]. by apply elem_of_map_to_list.
  - intros H g Hin. apply filter_In in Hin as [Hin Hreq].
    apply list_elem_of_In, list_elem_of_fmap in Hin as ([id g'] & -> & Hin).
    apply elem_of_map_to_list in Hin. apply bool_decide_eq_true.
    by eapply H.
Qed.

(** The gates after a call. *)
Lemma afterComplianceCall_gates (c : ComplianceCall)
    (this : FDAComplianceService) (w : World) :
  designControlGates (afterComplianceCall c this w) = designControlGates this
  \/ exists gateId approvedBy approvedAt notes,
       designControlGates (afterComplianceCall c this w)
       = alter (markApproved approvedBy approvedAt notes) gateId
           (designControlGates this).
Proof.
  destruct c as [params | id reviewer signature | id mergedBy
                 | gateId approvedBy notes]; simpl.
  - left. unfold createPullRequest, stateAfter. run_eff.
    match goal with |- context [negb (PullRequestSchema_safeParse ?p)] =>
      destruct (PullRequestSchema_safeParse p); simpl; [| done] end.
    match goal with |- context [onFdaAuditLog (log ?e) ?s ?w1] =>
      destruct (onFdaAuditLog_log e s w1) as (res & a' & w' & ->) end.
    by destruct res.
  - left. unfold approvePullRequest, stateAfter. run_eff.
    destruct (pullRequests this !! id) as [p |]; simpl; [| done].
    destruct (bool_decide (pr_status p = pr_open)); simpl; [| done].
    match goal with |- context [onFdaAuditLog (log ?e) ?s ?w1] =>
      destruct (onFdaAuditLog_log e s w1) as (res & a' & w' & ->) end.
    by destruct res.
  - left. unfold mergePullRequest, stateAfter. run_eff.
    destruct (pullRequests this !! id) as [p |]; simpl; [| done].
    destruct (bool_decide (pr_status p = pr_open)); simpl; [| done].
    match goal with |- context [onFdaAuditLog (log ?e) ?s ?w1] =>
      destruct (onFdaAuditLog_log e s w1) as (res & a' & w' & ->) end.
    by destruct res.
  - unfold approveGate, stateAfter. run_eff.
    destruct (designControlGates this !! gateId) as [g |]; simpl;
      [| by left].
    right. exists gateId, approvedBy, (clock w (clockReads w)), notes.
    match goal with |- context [onFdaAuditLog (log ?e) ?s ?w1] =>
      destruct (onFdaAuditLog_log e s w1) as (res & a' & w' & ->) end.
    by destruct res.
Qed.

(** X30 (design control gates).  No call of the service takes an
    approval back: a gate that is approved is still stored, approved and as
    required as before after any call, returning or throwing; so once
    [areAllGatesApproved()] holds it holds after every call. *)
Theorem gate_approvals_are_permanent (c : ComplianceCall)
    (this : FDAComplianceService) (w : World) :
  (forall id g, designControlGates this !! id = Some g ->
     gate_status g = gate_approved ->
     exists g', designControlGates (afterComplianceCall c this w) !! id
                = Some g' /\
       gate_status g' = gate_approved /\
       gate_required g' = gate_required g) /\
  (areAllGatesApproved this = true ->
   areAllGatesApproved (afterComplianceCall c this w) = true).
Proof.
  destruct (afterComplianceCall_gates c this w)
    as [Heq | (gateId & who & at_ & notes & Heq)].
  - split.
    + intros id g Hg Hst. exists g. by rewrite Heq.
    + rewrite !areAllGatesApproved_iff. by rewrite Heq.
  - split.
    + intros id g Hg Hst. rewrite Heq.
      destruct (decide (gateId = id)) as [-> | Hne].
      * rewrite lookup_alter_eq, Hg. simpl. eauto.
      * rewrite lookup_alter_ne by done. eauto.
    + rewrite !areAllGatesApproved_iff. rewrite Heq. intros H id g.
      destruct (decide (gateId = id)) as [-> | Hne].
      * rewrite lookup_alter_eq.
        destruct (designControlGates this !! id); simpl; [| done].
        by intros [= <-].
      * rewrite lookup_alter_ne by done. apply H.
Qed.

End ComplianceFacts.

(* ================================================================== *)
(** ** The further properties on concrete ledgers and runs *)
(* ================================================================== *)

(** X1 on the ledger with the appends CREATE and UPDATE. *)
Lemma appended_ledger_is_chained_witness :
  Appended (fst Demo.ledger2) 2 /\
  getLogCount (fst Demo.ledger2) = 2%nat /\
  Forall (fun e => log_hash e
                   = createAuditHash (logDataOf e) (log_previousHash e))
    (logs (fst Demo.ledger2)).
Proof.
  split; [exact ledger2_Appended |].
  destruct (appended_ledger_is_chained _ _ ledger2_Appended) as (H1 & H2 & _).
  split; assumption.
Defined.

(** X2 on the first append to the fresh ledger. *)
Lemma log_appends_or_leaves_unchanged_witness :
  exists a : AuditLog,
    log (Demo.entry "CREATE" "alice" T_artifact)
      (fst Demo.ledger0) (snd Demo.ledger0)
    = (inr a,
       stored (config (fst Demo.ledger0)) (log_hash a)
         (logs (fst Demo.ledger0) ++ [a]),
       afterClockRead (afterUuidDraw (snd Demo.ledger0))) /\
    log_id a = Demo.uuidOf 0 /\
    log_timestamp a = 2000.
Proof.
  destruct (log_appends_or_leaves_unchanged
              (Demo.entry "CREATE" "alice" T_artifact)
              (fst Demo.ledger0) (snd Demo.ledger0)) as [Hok _].
  destruct Hok as (a & Hrun & Hid & Hts & _); [vm_compute; reflexivity |].
  exists a. split; [exact Hrun |]. split; [exact Hid | exact Hts].
Defined.

(** X7: the two pages of one entry of the ledger with two appends. *)
Lemma getLogs_pages_concatenate_witness :
  (getLogs
     (Some (withOffset (Some 0)
              (withLimit (Some 1) (targetQuery "doc-1" "artifact"))))
     (fst Demo.ledger2)
   ++ getLogs
        (Some (withOffset (Some (0 + 1))
                 (withLimit (Some 1) (targetQuery "doc-1" "artifact"))))
        (fst Demo.ledger2))%list
  = getLogs
      (Some (withOffset (Some 0)
               (withLimit (Some (1 + 1)) (targetQuery "doc-1" "artifact"))))
      (fst Demo.ledger2).
Proof.
  apply (getLogs_pages_concatenate (targetQuery "doc-1" "artifact")
           (fst Demo.ledger2) 0 1 1); lia.
Defined.

(** X9 on the target of the two appends. *)
Lemma getLogs_by_target_sorts_getLogsFor_witness :
  "doc-1" <> "" /\
  getLogs (Some (targetQuery "doc-1" "artifact")) (fst Demo.ledger2)
  = sortBy byTimestampDescending
      (getLogsForArtifact "doc-1" (fst Demo.ledger2)).
Proof.
  assert (H : "doc-1" <> "") by discriminate.
  split; [exact H |].
  exact (proj1 (getLogs_by_target_sorts_getLogsFor "doc-1"
                  (fst Demo.ledger2) H)).
Defined.

(** X10 on a ledger with a retention period of 300000 years: the cutoff
    is an Invalid Date and both entries are dropped. *)
Lemma archiveOldLogs_keeps_what_is_within_retention_witness :
  getLogCount (fst Samples.longRetention) = 2%nat /\
  exists (r : ArchiveResult) (this' : AuditLogService),
    archiveOldLogs (fst Samples.longRetention) (snd Samples.longRetention)
    = (inr r, this', afterClockRead (snd Samples.longRetention)) /\
    logs this' = [] /\ archived r = 0%nat /\ retained r = 0%nat.
Proof.
  split; [vm_compute; reflexivity |].
  destruct (archiveOldLogs_keeps_what_is_within_retention
              (fst Samples.longRetention) (snd Samples.longRetention))
    as (r & this' & Hrun & _ & _ & _ & _ & Hcase).
  assert (Hnone :
    setFullYearBack
      (clock (snd Samples.longRetention)
         (clockReads (snd Samples.longRetention)))
      (retentionYears (config (fst Samples.longRetention)))
    = None) by (vm_compute; reflexivity).
  rewrite Hnone in Hcase.
  exists r, this'. split; [exact Hrun | exact Hcase].
Defined.

(** X11: the action DELETE|root by alice, and the action DELETE by
    root|alice. *)
Lemma moved_field_boundary_is_not_detected_witness :
  log_action Samples.piped = "DELETE|root" /\
  verifyIntegrity
    (stored Demo.retention ""
       [withActor "root|alice" (withAction "DELETE" Samples.piped)])
  = verifyIntegrity (stored Demo.retention "" [Samples.piped]).
Proof.
  split; [reflexivity |].
  exact (moved_field_boundary_is_not_detected Demo.retention ""
           [Samples.piped] 0 Samples.piped "DELETE" "root"
           eq_refl eq_refl).
Defined.

(** X14 on the service whose hourly count has reached its maximum; it has
    no callback. *)
Lemma emergencyRollback_ignores_the_gates_witness :
  onRollbackTriggered (snd (fst Demo.afterTwo)) = false /\
  rollbackCountLastHour (snd (fst Demo.afterTwo)) = 2 /\
  exists (r : Rollback) (this' : RollbackService) (w' : World),
    emergencyRollback "oncall" "1.2.3" "bad deploy"
      (snd (fst Demo.afterTwo)) (snd Demo.afterTwo)
    = (inr r, this', w') /\
    rb_status r = in_progress /\
    rollbackCountLastHour this' = 3.
Proof.
  split; [vm_compute; reflexivity |]. split; [vm_compute; reflexivity |].
  destruct (emergencyRollback_ignores_the_gates "oncall" "1.2.3" "bad deploy"
              (snd (fst Demo.afterTwo)) (snd Demo.afterTwo))
    as (r & this' & w' & a1 & a2 & Hrun & _ & Hst & _ & _ & _ & _ & _ & Hcount
        & _);
    [vm_compute; reflexivity .. |].
  exists r, this', w'. split; [exact Hrun |]. split; [exact Hst |].
  rewrite Hcount. vm_compute. reflexivity.
Defined.

(** X15 on a manual rollback whose record is stamped at [t0] while the
    next reading of the clock is a second later, and a breach one second
    after that. *)
Lemma manual_rollback_starts_the_cooldown_witness :
  exists r : Rollback,
    fst (fst Samples.ticking) = inr r /\
    rb_timestamp r = Demo.t0 /\
    lastRollbackTime (stateAfter Samples.ticking) = Demo.t0 + 1000 /\
    checkAndTriggerRollback Demo.breach (stateAfter Samples.ticking)
      (Demo.world [Demo.t0 + 2000])
    = (inr None, stateAfter Samples.ticking,
       afterClockRead (Demo.world [Demo.t0 + 2000])).
Proof.
  destruct (fst (fst Samples.ticking)) as [e | r] eqn:Hr;
    [vm_compute in Hr; discriminate |].
  assert (Hrun :
    emergencyRollback "oncall" "1.2.3" "bad deploy"
      (fst Samples.tickingGovernor) (snd Samples.tickingGovernor)
    = (inr r, stateAfter Samples.ticking, snd Samples.ticking)).
  { rewrite <- Hr. unfold stateAfter.
    change (emergencyRollback "oncall" "1.2.3" "bad deploy"
              (fst Samples.tickingGovernor) (snd Samples.tickingGovernor))
      with Samples.ticking.
    destruct Samples.ticking as [[? ?] ?]. reflexivity. }
  assert (Hnone : onRollbackTriggered (fst Samples.tickingGovernor) = false)
    by reflexivity.
  destruct (manual_rollback_starts_the_cooldown _ _ _ _ _ _ _ _
              Hnone Hrun) as (_ & Hstamp & Hlast & Hcool).
  exists r. split; [reflexivity |].
  split; [rewrite Hstamp; vm_compute; reflexivity |].
  split; [rewrite Hlast; vm_compute; reflexivity |].
  apply Hcool. rewrite Hlast. vm_compute. reflexivity.
Defined.

(** X16 on a request that names the commit c0ffee. *)
Lemma initiateRollback_rejects_malformed_commit_id_witness :
  initiateRollback Samples.malformed (fst Demo.governor0) (snd Demo.governor0)
  = (inl (mkError ("Invalid rollback: " ++ zodMessage)), fst Demo.governor0,
     afterClockRead (afterUuidDraw (snd Demo.governor0))).
Proof.
  exact (initiateRollback_rejects_malformed_commit_id Samples.malformed
           (fst Demo.governor0) (snd Demo.governor0) "c0ffee"
           eq_refl eq_refl).
Defined.

(** X17: the start of the pending manual rollback is audited. *)
Lemma transitions_are_audited_witness :
  exists (r' : Rollback) (this' : RollbackService) (w' : World)
         (a : AuditLog),
    executeRollback (Demo.uuidOf 0) (stateAfter Samples.requested)
      (snd Samples.requested)
    = (inr r', this', w') /\
    logs (auditLog this')
    = (logs (auditLog (stateAfter Samples.requested)) ++ [a])%list /\
    log_action a = "ROLLBACK_IN_PROGRESS".
Proof.
  destruct (executeRollback (Demo.uuidOf 0) (stateAfter Samples.requested)
              (snd Samples.requested)) as [[[e | r'] this'] w'] eqn:Hrun;
    [vm_compute in Hrun; discriminate |].
  destruct (transitions_are_audited (Demo.uuidOf 0)
              (stateAfter Samples.requested) (snd Samples.requested))
    as (Hexec & _).
  destruct (Hexec _ _ _ Hrun) as (a & Hlogs & Haction & _).
  exists r', this', w', a. auto.
Defined.

(** X18: the rollback that starts was stored as pending. *)
Lemma only_pending_records_start_or_cancel_witness :
  exists (r' : Rollback) (this' : RollbackService) (w' : World)
         (r : Rollback),
    executeRollback (Demo.uuidOf 0) (stateAfter Samples.requested)
      (snd Samples.requested)
    = (inr r', this', w') /\
    getRollback (Demo.uuidOf 0) (stateAfter Samples.requested) = Some r /\
    rb_status r = pending /\
    rb_status r' = in_progress.
Proof.
  destruct (executeRollback (Demo.uuidOf 0) (stateAfter Samples.requested)
              (snd Samples.requested)) as [[[e | r'] this'] w'] eqn:Hrun;
    [vm_compute in Hrun; discriminate |].
  destruct (only_pending_records_start_or_cancel (Demo.uuidOf 0)
              (stateAfter Samples.requested) (snd Samples.requested))
    as (Hexec & _).
  destruct (Hexec _ _ _ Hrun) as (r & Hr & Hst & -> & _).
  exists (setStatus in_progress r), this', w', r. auto.
Defined.

(** X20 on the service after a manual rollback that was completed. *)
Lemma served_records_are_well_kept_witness :
  Served (stateAfter Demo.completion) /\
  Z.of_nat (size (rollbacks (stateAfter Demo.completion)))
  <= rollbackCountLastHour (stateAfter Demo.completion).
Proof.
  assert (H : Served (stateAfter Demo.completion)).
  { change (Served
              (afterCall (CallComplete (Demo.uuidOf 0) [])
                 (afterCall (CallEmergency "oncall" "1.2.3" "bad deploy")
                    (newRollbackService Demo.limits
                       (fst (newAuditLogService Demo.retention
                               Demo.governorWorld)) false)
                    (snd Demo.governor0))
                 (snd Demo.emergency))).
    do 2 apply Served_call. apply Served_new. }
  split; [exact H |].
  exact (proj1 (proj2 (served_records_are_well_kept _ H))).
Defined.

(** X22 on the manager after a feature branch was created. *)
Lemma main_branch_is_permanent_witness :
  Managed (stateAfter Samples.feature) /\
  exists b : Branch,
    getBranch "main" (stateAfter Samples.feature) = Some b /\
    br_protected b = true /\ br_type b = B_main.
Proof.
  assert (H : Managed (stateAfter Samples.feature)).
  { change (Managed
              (afterBranchCall
                 (CallCreateBranch "feature/login" "alice" None None)
                 (fst (newBranchManager [("staging", false)]
                         (fst Demo.ledger0) (snd Demo.ledger0)))
                 (snd Samples.manager0))).
    apply Managed_call. apply Managed_new. }
  split; [exact H |].
  exact (proj1 (main_branch_is_permanent _ H)).
Defined.

(** X23: the branch 'staging' from the base 'trunk', which does not
    exist; the configuration maps 'staging' to [false]. *)
Lemma createBranch_records_base_unchecked_witness :
  getBranch "trunk" (fst Samples.manager0) = None /\
  branchProtection (fst Samples.manager0) = [("staging", false)] /\
  exists (b : Branch) (this' : BranchManager) (w' : World),
    Samples.staging = (inr b, this', w') /\
    br_baseBranch b = Some "trunk" /\
    br_headCommit b = None /\
    br_protected b = true.
Proof.
  split; [vm_compute; reflexivity |]. split; [reflexivity |].
  destruct (createBranch_records_base_unchecked "staging" "alice"
              (Some "trunk") None (fst Samples.manager0)
              (snd Samples.manager0))
    as (b & this' & Hrun & _ & _ & _ & _ & Hbase & _ & Hhead & Hprot & _).
  - vm_compute. reflexivity.
  - vm_compute. reflexivity.
  - vm_compute. exact I.
  - vm_compute. reflexivity.
  - exists b, this'. eexists. split; [exact Hrun |]. split; [exact Hbase |].
    split; [apply Hhead; vm_compute; reflexivity |].
    apply Hprot. right. right. simpl. apply list_elem_of_here.
Defined.

(** X24: the feature branch deleted while it is the current branch. *)
Lemma deleteBranch_leaves_current_branch_dangling_witness :
  getCurrentBranch Samples.checkedOut = "feature/login" /\
  exists this' : BranchManager,
    deleteBranch "feature/login" "alice" Samples.checkedOut
      (snd Samples.feature)
    = (inr tt, this', afterClockRead (afterUuidDraw (snd Samples.feature))) /\
    getBranch (getCurrentBranch this') this' = None.
Proof.
  split; [vm_compute; reflexivity |].
  destruct (getBranch "feature/login" Samples.checkedOut) as [b |] eqn:Hb;
    [| vm_compute in Hb; discriminate].
  assert (Hp : br_protected b = false).
  { vm_compute in Hb. injection Hb as <-. reflexivity. }
  destruct (deleteBranch_leaves_current_branch_dangling "feature/login"
              "alice" b Samples.checkedOut (snd Samples.feature) Hb Hp)
    as (this' & Hrun & _ & Hnone & _);
    [vm_compute; reflexivity .. |].
  exists this'. split; [exact Hrun | exact Hnone].
Defined.

(** X25 on the two default branches, and on the branch 'main' with
    itself. *)
Lemma getBranchDifference_compares_presence_only_witness :
  getBranchDifference "main" "develop" (fst Samples.manager0)
    (snd Samples.manager0)
  = (inr {| ahead := 0; behind := 0 |}, fst Samples.manager0,
     snd Samples.manager0).
Proof.
  destruct (getBranch "main" (fst Samples.manager0)) as [m |] eqn:Hm;
    [| vm_compute in Hm; discriminate].
  destruct (getBranch "develop" (fst Samples.manager0)) as [d |] eqn:Hd;
    [| vm_compute in Hd; discriminate].
  destruct (getBranchDifference_compares_presence_only "main" "develop" m d
              (fst Samples.manager0) (snd Samples.manager0) Hm Hd)
    as (diff & Hrun & _ & _ & _ & _ & Hzero).
  rewrite Hrun. destruct diff as [a b]. simpl in Hzero.
  destruct Hzero as [_ [-> ->]]; [| reflexivity].
  vm_compute in Hm. injection Hm as <-.
  vm_compute in Hd. injection Hd as <-.
  simpl. split; intros [x Hx]; discriminate.
Defined.

(** X26: a head commit of 'main' that is no uuid, then a hotfix branch. *)
Lemma updateHeadCommit_stores_any_commit_id_witness :
  exists this' : BranchManager,
    updateHeadCommit "main" "not-a-commit" "mallory" (fst Samples.manager0)
      (snd Samples.manager0)
    = (inr tt, this', afterClockRead (afterUuidDraw (snd Samples.manager0))) /\
    createBranch "hotfix/1" "alice" (Some "main") None this'
      (afterClockRead (afterUuidDraw (snd Samples.manager0)))
    = (inl (mkError ("Invalid branch data: " ++ zodMessage)), this',
       afterClockRead
         (afterClockRead (afterUuidDraw (snd Samples.manager0)))).
Proof.
  destruct (getBranch "main" (fst Samples.manager0)) as [m |] eqn:Hm;
    [| vm_compute in Hm; discriminate].
  destruct (updateHeadCommit_stores_any_commit_id "main" "not-a-commit"
              "mallory" m (fst Samples.manager0) (snd Samples.manager0) Hm)
    as (this' & Hrun & _ & Hcreate); [vm_compute; reflexivity |].
  exists this'. split; [exact Hrun |].
  apply Hcreate; try done.
  unfold getBranch.
  assert (Hs : stateAfter (updateHeadCommit "main" "not-a-commit" "mallory"
                 (fst Samples.manager0) (snd Samples.manager0)) = this')
    by (rewrite Hrun; reflexivity).
  rewrite <- Hs. vm_compute. reflexivity.
Defined.

(** X27 on the pull request that was merged. *)
Lemma closed_pull_requests_are_final_witness :
  approvePullRequest (Demo.uuidOf 0) "bob" "signature"
    (stateAfter Samples.merged) (snd Samples.merged)
  = (inl (mkError "Pull request is not open"), stateAfter Samples.merged,
     snd Samples.merged).
Proof.
  destruct (pullRequests (stateAfter Samples.merged) !! Demo.uuidOf 0)
    as [pr |] eqn:Hpr; [| vm_compute in Hpr; discriminate].
  assert (Hst : pr_status pr <> pr_open).
  { vm_compute in Hpr. injection Hpr as <-. discriminate. }
  exact (proj1 (closed_pull_requests_are_final _ _ _ Hpr Hst) _ _ _).
Defined.

(** X28: the pull request merged by its author without an approval. *)
Lemma mergePullRequest_asks_for_no_approval_witness :
  hasRequiredApprovals (Demo.uuidOf 0) None (stateAfter Samples.opened)
  = false /\
  exists (m : PullRequest) (this' : FDAComplianceService) (w' : World),
    Samples.merged = (inr m, this', w') /\
    pr_status m = pr_merged /\
    pr_approvals m = [].
Proof.
  split; [vm_compute; reflexivity |].
  destruct (pullRequests (stateAfter Samples.opened) !! Demo.uuidOf 0)
    as [pr |] eqn:Hpr; [| vm_compute in Hpr; discriminate].
  assert (Hst : pr_status pr = pr_open /\ pr_approvals pr = []).
  { vm_compute in Hpr. injection Hpr as <-. split; reflexivity. }
  destruct Hst as [Hst Hnone].
  destruct (mergePullRequest_asks_for_no_approval (Demo.uuidOf 0) "alice" pr
              (stateAfter Samples.opened) (snd Samples.opened) Hpr Hst)
    as (this' & Hrun & _ & Hmerged & Happrovals & _);
    [vm_compute; reflexivity |].
  eexists _, this', _. split; [exact Hrun |].
  split; [exact Hmerged |]. rewrite Happrovals. exact Hnone.
Defined.

(** X29: the author approves her own pull request, with an empty
    signature. *)
Lemma approvals_are_counted_not_checked_witness :
  exists (p : PullRequest) (this' : FDAComplianceService) (w' : World),
    approvePullRequest (Demo.uuidOf 0) "alice" ""
      (stateAfter Samples.opened) (snd Samples.opened)
    = (inr p, this', w') /\
    pr_author p = "alice" /\
    hasRequiredApprovals (Demo.uuidOf 0) None this' = true.
Proof.
  destruct (pullRequests (stateAfter Samples.opened) !! Demo.uuidOf 0)
    as [pr |] eqn:Hpr; [| vm_compute in Hpr; discriminate].
  assert (Hst : pr_status pr = pr_open /\ pr_author pr = "alice").
  { vm_compute in Hpr. injection Hpr as <-. split; reflexivity. }
  destruct Hst as [Hst Hauthor].
  destruct (approvals_are_counted_not_checked (Demo.uuidOf 0) "alice" "" pr
              (stateAfter Samples.opened) (snd Samples.opened) Hpr Hst)
    as (this' & Hrun & _ & _ & _ & Hcount);
    [vm_compute; reflexivity |].
  eexists _, this', _. split; [exact Hrun |].
  split; [exact Hauthor |].
  change (hasRequiredApprovals (Demo.uuidOf 0)
            (Some (inject_Z (Z.of_nat 1))) this' = true).
  rewrite Hcount. apply bool_decide_eq_true. lia.
Defined.

(** X30: all gates approved, then one more approval, with nothing left to
    read from the clock. *)
Lemma gate_approvals_are_permanent_witness :
  areAllGatesApproved (fst Samples.allApproved) = true /\
  areAllGatesApproved
    (afterComplianceCall (CallApproveGate "gate-1" "eve" None)
       (fst Samples.allApproved) (snd Samples.allApproved))
  = true.
Proof.
  assert (H : areAllGatesApproved (fst Samples.allApproved) = true)
    by (vm_compute; reflexivity).
  split; [exact H |].
  exact (proj2 (gate_approvals_are_permanent
                  (CallApproveGate "gate-1" "eve" None)
                  (fst Samples.allApproved) (snd Samples.allApproved)) H).
Defined.
